(** * SparseML: module resolver, KV-cache graph transform and SparseGPT wrapper

    A shallow embedding of three parts of the repository and the properties
    proved about them:

    - [Resolver]: [src/sparseml/utils/pytorch/module.py]
      ([match_targets], [match_layers_params] and the layer selectors);
    - [KVCache]:  [src/sparseml/exporters/transforms/add_kv_cache.py]
      ([AddKeyValueCache.transform]);
    - [SGPT]:     [src/sparseml/modifiers/obcq/utils/sgpt_wrapper.py]
      ([SGPTModuleWrapper.add_batch] and [fasterprune]);
    - [FeatureImitation]:
      [src/sparseml/pytorch/sparsification/distillation/modifier_feature_imitation.py]
      ([find_layers], which names layers as the resolver does);
    - [Stage]:    [src/sparseml/core/recipe/stage.py]
      ([RecipeStage._combine_modifiers] and [remap_modifiers]).

    Python objects that are mutated in place (the ONNX model, the wrapper's
    buffers) are modelled by explicit state passing: a function returns the
    outcome of the call together with the state of the object after it, also
    when the call raises. *)

From Stdlib Require Import List String Ascii ZArith Lia Bool Arith PeanoNat.
From Stdlib Require Import Permutation DecimalString SpecFloat.
Import ListNotations.


(* ===================================================================== *)
(** * Python helpers shared by the three parts                            *)
(* ===================================================================== *)

Module Py.

(** [s[:n]] on a Python string. *)
Fixpoint slice_to (n : nat) (s : string) : string :=
  match n, s with
  | S n', String c s' => String c (slice_to n' s')
  | _, _ => EmptyString
  end.

(** [s[n:]] on a Python string. *)
Fixpoint slice_from (n : nat) (s : string) : string :=
  match n, s with
  | S n', String _ s' => slice_from n' s'
  | _, _ => s
  end.

(** [c in s] for a one-character string [c]. *)
Fixpoint contains_char (c : ascii) (s : string) : bool :=
  match s with
  | EmptyString => false
  | String d s' => Ascii.eqb c d || contains_char c s'
  end.

(** [s.endswith(suffix)]. *)
Definition endswith (s suffix : string) : bool :=
  String.eqb (slice_from (String.length s - String.length suffix) s) suffix
  && (String.length suffix <=? String.length s)%nat.

(** [l[i] = x] on a Python list: [None] stands for IndexError.  Only the
    non-negative indices used by the sources are modelled. *)
Fixpoint setitem {A : Type} (l : list A) (i : nat) (x : A) : option (list A) :=
  match l, i with
  | [], _ => None
  | _ :: t, O => Some (x :: t)
  | h :: t, S i' => option_map (cons h) (setitem t i' x)
  end.

(** [l.insert(i, x)] with Python's clamping of the index: a negative index
    counts from the end and is clamped to 0, a large one to [len(l)]. *)
Definition insert {A : Type} (i : Z) (x : A) (l : list A) : list A :=
  let n := Z.of_nat (List.length l) in
  let j := if (i <? 0)%Z then Z.max 0 (n + i) else Z.min i n in
  firstn (Z.to_nat j) l ++ x :: skipn (Z.to_nat j) l.

(** [d[k] = v] on a Python dict (insertion ordered): an existing key keeps
    its position and gets the new value, a new key goes last. *)
Fixpoint dict_set {V : Type} (d : list (string * V)) (k : string) (v : V)
  : list (string * V) :=
  match d with
  | [] => [(k, v)]
  | (k', v') :: d' =>
      if String.eqb k' k then (k, v) :: d' else (k', v') :: dict_set d' k v
  end.

(** [d.get(k)] on a Python dict: [None] when the key is absent. *)
Fixpoint dict_get {V : Type} (d : list (string * V)) (k : string) : option V :=
  match d with
  | [] => None
  | (k', v) :: d' => if String.eqb k' k then Some v else dict_get d' k
  end.

End Py.

(* ===================================================================== *)
(** * Part 1: the layer / parameter resolver (module.py)                  *)
(* ===================================================================== *)

Module Resolver.

Open Scope string_scope.

Definition ALL_TARGET : string := "__ALL__".
Definition ALL_PRUNABLE_TARGET : string := "__ALL_PRUNABLE__".
Definition ALL_QUANTIZABLE_TARGET : string := "__ALL_QUANTIZABLE__".

(** The classes the selectors test with [isinstance].  [QATLinear] derives
    from [Linear], [QATConv2d] and [QATConv3d] from [_ConvNd]. *)
Inductive LayerType : Type :=
| Linear | ConvNd | QATLinear | QATConv2d | QATConv3d | TransformerConv1D
| OtherLayer.

Definition isinstance_Linear (t : LayerType) : bool :=
  match t with Linear | QATLinear => true | _ => false end.

Definition isinstance_ConvNd (t : LayerType) : bool :=
  match t with ConvNd | QATConv2d | QATConv3d => true | _ => false end.

Definition isinstance_QATLinear (t : LayerType) : bool :=
  match t with QATLinear => true | _ => false end.

Definition isinstance_QATConv2d (t : LayerType) : bool :=
  match t with QATConv2d => true | _ => false end.

Definition isinstance_QATConv3d (t : LayerType) : bool :=
  match t with QATConv3d => true | _ => false end.

Definition isinstance_TransformerConv1D (t : LayerType) : bool :=
  match t with TransformerConv1D => true | _ => false end.

(** Which of the optional imports at the top of the file succeeded; a name
    whose import failed is bound to [None] there. *)
Record Imports : Type := {
  has_QAT : bool;            (* QATLinear, QATConv2d, QuantWrapper *)
  has_QATConv3d : bool;
  has_TransformerConv1D : bool
}.

(** A tensor parameter, identified by a tag. *)
Definition Param : Type := nat.

(** [torch.nn.Module]: its class, its own parameters ([_parameters]) and its
    sub-modules ([_modules]), both in registration order.  A node of the tree
    has no identity of its own: a module object that is registered twice
    shows as two equal subtrees, and a parameter that is shared as two
    entries with the same tag.  [named_modules] and [named_parameters] of
    torch list such an object once; the traversals below list every entry,
    so they are those of torch on the trees that are [unshared], and the
    statements that depend on the traversal being exact assume that. *)
#[warnings="-register-all"]
Inductive TorchModule : Type :=
| mkModule (mtype : LayerType)
           (parameters : list (string * Param))
           (modules : list (string * TorchModule)).

Definition mtype_of (m : TorchModule) : LayerType :=
  match m with mkModule t _ _ => t end.

Definition parameters_of (m : TorchModule) : list (string * Param) :=
  match m with mkModule _ ps _ => ps end.


(** [prefix + ("." if prefix else "") + name] *)
Definition join_prefix (prefix name : string) : string :=
  match prefix with
  | EmptyString => name
  | _ => prefix ++ "." ++ name
  end.

(** [Module.named_modules(prefix=...)]: the module itself, then its
    descendants depth first. *)
Fixpoint named_modules_from (prefix : string) (m : TorchModule)
  : list (string * TorchModule) :=
  match m with
  | mkModule _ _ ms =>
      (prefix, m) ::
      (fix children (l : list (string * TorchModule)) :=
         match l with
         | [] => []
         | (name, child) :: l' =>
             (named_modules_from (join_prefix prefix name) child ++ children l')%list
         end) ms
  end.

Definition named_modules (m : TorchModule) : list (string * TorchModule) :=
  named_modules_from "" m.

(** [Module.named_parameters()]: the parameters of every module of
    [named_modules], each named relative to the receiver. *)
Definition named_parameters (m : TorchModule) : list (string * Param) :=
  flat_map
    (fun '(module_prefix, sub) =>
       map (fun '(k, v) => (join_prefix module_prefix k, v)) (parameters_of sub))
    (named_modules m).

(** A dict value of the result: a layer or a parameter. *)
Inductive Value : Type :=
| VLayer (layer : TorchModule)
| VParam (param : Param).

Definition Dict : Type := list (string * Value).

(** [targets: Union[str, List[str]]] *)
Inductive Targets : Type :=
| TargetStr (s : string)
| TargetList (l : list string).

(** [if isinstance(targets, str): targets = [targets]] *)
Definition as_list (targets : Targets) : list string :=
  match targets with
  | TargetStr s => [s]
  | TargetList l => l
  end.

(** [targets == ALL_TARGET]: a list never equals a string. *)
Definition targets_eq_str (targets : Targets) (s : string) : bool :=
  match targets with
  | TargetStr t => String.eqb t s
  | TargetList _ => false
  end.

Inductive Outcome : Type :=
| Resolved (resolved : Dict)
| ValueError (missed : list string)   (* "Could not find targets {missed} ..." *)
| ImportError.

Section WithRegex.

(** Python's [re.match(pattern, string)] as a truth value.  Patterns are
    taken to compile. *)
Variable re_match : string -> string -> bool.

(** The loop of [match_targets], from position [index] of the list on. *)
Fixpoint match_targets_from (index : Z) (name : string) (targets : list string)
  : bool * Z :=
  match targets with
  | [] => (false, (-1)%Z)
  | target :: rest =>
      if String.eqb (Py.slice_to 3 target) "re:" then
        let pattern := Py.slice_from 3 target in
        if re_match pattern name then (true, index)
        else match_targets_from (index + 1) name rest
      else if String.eqb name target then (true, index)
      else match_targets_from (index + 1) name rest
  end.

Definition match_targets (name : string) (targets : Targets) : bool * Z :=
  match_targets_from 0 name (as_list targets).

Definition get_default_params (layers : list (string * TorchModule))
  : list (string * Param) :=
  fold_left
    (fun params '(name, layer) =>
       match find (fun '(param_name, _) => String.eqb param_name "weight")
                  (named_parameters layer) with
       | Some (_, param) => Py.dict_set params name param
       | None => params
       end)
    layers [].

Definition get_terminal_layers (module : TorchModule)
  : list (string * TorchModule) :=
  fold_left
    (fun terminal '(name, layer) =>
       if (1 <? List.length (named_modules layer))%nat then terminal
       else Py.dict_set terminal name layer)
    (named_modules module) [].

Definition get_prunable_layers (env : Imports) (module : TorchModule)
  : list (string * TorchModule) :=
  fold_left
    (fun prunable '(name, layer) =>
       let t := mtype_of layer in
       if isinstance_Linear t
          || isinstance_ConvNd t
          || (has_QAT env && isinstance_QATLinear t)
          || (has_QAT env && isinstance_QATConv2d t)
          || (has_QATConv3d env && isinstance_QATConv3d t)
          || (has_TransformerConv1D env && isinstance_TransformerConv1D t)
       then Py.dict_set prunable name layer
       else prunable)
    (named_modules module) [].

(** [None] stands for the ImportError raised when QAT is unavailable. *)
Definition get_quantizable_layers (env : Imports) (module : TorchModule)
  : option (list (string * TorchModule)) :=
  if negb (has_QAT env) then None
  else Some
    (fold_left
       (fun quantizable '(name, layer) =>
          let t := mtype_of layer in
          if isinstance_Linear t || isinstance_ConvNd t
          then Py.dict_set quantizable name layer
          else quantizable)
       (named_modules module) []).

Definition layers_or_params (params : bool) (values : list (string * TorchModule))
  : Dict :=
  if params then map (fun '(n, p) => (n, VParam p)) (get_default_params values)
  else map (fun '(n, l) => (n, VLayer l)) values.

(** [targets_found[i] = True] *)
Fixpoint mark_found (found : list bool) (i : nat) : list bool :=
  match found, i with
  | [], _ => []
  | _ :: t, O => true :: t
  | h :: t, S i' => h :: mark_found t i'
  end.

(** The loop state of [match_layers_params]. *)
Definition LoopState : Type := (list bool * Dict)%type.

(** The inner loop over [layer.named_parameters()]. *)
Definition params_loop (targets : Targets) (params : bool)
           (name : string) (layer : TorchModule) (st : LoopState) : LoopState :=
  fold_left
    (fun '(targets_found, resolved) '(param_name, param) =>
       if Py.contains_char "."%char param_name then (targets_found, resolved)
       else
         let '(param_match, param_match_index) :=
           match_targets (name ++ "." ++ param_name) targets in
         if param_match then
           (mark_found targets_found (Z.to_nat param_match_index),
            Py.dict_set resolved name
              (if negb params then VLayer layer else VParam param))
         else (targets_found, resolved))
    (named_parameters layer) st.

(** One iteration of the loop over [module.named_modules()]. *)
Definition layer_step (targets : Targets) (params : bool)
           (st : LoopState) (entry : string * TorchModule) : LoopState :=
  let '(name, layer) := entry in
  let '(targets_found, resolved) := st in
  let '(is_match, match_index) := match_targets name targets in
  let st1 :=
    if is_match && negb params then
      (mark_found targets_found (Z.to_nat match_index),
       Py.dict_set resolved name (VLayer layer))
    else (targets_found, resolved) in
  params_loop targets params name layer st1.

(** [[target for found, target in zip(targets_found, targets) if not found]] *)
Definition missed_targets (targets_found : list bool) (targets : list string)
  : list string :=
  map snd (filter (fun '(found, _) => negb found) (combine targets_found targets)).

Definition match_layers_params (env : Imports) (targets : Targets)
           (module : TorchModule) (params : bool) : Outcome :=
  if targets_eq_str targets ALL_TARGET then
    Resolved (layers_or_params params (get_terminal_layers module))
  else if targets_eq_str targets ALL_PRUNABLE_TARGET then
    Resolved (layers_or_params params (get_prunable_layers env module))
  else if targets_eq_str targets ALL_QUANTIZABLE_TARGET then
    match get_quantizable_layers env module with
    | Some values => Resolved (layers_or_params params values)
    | None => ImportError
    end
  else
    let targets_found := map (fun _ => false) (as_list targets) in
    let '(targets_found, resolved) :=
      fold_left (layer_step targets params) (named_modules module)
                (targets_found, []) in
    let missed := missed_targets targets_found (as_list targets) in
    if (0 <? List.length missed)%nat then ValueError missed
    else Resolved resolved.

(** ** What a target is looked up against *)

(** The target, taken alone, matches the name. *)
Definition target_matches (target name : string) : bool :=
  fst (match_targets name (TargetStr target)).

(** The names under which the parameters of [layer] are looked up: those of
    its own parameters, prefixed with the name of the layer. *)
Definition param_candidates (name : string) (layer : TorchModule) : list string :=
  map (fun '(param_name, _) => name ++ "." ++ param_name)
      (filter (fun '(param_name, _) => negb (Py.contains_char "."%char param_name))
              (named_parameters layer)).

(** All the names [match_layers_params] may credit a target for: the layer
    names, unless parameters are asked for, and the parameter names. *)
Definition candidates (module : TorchModule) (params : bool) : list string :=
  flat_map
    (fun '(name, layer) =>
       ((if params then [] else [name]) ++ param_candidates name layer)%list)
    (named_modules module).

(** Every entry of [targets_found] that is set stands for a target that
    matches one of the names [cands]. *)
Definition credited (targets cands : list string) (found : list bool) : Prop :=
  List.length found = List.length targets
  /\ forall k, nth k found false = true ->
       exists t name,
         nth_error targets k = Some t /\ In name cands
         /\ target_matches t name = true.

Definition get_layers (env : Imports) (targets : Targets) (module : TorchModule)
  : Outcome :=
  match_layers_params env targets module false.


(** ** Single lookups *)





(** ** What a layer is resolved for *)

(** The own parameters of [layer] that a target matches under the name
    [name.param_name], in registration order. *)
Definition matched_params (targets : Targets) (name : string) (layer : TorchModule)
  : list (string * Param) :=
  filter
    (fun '(param_name, _) =>
       negb (Py.contains_char "."%char param_name)
       && fst (match_targets (name ++ "." ++ param_name) targets))
    (named_parameters layer).

(** The parameter of the last entry. *)
Definition last_param (l : list (string * Param)) : option Param :=
  match rev l with
  | [] => None
  | (_, param) :: _ => Some param
  end.

(** What the pass of [match_layers_params] over the layer [name] stores
    under that name, if anything. *)
Definition stored (targets : Targets) (params : bool) (name : string)
           (layer : TorchModule) : option Value :=
  if params then option_map VParam (last_param (matched_params targets name layer))
  else if fst (match_targets name targets)
          || (0 <? List.length (matched_params targets name layer))%nat
       then Some (VLayer layer)
       else None.



End WithRegex.

(** ** The classes behind the reserved targets *)




(** ** Well-formed trees *)




End Resolver.

(* ===================================================================== *)
(** * The layer finder of the feature-imitation modifier                  *)
(* ===================================================================== *)

(** [find_layers], the helper of [FeatureImitationModifier.initialize]
    ([src/sparseml/pytorch/sparsification/distillation/modifier_feature_imitation.py])
    that collects the layers whose outputs are to be cached. *)
Module FeatureImitation.

Import Resolver.


End FeatureImitation.

(* ===================================================================== *)
(** * The modifier groups of a recipe stage                               *)
(* ===================================================================== *)

(** [RecipeStage._combine_modifiers] and [RecipeStage.remap_modifiers]
    ([src/sparseml/core/recipe/stage.py]), two functions of the raw
    [values] of a stage. *)
Module Stage.

Open Scope string_scope.

(** What a parsed recipe holds: strings, scalars ([None], booleans and
    numbers, which can neither be iterated nor subscripted), lists and
    dicts with string keys.  A value is a tree: no object occurs twice. *)
#[warnings="-register-all"]
Inductive PyValue : Type :=
| PStr (s : string)
| PScalar (tag : nat)
| PList (l : list PyValue)
| PDict (d : list (string * PyValue)).

Inductive Exn : Type :=
| TypeError      (* not iterable, or no item assignment *)
| ValueError     (* the wrong number of values to unpack *)
| KeyError.      (* [del values[key]] of a missing key *)

(** [s.rsplit(sep, 1)]: the two parts around the last occurrence of [sep],
    [None] when there is none.  [sep] is not empty. *)
Fixpoint rsplit1 (sep s : string) : option (string * string) :=
  match s with
  | EmptyString => None
  | String c s' =>
      match rsplit1 sep s' with
      | Some (a, b) => Some (String c a, b)
      | None =>
          if String.prefix sep s
          then Some (EmptyString, Py.slice_from (String.length sep) s)
          else None
      end
  end.

(** [s.rsplit(sep, 1)[0]] *)
Definition rsplit1_head (sep s : string) : string :=
  match rsplit1 sep s with
  | Some (a, _) => a
  | None => s
  end.

(** Lines 89-94: whether [key] holds modifiers, and of which group. *)
Definition group_of_key (key : string) : option string :=
  if Py.endswith key "_modifiers" || String.eqb key "modifiers" then
    Some (if Py.endswith key "_modifiers" then rsplit1_head "_modifiers" key
          else "default")
  else None.

(** Lines 95-97 on a list: every element gets [modifier["group"] = group],
    in place, and is appended to [modifiers].  The result is the exception
    if any, what was appended, and the list after the loop; an element that
    is not a dict stops the loop with a TypeError. *)
Fixpoint tag_list (group : string) (l : list PyValue)
  : option Exn * list PyValue * list PyValue :=
  match l with
  | [] => (None, [], [])
  | PDict d :: l' =>
      let modifier := PDict (Py.dict_set d "group" (PStr group)) in
      let '(e, appended, l'') := tag_list group l' in
      (e, modifier :: appended, modifier :: l'')
  | _ :: _ => (Some TypeError, [], l)
  end.

(** Lines 95-97 on any value: iterating a dict or a string gives strings,
    which take no item assignment, and a scalar cannot be iterated. *)
Definition tag (group : string) (value : PyValue)
  : option Exn * list PyValue * PyValue :=
  match value with
  | PList l =>
      let '(e, appended, l') := tag_list group l in (e, appended, PList l')
  | PDict [] | PStr EmptyString => (None, [], value)
  | PDict (_ :: _) | PStr (String _ _) | PScalar _ => (Some TypeError, [], value)
  end.

(** [RecipeStage._combine_modifiers]: the exception if any, the list
    [modifiers], and [values] after the call, whose modifiers are the very
    objects of the list. *)
Fixpoint _combine_modifiers (values : list (string * PyValue))
  : option Exn * list PyValue * list (string * PyValue) :=
  match values with
  | [] => (None, [], [])
  | (key, value) :: rest =>
      match group_of_key key with
      | Some group =>
          let '(e, appended, value') := tag group value in
          match e with
          | Some _ => (e, appended, (key, value') :: rest)
          | None =>
              let '(e', modifiers, rest') := _combine_modifiers rest in
              (e', (appended ++ modifiers)%list, (key, value') :: rest')
          end
      | None =>
          let '(e', modifiers, rest') := _combine_modifiers rest in
          (e', modifiers, (key, value) :: rest')
      end
  end.

(** What [for x in value] goes through; [None] is the TypeError of a value
    that cannot be iterated. *)
Definition iterate (value : PyValue) : option (list PyValue) :=
  match value with
  | PList l => Some l
  | PDict d => Some (map (fun '(k, _) => PStr k) d)
  | PStr s => Some (map (fun c => PStr (String c EmptyString)) (list_ascii_of_string s))
  | PScalar _ => None
  end.

(** [del d[k]]; [None] is the KeyError. *)
Fixpoint dict_del {V : Type} (d : list (string * V)) (k : string)
  : option (list (string * V)) :=
  match d with
  | [] => None
  | (k', v) :: d' =>
      if String.eqb k' k then Some d'
      else option_map (cons (k', v)) (dict_del d' k)
  end.

(** Lines 59-60: [for key in remove_keys: del values[key]].  A scalar is
    not a key of [values], and a list or a dict cannot be hashed. *)
Fixpoint delete_keys (values : list (string * PyValue)) (keys : list PyValue)
  : option Exn * list (string * PyValue) :=
  match keys with
  | [] => (None, values)
  | PStr k :: keys' =>
      match dict_del values k with
      | Some values' => delete_keys values' keys'
      | None => (Some KeyError, values)
      end
  | PScalar _ :: _ => (Some KeyError, values)
  | (PList _ | PDict _) :: _ => (Some TypeError, values)
  end.

(** [RecipeStage.remap_modifiers]: the exception if any, and [values] after
    the call.  Line 57 unpacks the list of [_combine_modifiers] into two
    names. *)
Definition remap_modifiers (values : list (string * PyValue))
  : option Exn * list (string * PyValue) :=
  let '(e, combined, values1) := _combine_modifiers values in
  match e with
  | Some _ => (e, values1)
  | None =>
      match combined with
      | [add_modifiers; remove_keys] =>
          match iterate add_modifiers, iterate remove_keys with
          | Some modifiers, Some keys =>
              let '(e', values2) := delete_keys values1 keys in
              match e' with
              | Some _ => (e', values2)
              | None => (None, Py.dict_set values2 "modifiers" (PList modifiers))
              end
          | _, _ => (Some TypeError, values1)
          end
      | _ => (Some ValueError, values1)
      end
  end.

(** The field names of a modifier. *)
Definition fields (modifier : PyValue) : list string :=
  match modifier with
  | PDict d => map fst d
  | _ => []
  end.

(** A modifier that has gone through line 96: a dict with a ["group"]. *)
Definition tagged (m : PyValue) : Prop :=
  exists d, m = PDict d /\ In "group" (map fst d).

(** [modifier["group"] = group] on a dict. *)
Definition set_group (group : string) (modifier : PyValue) : PyValue :=
  match modifier with
  | PDict d => PDict (Py.dict_set d "group" (PStr group))
  | _ => modifier
  end.

(** The list under a modifier key, each element with the group of the key;
    [None] for another key and for a value that is not a list. *)
Definition grouped (key : string) (value : PyValue) : option (list PyValue) :=
  match group_of_key key, value with
  | Some group, PList l => Some (map (set_group group) l)
  | _, _ => None
  end.

End Stage.

(* ===================================================================== *)
(** * Python's [re.match] on a fragment of the pattern language          *)
(* ===================================================================== *)

(** [re] is a library of the interpreter, not of the repository.  The
    theorems about [match_targets] hold for any matcher; this module gives
    the meaning of [re.match] and [re.fullmatch] for patterns made of
    ordinary characters, [.], backslash-escaped metacharacters and a [*]
    after one of these, which is what concrete examples need.  A pattern
    outside the fragment has no compiled form here, and nothing is said of
    what [re.match] does with it: a statement about [re.match] is made for
    the patterns that compile, and for every matcher that [agrees] with the
    fragment on them. *)
Module PyRe.

Inductive Atom : Type :=
| Lit (c : ascii)     (* this character *)
| AnyChar.            (* [.]: any character but a newline *)

Inductive Item : Type :=
| One (a : Atom)
| Star (a : Atom).    (* [a*] *)

Inductive Token : Type :=
| TAtom (a : Atom)
| TStar.

Definition metachars : list ascii :=
  [ "."; "^"; "$"; "*"; "+"; "?"; "{"; "}"; "["; "]"; "\"; "|"; "("; ")" ]%char.

Definition is_meta (c : ascii) : bool := existsb (Ascii.eqb c) metachars.

Fixpoint tokens (p : list ascii) : option (list Token) :=
  match p with
  | [] => Some []
  | c :: p1 =>
      if Ascii.eqb c "\"%char then
        match p1 with
        | e :: p2 =>
            if is_meta e then option_map (cons (TAtom (Lit e))) (tokens p2)
            else None
        | [] => None
        end
      else if Ascii.eqb c "."%char then option_map (cons (TAtom AnyChar)) (tokens p1)
      else if Ascii.eqb c "*"%char then option_map (cons TStar) (tokens p1)
      else if is_meta c then None
      else option_map (cons (TAtom (Lit c))) (tokens p1)
  end.

Fixpoint items (ts : list Token) : option (list Item) :=
  match ts with
  | [] => Some []
  | TStar :: _ => None                       (* nothing to repeat *)
  | TAtom a :: ts1 =>
      match ts1 with
      | TStar :: ts2 => option_map (cons (Star a)) (items ts2)
      | _ => option_map (cons (One a)) (items ts1)
      end
  end.

Definition compile (pattern : string) : option (list Item) :=
  match tokens (list_ascii_of_string pattern) with
  | Some ts => items ts
  | None => None
  end.

Definition atom_matches (a : Atom) (c : ascii) : bool :=
  match a with
  | Lit d => Ascii.eqb c d
  | AnyChar => negb (Ascii.eqb c (ascii_of_nat 10))
  end.

(** [a*] followed by the rest of the pattern, the rest given as [k]. *)
Fixpoint match_star (a : Atom) (k : list ascii -> bool) (s : list ascii) : bool :=
  k s ||
  match s with
  | c :: s' => atom_matches a c && match_star a k s'
  | [] => false
  end.

(** Some prefix of [s] matches the compiled pattern, and what follows it
    satisfies [final]. *)
Fixpoint match_items (final : list ascii -> bool) (r : list Item)
  : list ascii -> bool :=
  match r with
  | [] => final
  | One a :: r' =>
      fun s => match s with
               | c :: s' => atom_matches a c && match_items final r' s'
               | [] => false
               end
  | Star a :: r' => match_star a (match_items final r')
  end.


(** [re.match(pattern, s) is not None] for a pattern of the fragment: the
    pattern matches at the start.  The answer [false] for a pattern that
    does not compile is a default of this matcher, not Python's answer. *)
Definition re_match (pattern s : string) : bool :=
  match compile pattern with
  | Some r => match_items (fun _ => true) r (list_ascii_of_string s)
  | None => false
  end.




End PyRe.

(* ===================================================================== *)
(** * Part 2: the KV-cache graph transform (add_kv_cache.py)              *)
(* ===================================================================== *)

Module KVCache.

Open Scope string_scope.

(** [onnx.NodeProto], with the fields the transform and the matcher read. *)
Record NodeProto : Type := {
  node_name : string;
  op_type : string;
  node_input : list string;
  node_output : list string
}.

(** [onnx.ValueInfoProto] as built by [make_tensor_value_info]. *)
Record ValueInfoProto : Type := {
  vi_name : string;
  elem_type : Z;
  vi_shape : list Z
}.

Record GraphProto : Type := {
  node : list NodeProto;
  input : list ValueInfoProto;
  output : list ValueInfoProto;
  initializer : list string
}.

Record ModelProto : Type := { graph : GraphProto }.

(** [onnx.TensorProto.INT64] *)
Definition INT64 : Z := 7%Z.

(** A matching rule: [op_type], [parent_ops], [children_ops]. *)
Record MatchingRule : Type := {
  rule_op_type : string;
  parent_ops : list (list string);
  children_ops : list (list string)
}.

(** [MatchResult].  A match refers to nodes of the graph it was found in;
    since the transform mutates those very nodes, a reference is the node's
    position in [model.graph.node]. *)
Record MatchResult : Type := {
  match_node : nat;
  parents : list (list nat);
  children : list (list nat)
}.

Definition GATHER_MATCHING_RULE_KEY : MatchingRule :=
  {| rule_op_type := "Gather";
     parent_ops := [["Shape"]];
     children_ops := [["Add"; "Cast"; "Range"]] |}.

Inductive Exn : Type :=
| AssertionError
| IndexError.

(** The outcome of a call: it returned, or it raised. *)
Inductive Outcome : Type :=
| Returned
| Raised (e : Exn).

Definition with_node (model : ModelProto) (nodes : list NodeProto) : ModelProto :=
  {| graph := {| node := nodes;
                 input := input (graph model);
                 output := output (graph model);
                 initializer := initializer (graph model) |} |}.

Definition with_input (model : ModelProto) (inputs : list ValueInfoProto)
  : ModelProto :=
  {| graph := {| node := node (graph model);
                 input := inputs;
                 output := output (graph model);
                 initializer := initializer (graph model) |} |}.

Definition set_node_input (n : NodeProto) (inputs : list string) : NodeProto :=
  {| node_name := node_name n; op_type := op_type n;
     node_input := inputs; node_output := node_output n |}.

(** [match.node.name.endswith('15')]; a reference always denotes a node of
    the graph, the [None] branch is for a matcher that would not respect
    that. *)
Definition name_ends_with_15 (model : ModelProto) (m : MatchResult) : bool :=
  match nth_error (node (graph model)) (match_node m) with
  | Some n => Py.endswith (node_name n) "15"
  | None => false
  end.

(** [add_node = match.children[0][0]; add_node.input[1] = new_input_to_add]
    on the model as it stands; [None] is an IndexError. *)
Definition rewire_add (new_input_to_add : string) (model : ModelProto)
           (m : MatchResult) : option ModelProto :=
  match children m with
  | (add_node :: _) :: _ =>
      match nth_error (node (graph model)) add_node with
      | Some n =>
          match Py.setitem (node_input n) 1 new_input_to_add with
          | Some inputs =>
              option_map (with_node model)
                (Py.setitem (node (graph model)) add_node (set_node_input n inputs))
          | None => None
          end
      | None => None
      end
  | _ => None
  end.

(** The [for match_idx, match in enumerate(gather_nodes)] loop.  The model is
    mutated in place, so an exception leaves it as rewritten so far. *)
Fixpoint rewire_all (new_input_to_add : string) (model : ModelProto)
         (gather_nodes : list MatchResult) : Outcome * ModelProto :=
  match gather_nodes with
  | [] => (Returned, model)
  | m :: rest =>
      match rewire_add new_input_to_add model m with
      | Some model' => rewire_all new_input_to_add model' rest
      | None => (Raised IndexError, model)
      end
  end.

Definition cache_length : ValueInfoProto :=
  {| vi_name := "cache_length"; elem_type := INT64; vi_shape := [] |}.

Section WithMatcher.

(** [get_structural_matches] of [sparseml.exporters.transforms.utils], whose
    source is not part of this development: the transform is modelled for
    any matcher. *)
Variable get_structural_matches : ModelProto -> MatchingRule -> list MatchResult.

(** Lines 43-44: the matches the transform works on. *)
Definition gather_nodes_of (model : ModelProto) : list MatchResult :=
  filter (name_ends_with_15 model)
         (get_structural_matches model GATHER_MATCHING_RULE_KEY).

(** [AddKeyValueCache.transform]: the outcome and the model object after the
    call. *)
Definition transform (model : ModelProto) : Outcome * ModelProto :=
  let gather_nodes := gather_nodes_of model in
  if negb (List.length gather_nodes =? 20)%nat then (Raised AssertionError, model)
  else
    let new_input_to_add := "cache_length" in
    let model1 :=
      with_input model (Py.insert (-1) cache_length (input (graph model))) in
    rewire_all new_input_to_add model1 gather_nodes.

End WithMatcher.

(** The node that [match.children[0][0]] refers to, if there is one. *)
Definition add_node_of (m : MatchResult) : option nat :=
  match children m with
  | (add_node :: _) :: _ => Some add_node
  | _ => None
  end.

(** The node at position [i] is the [add_node] of one of the matches. *)
Definition is_add_node (gather_nodes : list MatchResult) (i : nat) : bool :=
  existsb
    (fun m => match add_node_of m with
              | Some add_node => (add_node =? i)%nat
              | None => false
              end)
    gather_nodes.

(** [n] after [n.input[1] = s]; [None] when it has less than two inputs. *)
Definition with_second_input (s : string) (n : NodeProto) : option NodeProto :=
  option_map (set_node_input n) (Py.setitem (node_input n) 1 s).

(** What a node is apart from its inputs. *)
Definition signature (n : NodeProto) : string * string * list string :=
  (node_name n, op_type n, node_output n).

(** [m'] has the graph inputs, outputs and initializers of [m] and the same
    nodes up to their inputs. *)
Definition rewired (m m' : ModelProto) : Prop :=
  input (graph m') = input (graph m)
  /\ output (graph m') = output (graph m)
  /\ initializer (graph m') = initializer (graph m)
  /\ map signature (node (graph m')) = map signature (node (graph m)).

End KVCache.

(* ===================================================================== *)
(** * The graph query engine, from its specification                      *)
(* ===================================================================== *)

Module GraphQuery.

Import KVCache.

Definition op_type_at (nodes : list NodeProto) (i : nat) : option string :=
  option_map op_type (nth_error nodes i).

Definition mem_string (s : string) (l : list string) : bool :=
  existsb (String.eqb s) l.

(** Positions of the nodes that satisfy [p], in graph order. *)
Definition positions (p : NodeProto -> bool) (nodes : list NodeProto) : list nat :=
  map fst (filter (fun '(_, n) => p n) (combine (seq 0 (List.length nodes)) nodes)).

(** The producers of a node's inputs, in input order; an input that is a
    graph input or an initializer has no producer. *)
Definition node_parents (nodes : list NodeProto) (i : nat) : list nat :=
  match nth_error nodes i with
  | Some n =>
      flat_map
        (fun t => firstn 1 (positions (fun m => mem_string t (node_output m)) nodes))
        (node_input n)
  | None => []
  end.

(** The consumers of a node's outputs, in graph order. *)
Definition node_children (nodes : list NodeProto) (i : nat) : list nat :=
  match nth_error nodes i with
  | Some n =>
      positions
        (fun m => existsb (fun t => mem_string t (node_input m)) (node_output n))
        nodes
  | None => []
  end.

(** Walks one chain of operator types outward from [start], which has to be
    of the chain's first type; every further position needs exactly one
    neighbour, of the next type. *)
Fixpoint walk_chain (nodes : list NodeProto) (neighbours : nat -> list nat)
         (types : list string) (start : nat) : option (list nat) :=
  match types with
  | [] => Some []
  | t :: rest =>
      match op_type_at nodes start with
      | Some t' =>
          if String.eqb t t' then
            match rest with
            | [] => Some [start]
            | _ :: _ =>
                match neighbours start with
                | [next] =>
                    option_map (cons start) (walk_chain nodes neighbours rest next)
                | _ => None
                end
            end
          else None
      | None => None
      end
  end.

(** One chain per neighbour of the centre, in order; as many neighbours as
    chains. *)
Fixpoint walk_chains (nodes : list NodeProto) (neighbours : nat -> list nat)
         (chains : list (list string)) (starts : list nat)
  : option (list (list nat)) :=
  match chains, starts with
  | [], [] => Some []
  | c :: chains', s :: starts' =>
      match walk_chain nodes neighbours c s,
            walk_chains nodes neighbours chains' starts' with
      | Some w, Some ws => Some (w :: ws)
      | _, _ => None
      end
  | _, _ => None
  end.

Definition match_at (nodes : list NodeProto) (rule : MatchingRule) (i : nat)
  : option MatchResult :=
  match op_type_at nodes i with
  | Some t =>
      if String.eqb t (rule_op_type rule) then
        match walk_chains nodes (node_parents nodes) (parent_ops rule)
                          (node_parents nodes i),
              walk_chains nodes (node_children nodes) (children_ops rule)
                          (node_children nodes i) with
        | Some ps, Some cs =>
            Some {| match_node := i; parents := ps; children := cs |}
        | _, _ => None
        end
      else None
  | None => None
  end.

(** Modelled from the spec: [get_structural_matches] of
    [sparseml.exporters.transforms.utils] is not among the sources.  Section
    4.1: for every operation whose type equals [op_type], each requested
    parent chain is walked backward through producer edges and each child
    chain forward through consumer edges; a candidate fails when a chain
    position has no neighbour, more than the expected ones, or one of another
    type; matches come in the graph's node order, and no node of the
    requested type gives the empty list. *)
Definition get_structural_matches (model : ModelProto) (rule : MatchingRule)
  : list MatchResult :=
  let nodes := node (graph model) in
  flat_map
    (fun i => match match_at nodes rule i with Some m => [m] | None => [] end)
    (seq 0 (List.length nodes)).

End GraphQuery.

(** A decoder graph with [n] position-index blocks, used as a concrete input:
    block [i] is Shape -> Gather -> Add -> Cast -> Range, the Gather named
    ["/h.i/Gather_15"] and its output the first input of the Add. *)
Module Decoder.

Import KVCache.
Open Scope string_scope.

Definition digits (i : nat) : string := NilEmpty.string_of_uint (Nat.to_uint i).

Definition tensor (kind : string) (i : nat) : string := kind ++ "." ++ digits i.

Definition block (gather_first : bool) (i : nat) : list NodeProto :=
  [ {| node_name := "/h." ++ digits i ++ "/Shape_2"; op_type := "Shape";
       node_input := ["input_ids"]; node_output := [tensor "shape" i] |};
    {| node_name := "/h." ++ digits i ++ "/Gather_15"; op_type := "Gather";
       node_input := [tensor "shape" i; "axis_index"];
       node_output := [tensor "seq_len" i] |};
    {| node_name := "/h." ++ digits i ++ "/Add_7"; op_type := "Add";
       node_input := if gather_first then [tensor "seq_len" i; "offset"]
                     else ["offset"; tensor "seq_len" i];
       node_output := [tensor "end" i] |};
    {| node_name := "/h." ++ digits i ++ "/Cast_3"; op_type := "Cast";
       node_input := [tensor "end" i]; node_output := [tensor "limit" i] |};
    {| node_name := "/h." ++ digits i ++ "/Range_1"; op_type := "Range";
       node_input := ["zero"; tensor "limit" i; "one"];
       node_output := [tensor "positions" i] |} ].

Definition value_info (name : string) (shape : list Z) : ValueInfoProto :=
  {| vi_name := name; elem_type := INT64; vi_shape := shape |}.

Definition decoder (gather_first : bool) (n : nat) : ModelProto :=
  {| graph :=
       {| node := flat_map (block gather_first) (seq 0 n);
          input := [value_info "input_ids" [1; 1]%Z;
                    value_info "attention_mask" [1; 1]%Z];
          output := [value_info "logits" [1; 1; 8]%Z];
          initializer := ["axis_index"; "offset"; "zero"; "one"] |} |}.

(** The decoder of 20 blocks after one run of the transform. *)
Definition transformed : ModelProto :=
  snd (transform GraphQuery.get_structural_matches (decoder true 20)).

(** The nodes [b] with the Gather among them called [name]. *)
Definition with_gather_name (name : string) (b : list NodeProto)
  : list NodeProto :=
  map (fun n =>
         if String.eqb (op_type n) "Gather"
         then {| node_name := name; op_type := op_type n;
                 node_input := node_input n; node_output := node_output n |}
         else n)
      b.

(** A decoder of 21 blocks: the 20 blocks of [decoder true 20], then a block
    of the same shape whose Gather is called ["/h.20/Gather_3"]. *)
Definition decoder_21 : ModelProto :=
  with_node (decoder true 20)
    (flat_map (block true) (seq 0 20)
     ++ with_gather_name "/h.20/Gather_3" (block true 20))%list.

End Decoder.

(* ===================================================================== *)
(** * Part 3: the SparseGPT module wrapper (sgpt_wrapper.py)              *)
(* ===================================================================== *)

(** Python's [float] (binary64) and the three operations the wrapper does on
    it outside of tensors: [int * float], [int(float)] and [math.sqrt]. *)
Module PyFloat.

Definition t : Type := spec_float.

Definition of_int (z : Z) : t := binary_normalize 53 1024 z 0 false.

Definition mul (x y : t) : t := SFmul 53 1024 x y.

(** [int(x)]: truncation toward zero; [None] for the OverflowError of an
    infinity and the ValueError of a NaN. *)
Definition to_int (x : t) : option Z :=
  match x with
  | S754_zero _ => Some 0%Z
  | S754_finite s m e =>
      let a := match e with
               | Zneg p => Z.shiftr (Zpos m) (Zpos p)
               | _ => Z.shiftl (Zpos m) e
               end in
      Some (if s then (- a)%Z else a)
  | S754_infinity _ | S754_nan => None
  end.

(** [math.sqrt(x)]: [None] for the ValueError of a negative argument. *)
Definition sqrt (x : t) : option t :=
  match x with
  | S754_finite true _ _ | S754_infinity true => None
  | _ => Some (SFsqrt 53 1024 x)
  end.

End PyFloat.

Module SGPT.

(** A 2-D tensor as the list of its rows. *)
Definition Matrix (R : Type) : Type := list (list R).

Inductive DType : Type := float16 | bfloat16 | float32 | float64.

Inductive QScheme : Type :=
| per_tensor_affine | per_tensor_symmetric
| per_channel_affine | per_channel_symmetric.

Inductive LayerKind : Type := Linear | Conv2d | Conv1D | OtherLayer.

Inductive Exn : Type :=
| IndexError         (* an index out of range *)
| RuntimeError       (* raised by a tensor operation *)
| ValueError         (* math.sqrt of a negative, int(nan), range() step 0 *)
| OverflowError      (* int(inf) *)
| ZeroDivisionError  (* i % 0 *)
| LinAlgError.       (* a Cholesky factorisation failed *)

(** The tensor arithmetic of the backend.  Rounding, the order in which a
    reduction adds its terms and the factorisation routines belong to
    PyTorch; they are left uninterpreted, so that what is proved holds for
    each of their implementations.  [R] holds the values of a floating-point
    tensor. *)
Class Backend (R : Type) : Type := {
  rzero : R;
  rone : R;
  radd : R -> R -> R;
  rsub : R -> R -> R;
  rmul : R -> R -> R;
  rdiv : R -> R -> R;
  rleb : R -> R -> bool;                       (* [<=] *)
  reqb : R -> R -> bool;                       (* [==] *)
  of_int : Z -> R;                             (* an integer operand *)
  of_pyfloat : PyFloat.t -> R;                 (* a Python float operand *)
  to_pyfloat : R -> PyFloat.t;                 (* [float(tensor)] *)
  to_dtype : DType -> R -> R;                  (* [.to(dtype)], [.float()] *)
  rmean : list R -> R;                         (* [torch.mean] *)
  rsum : list R -> R;                          (* [torch.sum] *)
  rdot : list R -> list R -> R;                (* an entry of [matmul] *)
  (* [torch.linalg.cholesky(A, upper=...)] on an n x n matrix *)
  linalg_cholesky : bool -> nat -> Matrix R -> option (Matrix R);
  (* [torch.cholesky_inverse(L)] *)
  cholesky_inverse : nat -> Matrix R -> Matrix R
}.

Section Model.

Context {R : Type} {B : Backend R}.

(** ** Tensors *)

(** A tensor in row-major order. *)
Record Tensor : Type := { shape : list nat; data : list R }.

Definition numel (sh : list nat) : nat := fold_right Nat.mul 1 sh.

Definition get (M : Matrix R) (r c : nat) : R := nth c (nth r M []) rzero.

Definition getb (M : list (list bool)) (r c : nat) : bool :=
  nth c (nth r M []) false.

(** The [n] x [m] tensor whose entry [(r, c)] is [f r c]. *)
Definition tabulate {A : Type} (n m : nat) (f : nat -> nat -> A) : list (list A) :=
  map (fun r => map (f r) (seq 0 m)) (seq 0 n).

Definition diag (n : nat) (M : Matrix R) : list R :=
  map (fun i => get M i i) (seq 0 n).

Definition row (M : Matrix R) (r : nat) : list R := nth r M [].

Definition col (n : nat) (M : Matrix R) (c : nat) : list R :=
  map (fun r => get M r c) (seq 0 n).

Definition sq (x : R) : R := rmul x x.      (* [x ** 2] *)

(** The 2-D view of row-major data. *)
Definition view2 (n m : nat) (d : list R) : Matrix R :=
  tabulate n m (fun r c => nth (r * m + c) d rzero).

(** [M.t()] of an [n] x [m] matrix. *)
Definition transpose (n m : nat) (M : Matrix R) : Matrix R :=
  tabulate m n (fun r c => get M c r).

(** [A.matmul(B)] for [A] of [n] rows and [B] of [k] rows and [m] columns. *)
Definition matmul (n k m : nat) (A B : Matrix R) : Matrix R :=
  tabulate n m (fun r c => rdot (row A r) (col k B c)).

(** ** The wrapped layer and the wrapper *)

(** [layer.weight_fake_quant]: the scheme, and the round trip
    [dequantize(quantize_per_tensor(q, scale, zero_point, dtype))], resp.
    [..._per_channel(q, scale, zero_point, 0, dtype)], with the observer's
    own parameters. *)
Record FakeQuantize : Type := {
  qscheme : QScheme;
  quantize_per_tensor : list R -> list R;
  quantize_per_channel : list R -> list R
}.

Record Layer : Type := {
  kind : LayerKind;
  weight : Tensor;
  dtype : DType;
  weight_fake_quant : option FakeQuantize
}.

(** The wrapper's attributes; [H] and [nsamples] are its two buffers,
    [nsamples] an int32. *)
Record Wrapper : Type := {
  layer : Layer;
  rows : nat;
  columns : nat;
  H : Matrix R;
  nsamples : Z
}.

Definition int32 (z : Z) : Z := ((z + 2147483648) mod 4294967296 - 2147483648)%Z.

Definition INT32_MAX : Z := 2147483647%Z.

Definition is_linear_or_conv1d (k : LayerKind) : bool :=
  match k with Linear | Conv1D => true | _ => false end.

(** The shape of [W] after lines 56-60: [flatten(1)] for a [Conv2d], [t()]
    for a [Conv1D].  The wrapper works on a 2-D [W]; [None] stands for a
    weight that does not give one. *)
Definition matrix_shape (l : Layer) : option (nat * nat) :=
  match kind l, shape (weight l) with
  | Conv2d, o :: i :: rest => Some (o, numel (i :: rest))
  | Conv2d, _ => None
  | Conv1D, [a; b] => Some (b, a)
  | _, [a; b] => Some (a, b)
  | _, _ => None
  end.

(** [W] itself, as lines 110-114 build it from the stored weight. *)
Definition weight_matrix (l : Layer) : Matrix R :=
  match matrix_shape l with
  | Some (n, m) =>
      match kind l with
      | Conv1D => transpose m n (view2 m n (data (weight l)))
      | _ => view2 n m (data (weight l))
      end
  | None => []
  end.

(** [SGPTModuleWrapper.__init__] *)
Definition init (l : Layer) : option Wrapper :=
  match matrix_shape l with
  | Some (n, m) =>
      Some {| layer := l; rows := n; columns := m;
              H := tabulate m m (fun _ _ => rzero);
              nsamples := 0 |}
  | None => None
  end.

Definition with_buffers (w : Wrapper) (h : Matrix R) (n : Z) : Wrapper :=
  {| layer := layer w; rows := rows w; columns := columns w;
     H := h; nsamples := n |}.

(** ** add_batch *)

(** What [inp] is when line 86 is reached. *)
Inductive Prepared : Type :=
| Samples (features samples : nat) (x : Matrix R)   (* 2-D, features first *)
| Vector (v : list R)                               (* 1-D *)
| HighRank.                                         (* 3-D or more *)

(** Lines 77-85.  The result is [tmp] and the prepared input; [inl] is an
    exception raised before any buffer is touched. *)
Definition prepare (k : LayerKind) (inp : Tensor) : Exn + (nat * Prepared) :=
  let sh := match shape inp with
            | [a; b] => [1; a; b]                     (* inp.unsqueeze(0) *)
            | s => s
            end in
  match sh with
  | [] => inl IndexError                              (* inp.shape[0] *)
  | tmp :: _ =>
      if is_linear_or_conv1d k then
        match sh with
        | [b; s; f] =>
            (* inp.reshape((-1, inp.shape[-1])), then inp.t() *)
            if (f =? 0)%nat then inl RuntimeError
            else inr (tmp, Samples f (b * s)
                             (transpose (b * s) f (view2 (b * s) f (data inp))))
        | [n] => inr (tmp, Vector (data inp))         (* t() of a 1-D tensor *)
        | _ => inl RuntimeError                       (* t() of 4-D and more *)
        end
      else
        match sh with
        | [n] => inr (tmp, Vector (data inp))
        | _ => inr (tmp, HighRank)
        end
  end.

(** [math.sqrt(2 / self.nsamples)], computed on Python floats from the
    tensor quotient. *)
Definition sqrt_two_over (n : Z) : option PyFloat.t :=
  PyFloat.sqrt (to_pyfloat (rdiv (of_int 2) (of_int n))).

(** [H' = H + P], with [P] broadcast to the shape of [H]. *)
Definition add_broadcast (m : nat) (h : Matrix R) (features : nat) (p : Matrix R)
  : option (Matrix R) :=
  if (features =? m)%nat then
    Some (tabulate m m (fun i j => radd (get h i j) (get p i j)))
  else if (features =? 1)%nat then
    Some (tabulate m m (fun i j => radd (get h i j) (get p 0 0)))
  else None.

(** [SGPTModuleWrapper.add_batch]: what the call raised, if anything, and the
    wrapper after it.  [out] is not read by the method. *)
Definition add_batch (w : Wrapper) (inp : Tensor) : option Exn * Wrapper :=
  match prepare (kind (layer w)) inp with
  | inl e => (Some e, w)
  | inr (tmp, x) =>
      let n := nsamples w in
      let m := columns w in
      (* self.H *= self.nsamples / (self.nsamples + tmp); the sum is an int32
         and wraps around *)
      let factor := rdiv (of_int n) (of_int (int32 (n + Z.of_nat tmp))) in
      let h1 := tabulate m m (fun i j => rmul (get (H w) i j) factor) in
      (* self.nsamples += tmp *)
      let n' := int32 (n + Z.of_nat tmp) in
      (* inp = math.sqrt(2 / self.nsamples) * inp.float() *)
      match sqrt_two_over n' with
      | None => (Some ValueError, with_buffers w h1 n')
      | Some s =>
          let scale := fun v => rmul (of_pyfloat s) (to_dtype float32 v) in
          (* self.H += inp.matmul(inp.t()) *)
          match x with
          | Samples f k xs =>
              let y := tabulate f k (fun i j => scale (get xs i j)) in
              match add_broadcast m h1 f (matmul f k f y (transpose f k y)) with
              | Some h2 => (None, with_buffers w h2 n')
              | None => (Some RuntimeError, with_buffers w h1 n')
              end
          | Vector v =>
              let y := map scale v in
              let p := rdot y y in
              (None,
               with_buffers w
                 (tabulate m m (fun i j => radd (get h1 i j) p)) n')
          | HighRank => (Some RuntimeError, with_buffers w h1 n')
          end
      end
  end.

(** ** fasterprune *)

(** An exception or a value. *)
Definition Res (A : Type) : Type := (Exn + A)%type.

(** [torch.sort] (ascending) and [torch.topk(..., largest=False)].  PyTorch
    leaves open which of several equal values comes first; the model puts the
    one of lower index first. *)
Fixpoint insert_sorted (x : R) (l : list R) : list R :=
  match l with
  | [] => [x]
  | y :: l' => if rleb x y then x :: l else y :: insert_sorted x l'
  end.

Definition sort (l : list R) : list R := fold_right insert_sorted [] l.

Fixpoint insert_index (key : nat -> R) (x : nat) (l : list nat) : list nat :=
  match l with
  | [] => [x]
  | y :: l' => if rleb (key x) (key y) then x :: l else y :: insert_index key x l'
  end.

Definition argsort (scores : list R) : list nat :=
  fold_right (insert_index (fun i => nth i scores rzero)) []
             (seq 0 (List.length scores)).

(** The indices of the [k] smallest scores. *)
Definition topk_smallest (k : nat) (scores : list R) : list nat :=
  firstn k (argsort scores).

(** [t[k]] for a 1-D tensor and a Python int; [None] is IndexError. *)
Definition py_index (l : list R) (k : Z) : option R :=
  let n := Z.of_nat (List.length l) in
  if ((0 <=? k) && (k <? n))%Z then nth_error l (Z.to_nat k)
  else if ((- n <=? k) && (k <? 0))%Z then nth_error l (Z.to_nat (n + k))
  else None.

(** [int(tmp.numel() * sparsity)] *)
Definition threshold_index (numel : nat) (sparsity : PyFloat.t) : Res Z :=
  let x := PyFloat.mul (PyFloat.of_int (Z.of_nat numel)) sparsity in
  match PyFloat.to_int x with
  | Some k => inr k
  | None => inl (match x with S754_nan => ValueError | _ => OverflowError end)
  end.

(** [torch.sort(tmp.flatten())[0][int(tmp.numel() * sparsity)]] *)
Definition threshold (tmp : Matrix R) (numel : nat) (sparsity : PyFloat.t) : Res R :=
  match threshold_index numel sparsity with
  | inl e => inl e
  | inr k =>
      match py_index (sort (List.concat tmp)) k with
      | Some thresh => inr thresh
      | None => inl IndexError
      end
  end.

(** The tensors of one block (lines 140-143 and the mask).  [Losses1] and
    [Losses] only feed the log line at the end of the method and are left
    out. *)
Record BlockState : Type := {
  W1 : Matrix R;
  Q1 : Matrix R;
  Err1 : Matrix R;
  mask1 : list (list bool)
}.

(** Lines 172-181. *)
Definition fake_quantize (fq : option FakeQuantize) (q : list R) : list R :=
  match fq with
  | None => q
  | Some f =>
      match qscheme f with
      | per_tensor_affine | per_tensor_symmetric => quantize_per_tensor f q
      | _ => quantize_per_channel f q
      end
  end.

Section Block.

Variables (nrows count : nat) (Hinv1 : Matrix R).
Variables (prunen prunem : nat) (fq : option FakeQuantize).

(** Lines 161-164, for row [r]: the scores of the group that starts at
    column [i]; the slices stop at the end of the block. *)
Definition group_scores (w1 : Matrix R) (i r : nat) : list R :=
  map (fun t => rdiv (sq (get w1 r (i + t))) (sq (get Hinv1 (i + t) (i + t))))
      (seq 0 (Nat.min prunem (count - i))).

(** Lines 165-167: [mask1.scatter_(1, i + topk(...)[1], True)]. *)
Definition select_group (w1 : Matrix R) (mask : list (list bool)) (i : nat)
  : Res (list (list bool)) :=
  if (Nat.min prunem (count - i) <? prunen)%nat then inl RuntimeError
  else
    inr (tabulate nrows count
           (fun r j =>
              getb mask r j
              || existsb (Nat.eqb j)
                   (map (Nat.add i) (topk_smallest prunen (group_scores w1 i r))))).

(** One pass of the loop over the columns of a block (lines 157-188). *)
Definition col_step (st : BlockState) (i : nat) : Res BlockState :=
  let d := get Hinv1 i i in
  let mask_res :=
    if negb (prunen =? 0)%nat then
      if (prunem =? 0)%nat then inl ZeroDivisionError
      else if (i mod prunem =? 0)%nat then select_group (W1 st) (mask1 st) i
      else inr (mask1 st)
    else inr (mask1 st) in
  match mask_res with
  | inl e => inl e
  | inr mask =>
      let w := col nrows (W1 st) i in
      let q :=
        fake_quantize fq
          (map (fun r => if getb mask r i then rzero else nth r w rzero)
               (seq 0 nrows)) in
      let err1 :=
        map (fun r => rdiv (rsub (nth r w rzero) (nth r q rzero)) d)
            (seq 0 nrows) in
      inr {| W1 := tabulate nrows count
                     (fun r j =>
                        if (i <=? j)%nat
                        then rsub (get (W1 st) r j)
                                  (rmul (nth r err1 rzero) (get Hinv1 i j))
                        else get (W1 st) r j);
             Q1 := tabulate nrows count
                     (fun r j => if (j =? i)%nat then nth r q rzero
                                 else get (Q1 st) r j);
             Err1 := tabulate nrows count
                       (fun r j => if (j =? i)%nat then nth r err1 rzero
                                   else get (Err1 st) r j);
             mask1 := mask |}
  end.

Fixpoint col_loop (cols : list nat) (st : BlockState) : Res BlockState :=
  match cols with
  | [] => inr st
  | i :: rest =>
      match col_step st i with
      | inl e => inl e
      | inr st' => col_loop rest st'
      end
  end.

End Block.

Section Blocks.

Variables (nrows ncols blocksize : nat) (sparsity : PyFloat.t).
Variables (prunen prunem : nat) (fq : option FakeQuantize) (Hinv : Matrix R).

(** [tmp] of line 150 for the block of columns [i1, i1 + count). *)
Definition block_scores (W : Matrix R) (i1 count : nat) : Matrix R :=
  tabulate nrows count
    (fun r j => rdiv (sq (get W r (i1 + j))) (sq (get Hinv (i1 + j) (i1 + j)))).

(** Lines 146-154.  [mask] stays [None] in the method, so an unstructured
    block always takes its mask from its own threshold. *)
Definition initial_mask (W : Matrix R) (i1 count : nat) : Res (list (list bool)) :=
  if (prunen =? 0)%nat then
    let tmp := block_scores W i1 count in
    match threshold tmp (nrows * count) sparsity with
    | inl e => inl e
    | inr thresh => inr (tabulate nrows count (fun r j => rleb (get tmp r j) thresh))
    end
  else inr (tabulate nrows count (fun _ _ => false)).

(** One pass of the loop over the blocks (lines 137-193). *)
Definition prune_block (W : Matrix R) (i1 : nat) : Res (Matrix R) :=
  let i2 := Nat.min (i1 + blocksize) ncols in
  let count := i2 - i1 in
  let zeros := tabulate nrows count (fun _ _ => rzero) in
  let Hinv1 := tabulate count count (fun a b => get Hinv (i1 + a) (i1 + b)) in
  match initial_mask W i1 count with
  | inl e => inl e
  | inr mask =>
      match col_loop nrows count Hinv1 prunen prunem fq (seq 0 count)
              {| W1 := tabulate nrows count (fun r j => get W r (i1 + j));
                 Q1 := zeros; Err1 := zeros; mask1 := mask |} with
      | inl e => inl e
      | inr st =>
          inr (tabulate nrows ncols
                 (fun r j =>
                    if (j <? i1)%nat then get W r j
                    else if (j <? i2)%nat then get (Q1 st) r (j - i1)
                    else rsub (get W r j)
                              (rdot (row (Err1 st) r)
                                    (map (fun a => get Hinv (i1 + a) j)
                                         (seq 0 count)))))
      end
  end.

Fixpoint blocks_loop (starts : list nat) (W : Matrix R) : Res (Matrix R) :=
  match starts with
  | [] => inr W
  | i1 :: rest =>
      match prune_block W i1 with
      | inl e => inl e
      | inr W' => blocks_loop rest W'
      end
  end.

End Blocks.

(** [range(0, ncols, blocksize)] for a positive step. *)
Definition block_starts (ncols blocksize : nat) : list nat :=
  map (fun k => k * blocksize) (seq 0 ((ncols + blocksize - 1) / blocksize)).

(** Lines 119-121: [dead], [H[dead, dead] = 1] and [W[:, dead] = 0]. *)
Definition dead (h : Matrix R) (j : nat) : bool := reqb (get h j j) rzero.

Definition neutralize_H (m : nat) (h : Matrix R) : Matrix R :=
  tabulate m m (fun i j => if (i =? j)%nat && dead h i then rone else get h i j).

Definition neutralize_W (n m : nat) (h W : Matrix R) : Matrix R :=
  tabulate n m (fun r j => if dead h j then rzero else get W r j).

(** Lines 125-127: [H[diag, diag] += percdamp * mean(diag(H))]. *)
Definition damp_of (m : nat) (percdamp : PyFloat.t) (h : Matrix R) : R :=
  rmul (of_pyfloat percdamp) (rmean (diag m h)).

Definition dampen (m : nat) (percdamp : PyFloat.t) (h : Matrix R) : Matrix R :=
  let damp := damp_of m percdamp h in
  tabulate m m (fun i j => if (i =? j)%nat then radd (get h i j) damp else get h i j).

(** [self.H] and [W] when line 128 is reached. *)
Definition before_factorization (w : Wrapper) (percdamp : PyFloat.t)
  : Matrix R * Matrix R :=
  let W := map (map (to_dtype float32)) (weight_matrix (layer w)) in
  (dampen (columns w) percdamp (neutralize_H (columns w) (H w)),
   neutralize_W (rows w) (columns w) (H w) W).

(** Lines 200-204: the new [layer.weight.data]. *)
Definition store_weight (l : Layer) (n m : nat) (W : Matrix R) : Layer :=
  let W' := match kind l with Conv1D => transpose n m W | _ => W end in
  {| kind := kind l;
     weight := {| shape := shape (weight l);
                  data := map (to_dtype (dtype l)) (List.concat W') |};
     dtype := dtype l;
     weight_fake_quant := weight_fake_quant l |}.

Definition with_H (w : Wrapper) (h : Matrix R) : Wrapper :=
  with_buffers w h (nsamples w).

(** The loop over the blocks, as [fasterprune] runs it on [W] and [Hinv]. *)
Definition prune_columns (w : Wrapper) (sparsity : PyFloat.t)
           (prunen prunem blocksize : nat) (Hinv W : Matrix R) : Res (Matrix R) :=
  blocks_loop (rows w) (columns w) blocksize sparsity prunen prunem
              (weight_fake_quant (layer w)) Hinv
              (block_starts (columns w) blocksize) W.

(** [SGPTModuleWrapper.fasterprune]: what the call raised, if anything, and
    the wrapper after it.  [W] is a clone, so the layer keeps its weight when
    the call raises; [self.H] is updated and rebound along the way. *)
Definition fasterprune (w : Wrapper) (sparsity : PyFloat.t)
           (prunen prunem blocksize : nat) (percdamp : PyFloat.t)
  : option Exn * Wrapper :=
  let '(h, W) := before_factorization w percdamp in
  match linalg_cholesky false (columns w) h with
  | None => (Some LinAlgError, with_H w h)
  | Some L =>
      let hi := cholesky_inverse (columns w) L in
      match linalg_cholesky true (columns w) hi with
      | None => (Some LinAlgError, with_H w hi)
      | Some Hinv =>
          if (blocksize =? 0)%nat then (Some ValueError, with_H w Hinv)
          else
            match prune_columns w sparsity prunen prunem blocksize Hinv W with
            | inl e => (Some e, with_H w Hinv)
            | inr W' =>
                (None,
                 {| layer := store_weight (layer w) (rows w) (columns w) W';
                    rows := rows w; columns := columns w;
                    H := Hinv; nsamples := nsamples w |})
            end
      end
  end.

(** ** Quantities the properties are stated with *)

(** The number of entries that are exactly zero ([x == 0]). *)
Definition count_zeros (l : list R) : nat :=
  List.length (filter (fun x => reqb x rzero) l).

(** The entries of row [r] in the columns [start, start + len). *)
Definition segment (M : Matrix R) (r start len : nat) : list R :=
  map (fun t => get M r (start + t)) (seq 0 len).


(** [<=] orders the values of [l]: any two of them compare one way or the
    other, and the comparison is transitive on them.  IEEE values have this
    property when none is a NaN. *)
Definition comparable (l : list R) : bool :=
  forallb (fun x => forallb (fun y => rleb x y || rleb y x) l) l
  && forallb
       (fun x =>
          forallb
            (fun y => forallb (fun z => implb (rleb x y && rleb y z) (rleb x z)) l)
            l)
       l.


(** [Hinv] of line 131; [None] when one of the factorisations fails. *)
Definition factorize (w : Wrapper) (percdamp : PyFloat.t) : option (Matrix R) :=
  match linalg_cholesky false (columns w) (fst (before_factorization w percdamp)) with
  | Some L => linalg_cholesky true (columns w) (cholesky_inverse (columns w) L)
  | None => None
  end.

(** [W] after the first [p] passes of the loop over the blocks. *)
Definition weights_after (w : Wrapper) (sparsity : PyFloat.t)
           (prunen prunem blocksize : nat) (percdamp : PyFloat.t)
           (Hinv : Matrix R) (p : nat) : Res (Matrix R) :=
  blocks_loop (rows w) (columns w) blocksize sparsity prunen prunem
              (weight_fake_quant (layer w)) Hinv
              (firstn p (block_starts (columns w) blocksize))
              (snd (before_factorization w percdamp)).

(** The tensors of the block that starts at column [i1] when the loop over
    its columns is done (line 188): what [prune_block] writes back is read
    off them. *)
Definition block_pass (nrows ncols blocksize : nat) (sparsity : PyFloat.t)
           (prunen prunem : nat) (fq : option FakeQuantize) (Hinv W : Matrix R)
           (i1 : nat) : Res BlockState :=
  let i2 := Nat.min (i1 + blocksize) ncols in
  let count := i2 - i1 in
  let zeros := tabulate nrows count (fun _ _ => rzero) in
  let Hinv1 := tabulate count count (fun a b => get Hinv (i1 + a) (i1 + b)) in
  match initial_mask nrows sparsity prunen Hinv W i1 count with
  | inl e => inl e
  | inr mask =>
      col_loop nrows count Hinv1 prunen prunem fq (seq 0 count)
        {| W1 := tabulate nrows count (fun r j => get W r (i1 + j));
           Q1 := zeros; Err1 := zeros; mask1 := mask |}
  end.

(** The number of entries of row [r] of the mask that are set in the columns
    [start, start + len). *)
Definition count_masked (mask : list (list bool)) (r start len : nat) : nat :=
  List.length (filter (fun t => getb mask r (start + t)) (seq 0 len)).

(** ** Invariants of the loops *)

(** [l] is in ascending order: every entry is [<=] all the later ones. *)
Fixpoint ascending (l : list R) : Prop :=
  match l with
  | [] => True
  | x :: l' => Forall (fun y => rleb x y = true) l' /\ ascending l'
  end.

(** In a block of [nrows] x [count] weights, the masked entries of the
    columns before [lo] are zero in [Q1]. *)
Definition zeroed (nrows count lo : nat) (st : BlockState) : Prop :=
  forall r c, r < nrows -> c < count -> c < lo ->
    getb (mask1 st) r c = true -> get (Q1 st) r c = rzero.

(** In a block of [nrows] x [count] weights, every marked entry lies in a
    group of [prunem] columns whose first column is before [i]. *)
Definition marked_behind (nrows count prunem i : nat) (st : BlockState) : Prop :=
  forall r c, r < nrows -> c < count -> getb (mask1 st) r c = true ->
    exists g, g mod prunem = 0 /\ g < i /\ g <= c < g + prunem.

(** [M] has [n] rows of [m] entries. *)
Definition rect (n m : nat) (M : Matrix R) : Prop :=
  List.length M = n /\ Forall (fun r => List.length r = m) M.

(** [i2] of line 137 and [Hinv1] of line 144, for the block that starts at
    column [i1]. *)
Definition block_end (ncols blocksize i1 : nat) : nat :=
  Nat.min (i1 + blocksize) ncols.

Definition block_Hinv (ncols blocksize : nat) (Hinv : Matrix R) (i1 : nat)
  : Matrix R :=
  tabulate (block_end ncols blocksize i1 - i1) (block_end ncols blocksize i1 - i1)
           (fun a b => get Hinv (i1 + a) (i1 + b)).

(** ** The life cycle *)

(** [tmp] of line 79: the first dimension of [inp], after the [unsqueeze]
    of a 2-D input. *)
Definition leading_dimension (inp : Tensor) : nat :=
  match shape inp with
  | [_; _] => 1
  | b :: _ => b
  | [] => 0
  end.

(** A 2-D or 3-D input whose last dimension is not empty. *)
Definition sample_shaped (inp : Tensor) : bool :=
  match shape inp with
  | [_; f] | [_; _; f] => (0 <? f)%nat
  | _ => false
  end.

(** The wrapper after [add_batch] has been called on each of [batches] in
    turn, whatever the outcome of each call. *)
Definition add_batches (w : Wrapper) (batches : list Tensor) : Wrapper :=
  fold_left (fun w inp => snd (add_batch w inp)) batches w.

(** [rows] and [columns] are those of the layer's weight. *)
Definition consistent (w : Wrapper) : Prop :=
  matrix_shape (layer w) = Some (rows w, columns w).

End Model.

End SGPT.

(* ===================================================================== *)
(** * A float32 backend for concrete runs                                 *)
(* ===================================================================== *)

(** IEEE 754 binary32 arithmetic (round to nearest even) on [spec_float],
    reductions that add from left to right, and the textbook Cholesky
    routines.  It is one implementation of [SGPT.Backend]; the concrete runs
    below use inputs on which every operation is exact. *)
Module F32.

Definition t : Type := spec_float.

Definition prec : Z := 24%Z.
Definition emax : Z := 128%Z.

Definition add : t -> t -> t := SFadd prec emax.
Definition sub : t -> t -> t := SFsub prec emax.
Definition mul : t -> t -> t := SFmul prec emax.
Definition div : t -> t -> t := SFdiv prec emax.
Definition sqrt : t -> t := SFsqrt prec emax.
Definition leb : t -> t -> bool := SFleb.
Definition eqb : t -> t -> bool := SFeqb.
Definition ltb : t -> t -> bool := SFltb.

Definition zero : t := S754_zero false.

Definition of_Z (z : Z) : t := binary_normalize prec emax z 0 false.

Definition one : t := of_Z 1.

(** Rounding of a float of any format to the format [(p, e)]. *)
Definition round_to (p e : Z) (x : spec_float) : spec_float :=
  match x with
  | S754_finite s m ex =>
      binary_normalize p e (if s then Zneg m else Zpos m) ex s
  | _ => x
  end.

Definition of_pyfloat (x : PyFloat.t) : t := round_to prec emax x.

Definition to_pyfloat (x : t) : PyFloat.t := round_to 53 1024 x.

Definition to_dtype (d : SGPT.DType) (x : t) : t :=
  match d with
  | SGPT.float16 => round_to prec emax (round_to 11 16 x)
  | SGPT.bfloat16 => round_to prec emax (round_to 8 128 x)
  | SGPT.float32 | SGPT.float64 => x
  end.

Definition sum (l : list t) : t := fold_left add l zero.

Definition mean (l : list t) : t := div (sum l) (of_Z (Z.of_nat (List.length l))).

Definition dot (x y : list t) : t :=
  fold_left (fun acc '(a, b) => add acc (mul a b)) (combine x y) zero.

Definition entry (M : list (list t)) (r c : nat) : t := nth c (nth r M []) zero.

(** Row [i] of the lower Cholesky factor of [A], from the rows above it. *)
Definition cholesky_row (A L : list (list t)) (n i : nat) : option (list t) :=
  let below :=
    fold_left
      (fun acc j =>
         acc ++ [div (sub (entry A i j) (dot acc (nth j L []))) (entry L j j)])
      (seq 0 i) [] in
  let s := sub (entry A i i) (dot below below) in
  if ltb zero s then Some (below ++ sqrt s :: repeat zero (n - i - 1))
  else None.

Definition cholesky_lower (n : nat) (A : list (list t)) : option (list (list t)) :=
  fold_left
    (fun acc i =>
       match acc with
       | Some L => option_map (fun r => L ++ [r]) (cholesky_row A L n i)
       | None => None
       end)
    (seq 0 n) (Some []).

Definition transpose (n : nat) (M : list (list t)) : list (list t) :=
  map (fun r => map (fun c => entry M c r) (seq 0 n)) (seq 0 n).

(** [torch.linalg.cholesky]: [L] with [L L^T = A], or [U = L^T] for
    [upper=True]. *)
Definition linalg_cholesky (upper : bool) (n : nat) (A : list (list t))
  : option (list (list t)) :=
  option_map (fun L => if upper then transpose n L else L) (cholesky_lower n A).

(** The inverse of a lower triangular matrix, by forward substitution. *)
Definition lower_inverse (n : nat) (L : list (list t)) : list (list t) :=
  fold_left
    (fun inv i =>
       inv ++
       [map (fun j =>
               if (i <? j)%nat then zero
               else
                 let delta := if (i =? j)%nat then one else zero in
                 let s := dot (firstn i (nth i L []))
                              (map (fun k => entry inv k j) (seq 0 i)) in
                 div (sub delta s) (entry L i i))
            (seq 0 n)])
    (seq 0 n) [].

(** [torch.cholesky_inverse(L)]: the inverse of [L L^T]. *)
Definition cholesky_inverse (n : nat) (L : list (list t)) : list (list t) :=
  let inv := lower_inverse n L in
  map (fun a =>
         map (fun b =>
                dot (map (fun k => entry inv k a) (seq 0 n))
                    (map (fun k => entry inv k b) (seq 0 n)))
             (seq 0 n))
      (seq 0 n).

#[global] Instance backend : SGPT.Backend t := {|
  SGPT.rzero := zero;
  SGPT.rone := one;
  SGPT.radd := add;
  SGPT.rsub := sub;
  SGPT.rmul := mul;
  SGPT.rdiv := div;
  SGPT.rleb := leb;
  SGPT.reqb := eqb;
  SGPT.of_int := of_Z;
  SGPT.of_pyfloat := of_pyfloat;
  SGPT.to_pyfloat := to_pyfloat;
  SGPT.to_dtype := to_dtype;
  SGPT.rmean := mean;
  SGPT.rsum := sum;
  SGPT.rdot := dot;
  SGPT.linalg_cholesky := linalg_cholesky;
  SGPT.cholesky_inverse := cholesky_inverse
|}.

(** A [Linear] layer with float32 weights and no fake quantisation. *)
Definition linear (n m : nat) (w : list Z) : SGPT.Layer :=
  {| SGPT.kind := SGPT.Linear;
     SGPT.weight := {| SGPT.shape := [n; m]; SGPT.data := map of_Z w |};
     SGPT.dtype := SGPT.float32;
     SGPT.weight_fake_quant := None |}.

Definition tensor (sh : list nat) (d : list Z) : SGPT.Tensor :=
  {| SGPT.shape := sh; SGPT.data := map of_Z d |}.

(** A [Conv2d] layer of [o] output channels, [i] input channels and a
    [kh] x [kw] kernel. *)
Definition conv2d (o i kh kw : nat) (w : list Z) : SGPT.Layer :=
  {| SGPT.kind := SGPT.Conv2d;
     SGPT.weight := {| SGPT.shape := [o; i; kh; kw]; SGPT.data := map of_Z w |};
     SGPT.dtype := SGPT.float32;
     SGPT.weight_fake_quant := None |}.

(** A wrapper around [l] with the buffers [h] and [n]. *)
Definition wrapper (l : SGPT.Layer) (n m : nat) (h : list (list Z)) (k : Z)
  : SGPT.Wrapper :=
  {| SGPT.layer := l; SGPT.rows := n; SGPT.columns := m;
     SGPT.H := map (map of_Z) h; SGPT.nsamples := k |}.

Definition identity (m : nat) : list (list Z) :=
  map (fun i => map (fun j => if (i =? j)%nat then 1%Z else 0%Z) (seq 0 m)) (seq 0 m).

(** Python's [0.0] and [0.5]. *)
Definition py_zero : PyFloat.t := S754_zero false.
Definition py_half : PyFloat.t := S754_finite false 4503599627370496 (-53).

(** Python's [1.0]. *)
Definition py_one : PyFloat.t := S754_finite false 4503599627370496 (-52).

(** A transformers [Conv1D] layer, whose weight is stored transposed:
    [nx] input features by [nf] output features. *)
Definition conv1d (nx nf : nat) (w : list Z) : SGPT.Layer :=
  {| SGPT.kind := SGPT.Conv1D;
     SGPT.weight := {| SGPT.shape := [nx; nf]; SGPT.data := map of_Z w |};
     SGPT.dtype := SGPT.float32;
     SGPT.weight_fake_quant := None |}.

End F32.

(** Wrappers and batches for concrete runs on the float32 backend. *)
Module Runs.

(** A wrapper as [__init__] leaves it, around a 1 x 4 [Linear] layer with
    the weights [0, 0, 0, 5]. *)
Definition fresh : SGPT.Wrapper :=
  F32.wrapper (F32.linear 1 4 [0; 0; 0; 5]%Z) 1 4
              (map (map (fun _ => 0%Z)) (F32.identity 4)) 0.

(** Two sequences of two tokens each, the four unit vectors. *)
Definition batch_2x2x4 : SGPT.Tensor :=
  F32.tensor [2; 2; 4]
    [1; 0; 0; 0;  0; 1; 0; 0;  0; 0; 1; 0;  0; 0; 0; 1]%Z.

(** Three tokens without a batch dimension. *)
Definition batch_3x4 : SGPT.Tensor :=
  F32.tensor [3; 4] [1; 0; 0; 0;  0; 1; 0; 0;  0; 0; 1; 0]%Z.

(** A wrapper around an [n] x 4 [Linear] layer whose accumulator is the
    identity after two samples, which is what [batch_2x2x4] leaves in
    [fresh]. *)
Definition calibrated (n : nat) (w : list Z) : SGPT.Wrapper :=
  F32.wrapper (F32.linear n 4 w) n 4 (F32.identity 4) 2.

(** One row that is already three quarters sparse. *)
Definition sparse_row : SGPT.Wrapper := calibrated 1 [0; 0; 0; 5]%Z.

(** Two rows of distinct weights. *)
Definition two_rows : SGPT.Wrapper := calibrated 2 [1; 2; 3; 4; 8; 7; 6; 5]%Z.

(** Two rows of equal weights. *)
Definition all_ones : SGPT.Wrapper := calibrated 2 [1; 1; 1; 1; 1; 1; 1; 1]%Z.


(** One sequence of one token with two features, too few for the four
    columns of the wrappers above. *)
Definition batch_1x1x2 : SGPT.Tensor := F32.tensor [1; 1; 2] [1; 1]%Z.

(** Two sequences of one token with a single feature. *)
Definition batch_2x1x1 : SGPT.Tensor := F32.tensor [2; 1; 1] [1; 2]%Z.

(** A wrapper as [__init__] leaves it around a [Conv2d] layer of one 2 x 2
    kernel, and one 3 x 3 image for it. *)
Definition fresh_conv : SGPT.Wrapper :=
  F32.wrapper (F32.conv2d 1 1 2 2 [1; 2; 3; 4]%Z) 1 4
              (map (map (fun _ => 0%Z)) (F32.identity 4)) 0.

Definition image_1x1x3x3 : SGPT.Tensor :=
  F32.tensor [1; 1; 3; 3] [1; 2; 3; 4; 5; 6; 7; 8; 9]%Z.


End Runs.

(** The two pruner contracts of section 8 and the accumulator update of
    section 5, as worded there. *)
Module SGPTSpec.

Import SGPT.

Section Spec.

Context {R : Type} {B : Backend R}.


(** "After [fasterprune(prunen=n, prunem=m)], every contiguous group of [m]
    weights in the pruned dimension contains exactly [n] zeros." *)
Definition nm_exact (n m : nat) (w : Wrapper) : Prop :=
  forall r G, r < rows w -> G * m + m <= columns w ->
    count_zeros (segment (weight_matrix (layer w)) r (G * m) m) = n.


End Spec.

End SGPTSpec.

(* ===================================================================== *)
(** * The two cache-transform properties of section 8, as worded there    *)
(* ===================================================================== *)

Module KVCacheSpec.

Import KVCache.
Open Scope string_scope.

(** The entries of [after] whose name is not one of [before]. *)
Definition new_entries (before after : list ValueInfoProto) : list ValueInfoProto :=
  filter (fun v => negb (existsb (String.eqb (vi_name v)) (map vi_name before)))
         after.

(** "For N attention layers, the transformed graph exposes exactly N new
    cache inputs and N new cache outputs per cache kind (key, value), and one
    shared scalar cache-length input." *)
Definition cache_symmetry (n : nat) (before after : ModelProto) : Prop :=
  List.length (new_entries (input (graph before)) (input (graph after))) = 2 * n + 1
  /\ List.length (new_entries (output (graph before)) (output (graph after))) = 2 * n.

(** "The KV-cache transform fails hard (raises, returns no partially
    rewritten graph) whenever the number of matched attention-block patterns
    in the input graph differs from the expected decoder layer count; it only
    proceeds to rewrite when the count matches exactly."  The matched
    patterns are the structural matches of the rule. *)
Definition fails_hard_on_mismatch
           (matcher : ModelProto -> MatchingRule -> list MatchResult)
           (expected : nat) (m : ModelProto) : Prop :=
  (List.length (matcher m GATHER_MATCHING_RULE_KEY) <> expected ->
   transform matcher m = (Raised AssertionError, m))
  /\ (snd (transform matcher m) <> m ->
      List.length (matcher m GATHER_MATCHING_RULE_KEY) = expected).

Definition count_op (op : string) (m : ModelProto) : nat :=
  List.length (filter (fun n => String.eqb (op_type n) op) (node (graph m))).

(** "Applying the KV-cache transform twice to the same graph either raises a
    precondition error on the second application or leaves the graph
    unchanged"; it adds no concatenation node and does not duplicate the
    graph input it introduced. *)
Definition reapply_guarded
           (matcher : ModelProto -> MatchingRule -> list MatchResult)
           (m : ModelProto) : Prop :=
  let once := snd (transform matcher m) in
  let twice := transform matcher once in
  (fst twice = Raised AssertionError \/ snd twice = once)
  /\ count_op "Concat" (snd twice) = count_op "Concat" once
  /\ count_occ string_dec (map vi_name (input (graph (snd twice)))) "cache_length" <= 1.

End KVCacheSpec.

(* ===================================================================== *)
(** * Concrete module trees                                               *)
(* ===================================================================== *)

Module Trees.

Import Resolver.
Open Scope string_scope.

Definition all_imports : Imports :=
  {| has_QAT := true; has_QATConv3d := true; has_TransformerConv1D := true |}.

(** A model whose only sub-module is the [Linear] layer ["fc"], with its
    weight and bias. *)
Definition one_linear : TorchModule :=
  mkModule OtherLayer []
    [("fc", mkModule Linear [("weight", 0); ("bias", 1)] [])].


End Trees.

(* ===================================================================== *)
(** * Properties of the resolver                                          *)
(* ===================================================================== *)

Module ResolverFacts.

Import Resolver.
Open Scope string_scope.

Lemma slice_to_re (pattern : string) : Py.slice_to 3 ("re:" ++ pattern) = "re:".
Proof. reflexivity. Qed.

Lemma slice_from_re (pattern : string) : Py.slice_from 3 ("re:" ++ pattern) = pattern.
Proof. reflexivity. Qed.



(** ** Matching at the start of the name *)








(** ** The loops of [match_layers_params] *)

Section WithRegex.

Variable re_match : string -> string -> bool.

Local Abbreviation matches := (target_matches re_match).

(** A hit of the loop of [match_targets] is a hit of the target at the
    returned index. *)
Lemma match_targets_from_hit (name : string) (l : list string) :
  forall (idx j : Z),
    match_targets_from re_match idx name l = (true, j) ->
    exists (k : nat) (t : string),
      j = (idx + Z.of_nat k)%Z /\ nth_error l k = Some t /\ matches t name = true.
Proof.
  induction l as [|t l IH]; intros idx j H; cbn [match_targets_from] in H;
    [discriminate|].
  assert (Hrest : match_targets_from re_match (idx + 1) name l = (true, j) ->
                  exists (k : nat) (t0 : string),
                    j = (idx + Z.of_nat k)%Z /\ nth_error (t :: l) k = Some t0
                    /\ matches t0 name = true).
  { intros Hr. destruct (IH _ _ Hr) as (k & t0 & -> & Hk & Hm).
    exists (S k), t0. split; [lia|]. split; assumption. }
  assert (Hhere : matches t name = true ->
                  exists (k : nat) (t0 : string),
                    idx = (idx + Z.of_nat k)%Z /\ nth_error (t :: l) k = Some t0
                    /\ matches t0 name = true).
  { intros Hm. exists 0, t. split; [lia|]. split; [reflexivity | exact Hm]. }
  unfold target_matches, match_targets in Hhere.
  cbn [as_list match_targets_from] in Hhere.
  destruct (String.eqb (Py.slice_to 3 t) "re:").
  - destruct (re_match (Py.slice_from 3 t) name).
    + injection H as <-. now apply Hhere.
    + now apply Hrest.
  - destruct (String.eqb name t).
    + injection H as <-. now apply Hhere.
    + now apply Hrest.
Qed.

Lemma match_targets_hit (name : string) (targets : Targets) (j : Z) :
  match_targets re_match name targets = (true, j) ->
  exists t, nth_error (as_list targets) (Z.to_nat j) = Some t
            /\ matches t name = true.
Proof.
  intros H. destruct (match_targets_from_hit name _ _ _ H) as (k & t & -> & Hk & Hm).
  exists t. split; [|exact Hm]. now rewrite Z.add_0_l, Nat2Z.id.
Qed.

Lemma nth_all_false {A : Type} (l : list A) :
  forall k, nth k (map (fun _ => false) l) false = false.
Proof.
  induction l as [|a l IH]; intros [|k]; simpl; auto.
Qed.

Lemma mark_found_length (found : list bool) :
  forall i, List.length (mark_found found i) = List.length found.
Proof.
  induction found as [|b found IH]; intros [|i]; simpl; try reflexivity.
  now rewrite IH.
Qed.

Lemma mark_found_nth (found : list bool) :
  forall i k, nth k (mark_found found i) false = true ->
              k = i \/ nth k found false = true.
Proof.
  induction found as [|b found IH]; intros [|i] [|k]; simpl; intros H; auto.
  destruct (IH i k H) as [-> | Hk]; auto.
Qed.

(** Crediting the target that matched a name of [cands] keeps the record. *)
Lemma credited_mark (targets : Targets) (cands : list string)
      (found : list bool) (name : string) (j : Z) :
  credited re_match (as_list targets) cands found ->
  In name cands ->
  match_targets re_match name targets = (true, j) ->
  credited re_match (as_list targets) cands (mark_found found (Z.to_nat j)).
Proof.
  intros [Hlen Hc] Hin Hm. split; [now rewrite mark_found_length|].
  intros k Hk. destruct (mark_found_nth _ _ _ Hk) as [-> | Hk']; [|now apply Hc].
  destruct (match_targets_hit _ _ _ Hm) as (t & Ht & Hmt).
  exists t, name. repeat split; assumption.
Qed.

Lemma params_loop_credited (targets : Targets) (params : bool) (cands : list string)
      (name : string) (layer : TorchModule) (ps : list (string * Param)) :
  (forall pn p, In (pn, p) ps -> Py.contains_char "."%char pn = false ->
                In (name ++ "." ++ pn) cands) ->
  forall st : LoopState,
    credited re_match (as_list targets) cands (fst st) ->
    credited re_match (as_list targets) cands
      (fst (fold_left
              (fun '(targets_found, resolved) '(param_name, param) =>
                 if Py.contains_char "."%char param_name then (targets_found, resolved)
                 else
                   let '(param_match, param_match_index) :=
                     match_targets re_match (name ++ "." ++ param_name) targets in
                   if param_match then
                     (mark_found targets_found (Z.to_nat param_match_index),
                      Py.dict_set resolved name
                        (if negb params then VLayer layer else VParam param))
                   else (targets_found, resolved))
              ps st)).
Proof.
  induction ps as [|[pn p] ps IH]; intros Hps [found resolved] Hc;
    cbn [fold_left]; [exact Hc|].
  apply IH;
    [intros pn' p' Hin Hd; apply (Hps pn' p'); [now right | exact Hd]|].
  destruct (Py.contains_char "."%char pn) eqn:Ed; [exact Hc|].
  destruct (match_targets re_match (name ++ "." ++ pn) targets) as [[|] j] eqn:Em;
    [|exact Hc].
  apply (credited_mark targets cands found (name ++ "." ++ pn) j Hc);
    [|exact Em].
  apply (Hps pn p); [now left | exact Ed].
Qed.

Lemma layer_step_credited (targets : Targets) (params : bool) (cands : list string)
      (name : string) (layer : TorchModule) (st : LoopState) :
  (params = false -> In name cands) ->
  (forall c, In c (param_candidates name layer) -> In c cands) ->
  credited re_match (as_list targets) cands (fst st) ->
  credited re_match (as_list targets) cands
    (fst (layer_step re_match targets params st (name, layer))).
Proof.
  intros Hname Hps Hc. destruct st as [found resolved]. unfold layer_step.
  destruct (match_targets re_match name targets) as [is_match j] eqn:Em.
  unfold params_loop. apply params_loop_credited.
  - intros pn p Hin Hd. apply Hps. unfold param_candidates.
    apply in_map_iff. exists (pn, p). split; [reflexivity|].
    apply filter_In. split; [exact Hin | now rewrite Hd].
  - destruct is_match, params; simpl; try exact Hc.
    apply (credited_mark targets cands found name j Hc); [now apply Hname | exact Em].
Qed.

Lemma layers_loop_credited (targets : Targets) (params : bool) (cands : list string)
      (l : list (string * TorchModule)) :
  (forall name layer, In (name, layer) l ->
     (params = false -> In name cands)
     /\ (forall c, In c (param_candidates name layer) -> In c cands)) ->
  forall st : LoopState,
    credited re_match (as_list targets) cands (fst st) ->
    credited re_match (as_list targets) cands
      (fst (fold_left (layer_step re_match targets params) l st)).
Proof.
  induction l as [|[name layer] l IH]; intros Hl st Hc; simpl; [exact Hc|].
  apply IH; [intros n' l' Hin; apply Hl; now right|].
  destruct (Hl name layer (or_introl eq_refl)) as [Hn Hp].
  now apply layer_step_credited.
Qed.

Lemma candidates_cover (module : TorchModule) (params : bool)
      (name : string) (layer : TorchModule) :
  In (name, layer) (named_modules module) ->
  (params = false -> In name (candidates module params))
  /\ (forall c, In c (param_candidates name layer) -> In c (candidates module params)).
Proof.
  intros Hin. unfold candidates. split.
  - intros ->. apply in_flat_map. exists (name, layer). split; [exact Hin|].
    now left.
  - intros c Hc. apply in_flat_map. exists (name, layer). split; [exact Hin|].
    apply in_or_app. now right.
Qed.

(** A target whose entry of [targets_found] is not set is missed. *)
Lemma missed_targets_In (targets : list string) :
  forall (found : list bool) (k : nat) (t : string),
    List.length found = List.length targets ->
    nth_error targets k = Some t -> nth k found false = false ->
    In t (missed_targets found targets).
Proof.
  unfold missed_targets.
  induction targets as [|t0 targets IH]; intros [|b found] k t Hlen Hk Hf;
    try discriminate; destruct k as [|k]; simpl in *; try discriminate.
  - injection Hk as ->. subst b. now left.
  - injection Hlen as Hlen.
    destruct b; simpl; [|right]; now apply (IH found k t).
Qed.

End WithRegex.

End ResolverFacts.

Module ResolverClaims.

Import Resolver ResolverFacts.
Open Scope string_scope.



(** C8, at the targets [["re:.*", "fc"]] on a model with the one layer
    ["fc"]: the target ["fc"] matches that layer, and yet resolution raises
    the error that names ["fc"] as not found, because every name is credited
    to the first target that matches it. *)
Theorem match_layers_params_shadowed_target :
  fst (match_targets PyRe.re_match "fc" (TargetStr "fc")) = true
  /\ get_layers PyRe.re_match Trees.all_imports
       (TargetList ["re:.*"; "fc"]) Trees.one_linear
     = ValueError ["fc"].
Proof. split; vm_compute; reflexivity. Qed.

(** For targets other than the three reserved tokens: a target that matches
    none of the names it is looked up against (the layer names, unless
    parameters are asked for, and the names of the parameters) makes the
    resolution raise the ValueError, and is in the list that its message
    prints. *)
Theorem unmatched_target_is_reported :
  forall (re_match : string -> string -> bool) (env : Imports)
         (targets : Targets) (module : TorchModule) (params : bool)
         (target : string),
    targets_eq_str targets ALL_TARGET = false ->
    targets_eq_str targets ALL_PRUNABLE_TARGET = false ->
    targets_eq_str targets ALL_QUANTIZABLE_TARGET = false ->
    In target (as_list targets) ->
    (forall name, In name (candidates module params) ->
                  target_matches re_match target name = false) ->
    exists missed,
      match_layers_params re_match env targets module params = ValueError missed
      /\ In target missed.
Proof.
  intros re_match env targets module params target H1 H2 H3 Hin Hnone.
  unfold match_layers_params. rewrite H1, H2, H3.
  destruct (fold_left (layer_step re_match targets params) (named_modules module)
                      (map (fun _ => false) (as_list targets), []))
    as [found resolved] eqn:Ef.
  assert (Hc : credited re_match (as_list targets) (candidates module params) found).
  { change found with (fst (found, resolved)). rewrite <- Ef.
    apply layers_loop_credited.
    - intros name layer. apply candidates_cover.
    - split; [simpl; now rewrite length_map|].
      intros k Hk. simpl in Hk. now rewrite nth_all_false in Hk. }
  destruct (In_nth_error _ _ Hin) as [k Hk].
  assert (Hf : nth k found false = false).
  { destruct (nth k found false) eqn:E; [|reflexivity].
    destruct Hc as [_ Hc]. destruct (Hc k E) as (t & name & Ht & Hn & Hm).
    assert (t = target) by congruence. subst t.
    rewrite (Hnone name Hn) in Hm. discriminate. }
  destruct Hc as [Hlen _].
  pose proof (missed_targets_In (as_list targets) found k target Hlen Hk Hf) as Hmiss.
  exists (missed_targets found (as_list targets)). split; [|exact Hmiss].
  destruct (missed_targets found (as_list targets)); [contradiction | reflexivity].
Qed.

Lemma unmatched_target_is_reported_witness :
  exists missed,
    match_layers_params PyRe.re_match Trees.all_imports
      (TargetList ["fc"; "head"]) Trees.one_linear false
    = ValueError missed
    /\ In "head" missed.
Proof.
  apply (unmatched_target_is_reported PyRe.re_match Trees.all_imports
           (TargetList ["fc"; "head"]) Trees.one_linear false "head").
  - reflexivity.
  - reflexivity.
  - reflexivity.
  - right. now left.
  - intros name Hn. vm_compute in Hn.
    repeat (destruct Hn as [<- | Hn]; [reflexivity|]). contradiction.
Defined.

End ResolverClaims.

(* ===================================================================== *)
(** * The resolver, function by function                                  *)
(* ===================================================================== *)

Module DictFacts.

Open Scope string_scope.

Lemma dict_get_set_same {V : Type} (d : list (string * V)) (k : string) (v : V) :
  Py.dict_get (Py.dict_set d k v) k = Some v.
Proof.
  induction d as [|[k' v'] d IH]; simpl.
  - now rewrite String.eqb_refl.
  - destruct (String.eqb k' k) eqn:E; simpl.
    + now rewrite String.eqb_refl.
    + now rewrite E.
Qed.

Lemma dict_get_set_other {V : Type} (d : list (string * V)) (k k' : string) (v : V) :
  k' <> k -> Py.dict_get (Py.dict_set d k v) k' = Py.dict_get d k'.
Proof.
  intros Hne. induction d as [|[k0 v0] d IH]; simpl.
  - destruct (String.eqb k k') eqn:E; [|reflexivity].
    apply String.eqb_eq in E. congruence.
  - destruct (String.eqb k0 k) eqn:E; simpl.
    + apply String.eqb_eq in E. subst k0.
      destruct (String.eqb k k') eqn:E'; [|reflexivity].
      apply String.eqb_eq in E'. congruence.
    + now rewrite IH.
Qed.

Lemma dict_get_In {V : Type} (d : list (string * V)) (k : string) :
  In k (map fst d) <-> Py.dict_get d k <> None.
Proof.
  induction d as [|[k0 v0] d IH]; simpl.
  - split; [contradiction | congruence].
  - destruct (String.eqb k0 k) eqn:E.
    + apply String.eqb_eq in E. split; [discriminate | now left].
    + apply String.eqb_neq in E. rewrite <- IH. split; [intros [?|?]; congruence | now right].
Qed.

Lemma dict_set_keys {V : Type} (d : list (string * V)) (k : string) (v : V) :
  forall k', In k' (map fst (Py.dict_set d k v)) <-> k' = k \/ In k' (map fst d).
Proof.
  intros k'. rewrite !dict_get_In.
  destruct (string_dec k' k) as [->|Hne].
  - rewrite dict_get_set_same. split; [now left | discriminate].
  - rewrite dict_get_set_other by exact Hne. split; [now right | intros [?|?]; congruence].
Qed.





End DictFacts.

Module ResolverDict.

Import Resolver DictFacts.
Open Scope string_scope.


Section WithRegex.

Variable re_match : string -> string -> bool.









End WithRegex.

End ResolverDict.

Module ResolverFound.

Import Resolver ResolverFacts DictFacts ResolverDict.
Open Scope string_scope.


Section WithRegex.

Variable re_match : string -> string -> bool.













End WithRegex.

End ResolverFound.

Module ResolverNames.

Import Resolver ResolverFacts DictFacts ResolverDict ResolverFound.
Open Scope string_scope.




Lemma append_inj_l (a p p' : string) : a ++ p = a ++ p' -> p = p'.
Proof. induction a as [|c a IH]; simpl; intros H; [exact H|]. injection H as H. auto. Qed.



Section WithRegex.

Variable re_match : string -> string -> bool.





End WithRegex.

End ResolverNames.

Module ResolverLookup.

Import Resolver ResolverFacts DictFacts ResolverDict ResolverFound ResolverNames.
Open Scope string_scope.








End ResolverLookup.

Module ResolverSingle.

Import Resolver ResolverFacts DictFacts ResolverDict ResolverFound ResolverNames.
Open Scope string_scope.

Section WithRegex.

Variable re_match : string -> string -> bool.





End WithRegex.

End ResolverSingle.

Module ResolverByName.

Import Resolver ResolverFacts DictFacts ResolverDict ResolverFound ResolverNames.
Import ResolverSingle.
Open Scope string_scope.






End ResolverByName.

Module ResolverReserved.

Import Resolver ResolverFacts DictFacts.
Open Scope string_scope.








End ResolverReserved.

Module ResolverByClass.

Import Resolver ResolverReserved.
Open Scope string_scope.



End ResolverByClass.

Module ResolverParams.

Import Resolver ResolverFacts DictFacts ResolverNames ResolverReserved.
Open Scope string_scope.








End ResolverParams.

Module ResolverWeights.

Import Resolver ResolverFacts DictFacts ResolverNames ResolverReserved ResolverParams.
Open Scope string_scope.



End ResolverWeights.

(* ===================================================================== *)
(** * Properties of the layer finder                                      *)
(* ===================================================================== *)

Module FeatureImitationFacts.

Import Resolver FeatureImitation DictFacts ResolverReserved.
Open Scope string_scope.

(** One step of the walk, on an entry of [named_modules]. *)
Local Abbreviation keep layer_names :=
  (fun (d : list (string * TorchModule)) '(n, l) =>
     if existsb (String.eqb n) layer_names then Py.dict_set d n l else d).


End FeatureImitationFacts.

Module FeatureImitationLayers.

Import Resolver FeatureImitation DictFacts ResolverReserved FeatureImitationFacts.
Open Scope string_scope.



End FeatureImitationLayers.

(* ===================================================================== *)
(** * Properties of the recipe stage                                      *)
(* ===================================================================== *)

Module StageFacts.

Import Stage DictFacts.
Open Scope string_scope.

Lemma slice_from_app (a b : string) : Py.slice_from (String.length a) (a ++ b) = b.
Proof. induction a as [|c a IH]; simpl; [now destruct b | exact IH]. Qed.

Lemma length_append (a b : string) :
  String.length (a ++ b) = String.length a + String.length b.
Proof. induction a as [|c a IH]; simpl; [reflexivity | now rewrite IH]. Qed.

Lemma endswith_app (a suffix : string) : Py.endswith (a ++ suffix) suffix = true.
Proof.
  unfold Py.endswith. rewrite length_append.
  replace (String.length a + String.length suffix - String.length suffix)
    with (String.length a) by lia.
  rewrite slice_from_app, String.eqb_refl.
  apply Nat.leb_le. lia.
Qed.

Lemma slice_to_from (n : nat) (s : string) : Py.slice_to n s ++ Py.slice_from n s = s.
Proof.
  revert s. induction n as [|n IH]; intros [|c s]; simpl; try reflexivity.
  now rewrite IH.
Qed.

(** A string that ends with [suffix] is what comes before, then [suffix]. *)
Lemma endswith_split (s suffix : string) :
  Py.endswith s suffix = true ->
  s = Py.slice_to (String.length s - String.length suffix) s ++ suffix.
Proof.
  unfold Py.endswith. intros H. apply andb_prop in H. destruct H as [H _].
  apply String.eqb_eq in H.
  set (n := String.length s - String.length suffix) in *.
  rewrite <- H. symmetry. apply slice_to_from.
Qed.

(** Splitting at the last ["_modifiers"] of a string that ends with it
    gives what comes before. *)
Lemma rsplit1_suffix (g : string) :
  rsplit1 "_modifiers" (g ++ "_modifiers") = Some (g, "").
Proof.
  induction g as [|c g IH]; [reflexivity|].
  cbn [append rsplit1]. now rewrite IH.
Qed.

Lemma group_of_suffixed (g : string) : group_of_key (g ++ "_modifiers") = Some g.
Proof.
  unfold group_of_key, rsplit1_head.
  now rewrite endswith_app, rsplit1_suffix.
Qed.

Lemma tag_list_spec (group : string) (l : list PyValue) :
  forall appended l',
    tag_list group l = (None, appended, l') -> Forall tagged appended.
Proof.
  induction l as [|x l IH]; intros appended l' H; cbn [tag_list] in H.
  - injection H as <- <-. constructor.
  - destruct x as [s | t | l0 | d]; try discriminate.
    destruct (tag_list group l) as [[e app] l''] eqn:E.
    injection H as -> <- <-. constructor; [|now apply (IH app l'')].
    eexists. split; [reflexivity|]. apply dict_set_keys. now left.
Qed.

Lemma tag_spec (group : string) (value : PyValue) :
  forall appended value',
    tag group value = (None, appended, value') -> Forall tagged appended.
Proof.
  intros appended value' H. destruct value as [[|c s] | t | l | [|x d]];
    cbn [tag] in H; try discriminate; try (injection H as <- <-; constructor).
  destruct (tag_list group l) as [[e app] l'] eqn:E.
  injection H as -> <- <-. now apply (tag_list_spec group l app l').
Qed.

(** The call leaves the keys of [values] as they were, and what it returns
    are dicts with a ["group"]. *)
Lemma combine_modifiers_spec (values : list (string * PyValue)) :
  forall e modifiers values1,
    _combine_modifiers values = (e, modifiers, values1) ->
    map fst values1 = map fst values
    /\ (e = None -> Forall tagged modifiers).
Proof.
  induction values as [|[key value] rest IH]; intros e modifiers values1 H;
    cbn [_combine_modifiers] in H.
  - injection H as <- <- <-. split; [reflexivity | constructor].
  - destruct (group_of_key key) as [group|].
    + destruct (tag group value) as [[e0 appended] value'] eqn:Et.
      destruct e0 as [ex|].
      * injection H as <- <- <-. split; [reflexivity | discriminate].
      * destruct (_combine_modifiers rest) as [[e' ms] rest'] eqn:Ec.
        injection H as <- <- <-. destruct (IH e' ms rest' eq_refl) as [Hk Hm].
        split; [cbn [map fst]; now rewrite Hk|].
        intros He. apply Forall_app. split; [|now apply Hm].
        now apply (tag_spec group value appended value').
    + destruct (_combine_modifiers rest) as [[e' ms] rest'] eqn:Ec.
      injection H as <- <- <-. destruct (IH e' ms rest' eq_refl) as [Hk Hm].
      split; [cbn [map fst]; now rewrite Hk | exact Hm].
Qed.

Lemma tag_list_map (group : string) (l : list PyValue) :
  forall appended l',
    tag_list group l = (None, appended, l') ->
    appended = map (set_group group) l /\ l' = map (set_group group) l.
Proof.
  induction l as [|x l IH]; intros appended l' H; cbn [tag_list] in H.
  - injection H as <- <-. now split.
  - destruct x as [s | t | l0 | d]; try discriminate.
    destruct (tag_list group l) as [[e app] l''] eqn:E.
    injection H as -> <- <-. destruct (IH app l'' eq_refl) as [-> ->].
    now split.
Qed.

Lemma tag_map (group : string) (value : PyValue) :
  forall appended value',
    tag group value = (None, appended, value') ->
    match value with
    | PList l => appended = map (set_group group) l
                 /\ value' = PList (map (set_group group) l)
    | _ => appended = [] /\ value' = value
    end.
Proof.
  intros appended value' H. destruct value as [[|c s] | t | l | [|x d]];
    cbn [tag] in H; try discriminate; try (injection H as <- <-; now split).
  destruct (tag_list group l) as [[e app] l'] eqn:E.
  injection H as -> <- <-. destruct (tag_list_map group l app l' E) as [-> ->].
  now split.
Qed.

Lemma dict_del_keys {V : Type} (d d' : list (string * V)) (k : string) :
  dict_del d k = Some d' ->
  In k (map fst d) /\ incl (map fst d') (map fst d).
Proof.
  revert d'. induction d as [|[k0 v0] d IH]; intros d' H; simpl in H; [discriminate|].
  destruct (String.eqb k0 k) eqn:E.
  - apply String.eqb_eq in E. subst k0. injection H as <-.
    split; [now left | intros x Hx; now right].
  - destruct (dict_del d k) as [d1|] eqn:Ed; [|discriminate].
    injection H as <-. destruct (IH d1 eq_refl) as [Hin Hincl].
    split; [now right|]. intros x [<-|Hx]; [now left | right; now apply Hincl].
Qed.

(** The loop of lines 59-60 ends only if every key was there. *)
Lemma delete_keys_spec (keys : list PyValue) :
  forall values values',
    delete_keys values keys = (None, values') ->
    incl (map fst values') (map fst values)
    /\ forall k, In (PStr k) keys -> In k (map fst values).
Proof.
  induction keys as [|x keys IH]; intros values values' H; cbn [delete_keys] in H.
  - injection H as <-. split; [apply incl_refl | intros k []].
  - destruct x as [k0 | t | l | d]; try discriminate.
    destruct (dict_del values k0) as [values1|] eqn:Ed; [|discriminate].
    destruct (dict_del_keys _ _ _ Ed) as [Hin Hincl].
    destruct (IH values1 values' H) as [Hincl' Hall].
    split; [intros x Hx; now apply Hincl, Hincl'|].
    intros k [[= <-] | Hk]; [exact Hin | now apply Hincl, Hall].
Qed.

End StageFacts.

Module StageGroups.

Import Stage DictFacts StageFacts.
Open Scope string_scope.

(** A call of [_combine_modifiers] that returns gives, in the order of the
    keys of [values], the elements of the lists under the keys that end in
    ["_modifiers"] or are ["modifiers"], each with the group of its key
    under ["group"], in place of any group it had; the lists in [values] hold
    the same modifiers, and the other entries are as they were.  The group
    of a key [g + "_modifiers"] is [g], whatever [g] is, that of
    ["modifiers"] is ["default"], and two different keys have the same group
    only if it is ["default"]. *)
Theorem combine_modifiers_groups_by_key :
  (forall (values : list (string * PyValue)) (modifiers : list PyValue)
          (values1 : list (string * PyValue)),
      _combine_modifiers values = (None, modifiers, values1) ->
      modifiers
      = flat_map (fun '(key, value) =>
                    match grouped key value with Some l => l | None => [] end)
                 values
      /\ values1
         = map (fun '(key, value) =>
                  (key, match grouped key value with
                        | Some l => PList l
                        | None => value
                        end))
               values)
  /\ (forall g : string, group_of_key (g ++ "_modifiers") = Some g)
  /\ group_of_key "modifiers" = Some "default"
  /\ (forall key key' group : string,
         group_of_key key = Some group -> group_of_key key' = Some group ->
         key = key' \/ group = "default").
Proof.
  split; [|split; [exact group_of_suffixed | split; [reflexivity|]]].
  - induction values as [|[key value] rest IH]; intros modifiers values1 H;
      cbn [_combine_modifiers] in H.
    + injection H as <- <-. now split.
    + cbn [flat_map map]. unfold grouped at 1 3.
      destruct (group_of_key key) as [group|].
      * destruct (tag group value) as [[e0 appended] value'] eqn:Et.
        destruct e0 as [ex|]; [discriminate|].
        destruct (_combine_modifiers rest) as [[e' ms] rest'] eqn:Ec.
        injection H as -> <- <-. destruct (IH ms rest' eq_refl) as [-> ->].
        pose proof (tag_map group value appended value' Et) as Hv.
        destruct value as [s | t | l | d]; destruct Hv as [-> ->]; now split.
      * destruct (_combine_modifiers rest) as [[e' ms] rest'] eqn:Ec.
        injection H as -> <- <-. destruct (IH ms rest' eq_refl) as [-> ->].
        now split.
  - assert (Hkey : forall key group, group_of_key key = Some group ->
                     key = group ++ "_modifiers"
                     \/ (key = "modifiers" /\ group = "default")).
    { intros key group. unfold group_of_key.
      destruct (Py.endswith key "_modifiers") eqn:Ee; cbn [orb].
      - apply endswith_split in Ee.
        remember (Py.slice_to (String.length key - String.length "_modifiers") key)
          as h eqn:Hh in Ee.
        clear Hh. subst key.
        unfold rsplit1_head. rewrite rsplit1_suffix. intros [= <-]. now left.
      - destruct (String.eqb key "modifiers") eqn:E; [|discriminate].
        apply String.eqb_eq in E. subst key. intros [= <-]. now right. }
    intros key key' group H1 H2.
    destruct (Hkey key group H1) as [-> | [_ ->]]; [|now right].
    destruct (Hkey key' group H2) as [-> | [_ ->]]; [now left | now right].
Qed.

(** A stage with a pruning group, whose modifier came with another group,
    and a default group. *)
Lemma combine_modifiers_groups_by_key_witness :
  _combine_modifiers
    [("group", PStr "test");
     ("pruning_modifiers", PList [PDict [("group", PStr "old")]]);
     ("modifiers", PList [PDict []])]
  = (None,
     [PDict [("group", PStr "pruning")]; PDict [("group", PStr "default")]],
     [("group", PStr "test");
      ("pruning_modifiers", PList [PDict [("group", PStr "pruning")]]);
      ("modifiers", PList [PDict [("group", PStr "default")]])]).
Proof.
  destruct (_combine_modifiers
    [("group", PStr "test");
     ("pruning_modifiers", PList [PDict [("group", PStr "old")]]);
     ("modifiers", PList [PDict []])]) as [[e ms] values1] eqn:E.
  assert (He : e = None) by (vm_compute in E; congruence). subst e.
  destruct (proj1 combine_modifiers_groups_by_key _ _ _ E) as [-> ->].
  reflexivity.
Defined.

(** [remap_modifiers] returns only on a stage that holds exactly two
    modifiers under its modifier keys, and only if every field name of the
    second of them, ["group"] included, is a key of [values]; what it then
    stores under ["modifiers"] is the list of the field names of the first
    modifier, not a list of modifiers. *)
Theorem remap_modifiers_stores_field_names :
  forall values values' : list (string * PyValue),
    remap_modifiers values = (None, values') ->
    exists (first second : PyValue) (values1 : list (string * PyValue)),
      _combine_modifiers values = (None, [first; second], values1)
      /\ Py.dict_get values' "modifiers" = Some (PList (map PStr (fields first)))
      /\ In "group" (fields first)
      /\ (forall k, In k (fields second) -> In k (map fst values))
      /\ In "group" (map fst values).
Proof.
  intros values values'. unfold remap_modifiers.
  destruct (_combine_modifiers values) as [[e combined] values1] eqn:Ec.
  destruct (combine_modifiers_spec values e combined values1 Ec) as [Hkeys Htag].
  destruct e as [ex|]; [discriminate|].
  specialize (Htag eq_refl).
  destruct combined as [|first [|second [|third l]]]; try discriminate.
  inversion Htag as [|? ? (d1 & -> & Hg1) Htag']; subst.
  inversion Htag' as [|? ? (d2 & -> & Hg2) _]; subst.
  cbn [iterate].
  destruct (delete_keys values1 _) as [[ex|] values2] eqn:Ed; [discriminate|].
  intros [= <-].
  destruct (delete_keys_spec _ _ _ Ed) as [_ Hall].
  assert (Hsecond : forall k, In k (fields (PDict d2)) -> In k (map fst values)).
  { intros k Hk. rewrite <- Hkeys. apply Hall. cbn [fields] in Hk.
    apply in_map_iff in Hk. destruct Hk as ([k' v] & <- & Hin).
    apply in_map_iff. now exists (k', v). }
  exists (PDict d1), (PDict d2), values1.
  split; [reflexivity|]. split.
  - rewrite dict_get_set_same. cbn [fields]. f_equal. f_equal.
    rewrite map_map. apply map_ext. now intros [k v].
  - split; [exact Hg1|]. split; [exact Hsecond | now apply Hsecond].
Qed.

(** A stage of the group ["test"] with two modifiers, the second without
    arguments. *)
Lemma remap_modifiers_stores_field_names_witness :
  Py.dict_get
    (snd (remap_modifiers
            [("group", PStr "test");
             ("modifiers", PList [PDict [("sparsity", PScalar 0)]; PDict []])]))
    "modifiers"
  = Some (PList [PStr "sparsity"; PStr "group"]).
Proof.
  destruct (remap_modifiers_stores_field_names
              [("group", PStr "test");
               ("modifiers", PList [PDict [("sparsity", PScalar 0)]; PDict []])]
              [("modifiers", PList [PStr "sparsity"; PStr "group"])]
              eq_refl)
    as (first & second & values1 & Hc & Hget & _).
  injection Hc as <- _ _. exact Hget.
Defined.

End StageGroups.

(* ===================================================================== *)
(** * Properties of the KV-cache transform                                *)
(* ===================================================================== *)

Module KVCacheFacts.

Import KVCache.
Open Scope string_scope.

Lemma rewired_refl (m : ModelProto) : rewired m m.
Proof. repeat split. Qed.

Lemma rewired_trans (a b c : ModelProto) : rewired a b -> rewired b c -> rewired a c.
Proof.
  intros (H1 & H2 & H3 & H4) (K1 & K2 & K3 & K4).
  repeat split; congruence.
Qed.

Lemma setitem_map {A C : Type} (f : A -> C) (l : list A) :
  forall (i : nat) (x y : A) (l' : list A),
    Py.setitem l i x = Some l' -> nth_error l i = Some y -> f x = f y ->
    map f l' = map f l.
Proof.
  induction l as [|h t IH]; intros i x y l' Hset Hnth Hf; [discriminate|].
  destruct i as [|i]; simpl in *.
  - injection Hset as <-. injection Hnth as ->. simpl. now rewrite Hf.
  - destruct (Py.setitem t i x) as [t'|] eqn:E; [|discriminate].
    injection Hset as <-. simpl. f_equal. exact (IH i x y t' E Hnth Hf).
Qed.

Lemma rewire_add_rewired (s : string) (m m' : ModelProto) (r : MatchResult) :
  rewire_add s m r = Some m' -> rewired m m'.
Proof.
  unfold rewire_add.
  destruct (children r) as [|[|add_node ?] ?]; try discriminate.
  destruct (nth_error (node (graph m)) add_node) as [n|] eqn:En; [|discriminate].
  destruct (Py.setitem (node_input n) 1 s) as [inputs|]; [|discriminate].
  destruct (Py.setitem (node (graph m)) add_node (set_node_input n inputs))
    as [nodes|] eqn:Es; [|discriminate].
  simpl. intros H. injection H as <-.
  repeat split. simpl.
  exact (setitem_map signature _ _ _ _ _ Es En eq_refl).
Qed.

Lemma rewire_all_rewired (s : string) (l : list MatchResult) :
  forall (m m' : ModelProto) (o : Outcome),
    rewire_all s m l = (o, m') -> rewired m m'.
Proof.
  induction l as [|r l IH]; intros m m' o H; simpl in H.
  - injection H as _ <-. apply rewired_refl.
  - destruct (rewire_add s m r) as [m1|] eqn:E.
    + apply (rewired_trans _ _ _ (rewire_add_rewired _ _ _ _ E) (IH _ _ _ H)).
    + injection H as _ <-. apply rewired_refl.
Qed.

Lemma rewire_all_outcome (s : string) (l : list MatchResult) :
  forall (m : ModelProto), fst (rewire_all s m l) <> Raised AssertionError.
Proof.
  induction l as [|r l IH]; intros m; simpl.
  - discriminate.
  - destruct (rewire_add s m r); [apply IH | discriminate].
Qed.

Section WithMatcher.

Variable matcher : ModelProto -> MatchingRule -> list MatchResult.

(** The two ways a call can go. *)
Lemma transform_cases (m : ModelProto) :
  (List.length (gather_nodes_of matcher m) <> 20
   /\ transform matcher m = (Raised AssertionError, m))
  \/ (List.length (gather_nodes_of matcher m) = 20
      /\ fst (transform matcher m) <> Raised AssertionError
      /\ input (graph (snd (transform matcher m)))
         = Py.insert (-1) cache_length (input (graph m))
      /\ output (graph (snd (transform matcher m))) = output (graph m)
      /\ initializer (graph (snd (transform matcher m))) = initializer (graph m)
      /\ map signature (node (graph (snd (transform matcher m))))
         = map signature (node (graph m))).
Proof.
  unfold transform.
  destruct (Nat.eqb_spec (List.length (gather_nodes_of matcher m)) 20) as [E|E].
  - right. simpl negb. cbv iota.
    split; [exact E|]. split; [apply rewire_all_outcome|].
    destruct (rewire_all "cache_length"
                (with_input m (Py.insert (-1) cache_length (input (graph m))))
                (gather_nodes_of matcher m)) as [o m'] eqn:Er.
    destruct (rewire_all_rewired _ _ _ _ _ Er) as (H1 & H2 & H3 & H4).
    simpl in *. auto.
  - left. split; [exact E | reflexivity].
Qed.

End WithMatcher.

(** [l.insert(-1, x)] makes the list one longer. *)
Lemma insert_length {A : Type} (i : Z) (x : A) (l : list A) :
  List.length (Py.insert i x l) = S (List.length l).
Proof.
  unfold Py.insert. rewrite length_app. simpl.
  rewrite Nat.add_succ_r, <- length_app, firstn_skipn. reflexivity.
Qed.

End KVCacheFacts.

Module KVCacheClaims.

Import KVCache KVCacheFacts.
Open Scope string_scope.

(** C6, as the code has it.  What the assertion counts is not the matches of
    the pattern but those of them whose Gather node has a name that ends in
    "15", and what it compares the count with is the literal 20: the
    transform raises, and leaves the model as it was, whenever that count
    differs from 20; with exactly 20 it goes on to rewrite; and a model that
    the call changed had exactly 20. *)
Theorem transform_fails_hard_on_count_mismatch :
  forall (matcher : ModelProto -> MatchingRule -> list MatchResult)
         (m : ModelProto),
    (List.length (gather_nodes_of matcher m) <> 20 ->
     transform matcher m = (Raised AssertionError, m))
    /\ (List.length (gather_nodes_of matcher m) = 20 ->
        fst (transform matcher m) <> Raised AssertionError
        /\ input (graph (snd (transform matcher m)))
           = Py.insert (-1) cache_length (input (graph m)))
    /\ (snd (transform matcher m) <> m ->
        List.length (gather_nodes_of matcher m) = 20).
Proof.
  intros matcher m.
  destruct (transform_cases matcher m) as [[Hn Ht] | (Hn & Ho & Hi & _)].
  - split; [intros _; exact Ht|]. split; [intros E; contradiction|].
    rewrite Ht. simpl. intros H. now contradiction H.
  - split; [intros E; contradiction|]. split; [intros _; now split|].
    intros _. exact Hn.
Qed.

Lemma transform_fails_hard_on_count_mismatch_witness :
  transform GraphQuery.get_structural_matches (Decoder.decoder true 19)
  = (Raised AssertionError, Decoder.decoder true 19).
Proof.
  apply (proj1 (transform_fails_hard_on_count_mismatch
                  GraphQuery.get_structural_matches (Decoder.decoder true 19))).
  vm_compute. discriminate.
Defined.

(** C6 as worded fails on a decoder of 21 blocks, one of whose Gather nodes
    has a name that does not end in "15": the pattern is matched 21 times,
    which is not the expected 20, and yet the run returns and the graph is
    rewritten in part: the Add of the first block reads [cache_length], the
    Add of the last block is as it was. *)
Lemma count_mismatch_is_not_noticed :
  List.length (GraphQuery.get_structural_matches Decoder.decoder_21
                 GATHER_MATCHING_RULE_KEY) = 21
  /\ fst (transform GraphQuery.get_structural_matches Decoder.decoder_21) = Returned
  /\ option_map node_input
       (nth_error
          (node (graph (snd (transform GraphQuery.get_structural_matches
                               Decoder.decoder_21)))) 2)
     = Some ["seq_len.0"; "cache_length"]
  /\ option_map node_input
       (nth_error
          (node (graph (snd (transform GraphQuery.get_structural_matches
                               Decoder.decoder_21)))) 102)
     = Some ["seq_len.20"; "offset"]
  /\ ~ KVCacheSpec.fails_hard_on_mismatch GraphQuery.get_structural_matches 20
         Decoder.decoder_21.
Proof.
  split; [vm_compute; reflexivity|].
  split; [vm_compute; reflexivity|].
  split; [vm_compute; reflexivity|].
  split; [vm_compute; reflexivity|].
  intros [H _].
  assert (E : fst (transform GraphQuery.get_structural_matches Decoder.decoder_21)
              = Raised AssertionError).
  { rewrite H; [reflexivity|]. vm_compute. discriminate. }
  vm_compute in E. discriminate.
Qed.

(** C1, as the code has it: a run that returns found exactly 20 blocks, and
    it put one graph input, the scalar INT64 [cache_length], before the last
    of the old inputs and left the graph outputs as they were.  No input or
    output is added per layer. *)
Theorem transform_adds_only_cache_length :
  forall (matcher : ModelProto -> MatchingRule -> list MatchResult)
         (m m' : ModelProto),
    transform matcher m = (Returned, m') ->
    List.length (gather_nodes_of matcher m) = 20
    /\ input (graph m') = Py.insert (-1) cache_length (input (graph m))
    /\ List.length (input (graph m')) = S (List.length (input (graph m)))
    /\ (elem_type cache_length = INT64 /\ vi_shape cache_length = [])
    /\ output (graph m') = output (graph m).
Proof.
  intros matcher m m' H.
  destruct (transform_cases matcher m) as [[_ Ht] | (Hn & _ & Hi & Ho & _)].
  - rewrite Ht in H. discriminate.
  - rewrite H in Hi, Ho. simpl in Hi, Ho.
    split; [exact Hn|]. split; [exact Hi|]. split.
    + rewrite Hi. apply insert_length.
    + split; [split; reflexivity | exact Ho].
Qed.

Lemma transform_adds_only_cache_length_witness :
  map vi_name (input (graph Decoder.transformed))
  = ["input_ids"; "cache_length"; "attention_mask"]
  /\ output (graph Decoder.transformed) = output (graph (Decoder.decoder true 20)).
Proof.
  destruct (@transform_adds_only_cache_length
              GraphQuery.get_structural_matches
              (Decoder.decoder true 20) Decoder.transformed)
    as (_ & Hi & _ & _ & Ho).
  - vm_compute. reflexivity.
  - split; [rewrite Hi; reflexivity | exact Ho].
Defined.

(** C1 as worded fails on a decoder of 20 blocks: the run returns, and the
    graph has one new input and no new output, not 41 and 40. *)
Lemma cache_symmetry_fails :
  transform GraphQuery.get_structural_matches (Decoder.decoder true 20)
  = (Returned, Decoder.transformed)
  /\ ~ KVCacheSpec.cache_symmetry 20 (Decoder.decoder true 20) Decoder.transformed.
Proof.
  split.
  - vm_compute. reflexivity.
  - intros [H _]. vm_compute in H. discriminate.
Qed.

(** C5, as the code has it.  After a run that returned, a second run either
    raises the assertion error and leaves the model as the first run left it,
    or it goes through again and puts a second [cache_length] input into the
    graph.  Either way the nodes keep their names, types and outputs (none is
    inserted, so no concatenation node either) and the graph outputs stay. *)
Theorem transform_twice :
  forall (matcher : ModelProto -> MatchingRule -> list MatchResult)
         (m m1 : ModelProto),
    transform matcher m = (Returned, m1) ->
    (transform matcher m1 = (Raised AssertionError, m1)
     \/ (fst (transform matcher m1) <> Raised AssertionError
         /\ input (graph (snd (transform matcher m1)))
            = Py.insert (-1) cache_length
                (Py.insert (-1) cache_length (input (graph m)))))
    /\ map signature (node (graph (snd (transform matcher m1))))
       = map signature (node (graph m1))
    /\ output (graph (snd (transform matcher m1))) = output (graph m1).
Proof.
  intros matcher m m1 H.
  destruct (@transform_adds_only_cache_length matcher m m1 H) as (_ & Hi & _).
  destruct (transform_cases matcher m1) as [[_ Ht] | (_ & Ho & Hi2 & Hout & _ & Hsig)].
  - split; [left; exact Ht|]. rewrite Ht. split; reflexivity.
  - split; [right; split; [exact Ho | now rewrite Hi2, Hi]|].
    split; assumption.
Qed.

Lemma transform_twice_witness :
  map vi_name
      (input (graph (snd (transform GraphQuery.get_structural_matches
                                    Decoder.transformed))))
  = ["input_ids"; "cache_length"; "cache_length"; "attention_mask"].
Proof.
  destruct (@transform_twice GraphQuery.get_structural_matches
              (Decoder.decoder true 20) Decoder.transformed)
    as ([Ht | [_ Hi]] & _).
  - vm_compute. reflexivity.
  - exfalso. vm_compute in Ht. discriminate.
  - rewrite Hi. reflexivity.
Defined.

(** C5 as worded fails on the decoder of 20 blocks whose Gather output is the
    first input of the Add: the pattern is still there after the first run,
    so the second run returns too, and the graph then has two
    [cache_length] inputs. *)
Lemma reapply_not_guarded :
  ~ KVCacheSpec.reapply_guarded GraphQuery.get_structural_matches
      (Decoder.decoder true 20).
Proof.
  unfold KVCacheSpec.reapply_guarded. intros (_ & _ & H).
  vm_compute in H. lia.
Qed.

End KVCacheClaims.

(** ** What the transform does to the nodes and to the inputs *)

Module KVCacheNodes.

Import KVCache KVCacheFacts.
Open Scope string_scope.

Lemma setitem_nth {A : Type} (l : list A) :
  forall (i : nat) (x : A) (l' : list A),
    Py.setitem l i x = Some l' ->
    forall j, nth_error l' j = if (j =? i)%nat then Some x else nth_error l j.
Proof.
  induction l as [|h t IH]; intros [|i] x l' H j; simpl in H; try discriminate.
  - injection H as <-. now destruct j.
  - destruct (Py.setitem t i x) as [t'|] eqn:E; [|discriminate].
    injection H as <-. destruct j as [|j]; [reflexivity|].
    simpl. apply (IH i x t' E).
Qed.

(** Writing the second input twice is writing it once. *)
Lemma with_second_input_idem (s : string) (n n' : NodeProto) :
  with_second_input s n = Some n' -> with_second_input s n' = Some n'.
Proof.
  unfold with_second_input. destruct n as [nm op ins outs]. cbn [node_input].
  destruct ins as [|a [|b rest]]; cbn; try discriminate.
  now intros [= <-].
Qed.

Lemma with_second_input_spec (s : string) (n n' : NodeProto) :
  with_second_input s n = Some n' ->
  exists a b rest,
    node_input n = a :: b :: rest /\ n' = set_node_input n (a :: s :: rest).
Proof.
  unfold with_second_input. destruct (node_input n) as [|a [|b rest]] eqn:E; cbn;
    try discriminate.
  intros [= <-]. now exists a, b, rest.
Qed.

(** One pass of the loop writes the second input of one node. *)
Lemma rewire_add_nodes (s : string) (m m' : ModelProto) (r : MatchResult) :
  rewire_add s m r = Some m' ->
  exists (a : nat) (c c' : NodeProto),
    add_node_of r = Some a
    /\ nth_error (node (graph m)) a = Some c
    /\ with_second_input s c = Some c'
    /\ forall j, nth_error (node (graph m')) j
                 = if (j =? a)%nat then Some c' else nth_error (node (graph m)) j.
Proof.
  unfold rewire_add, add_node_of, with_second_input.
  destruct (children r) as [|[|a l0] l]; try discriminate.
  destruct (nth_error (node (graph m)) a) as [c|] eqn:Ec; [|discriminate].
  destruct (Py.setitem (node_input c) 1 s) as [ins|] eqn:Ei; [|discriminate].
  destruct (Py.setitem (node (graph m)) a (set_node_input c ins)) as [nodes|] eqn:En;
    [|discriminate].
  cbn [option_map]. intros [= <-]. exists a, c, (set_node_input c ins).
  split; [reflexivity|]. split; [exact Ec|]. split; [now rewrite Ei|].
  intros j. cbn [with_node graph node].
  apply (setitem_nth _ _ _ _ En).
Qed.

(** The nodes after the loop over the matches. *)
Lemma rewire_all_nodes (s : string) (l : list MatchResult) :
  forall (m m' : ModelProto),
    rewire_all s m l = (Returned, m') ->
    forall i c, nth_error (node (graph m)) i = Some c ->
      nth_error (node (graph m')) i
      = if is_add_node l i then with_second_input s c else Some c.
Proof.
  induction l as [|r l IH]; intros m m' H i c Hc; cbn [rewire_all] in H.
  - injection H as <-. exact Hc.
  - destruct (rewire_add s m r) as [m1|] eqn:E1; [|discriminate].
    destruct (rewire_add_nodes s m m1 r E1) as (a & c0 & c0' & Ha & Hc0 & Hw & Hn).
    unfold is_add_node. cbn [existsb]. rewrite Ha.
    fold (is_add_node l i). specialize (Hn i). rewrite (Nat.eqb_sym a i).
    destruct (i =? a)%nat eqn:Ei.
    + apply Nat.eqb_eq in Ei. subst a. assert (c0 = c) by congruence. subst c0.
      rewrite (IH m1 m' H i c0' Hn). cbn [orb]. rewrite Hw.
      destruct (is_add_node l i); [|reflexivity].
      now apply (with_second_input_idem s c).
    + rewrite Hc in Hn. rewrite (IH m1 m' H i c Hn). reflexivity.
Qed.

Lemma insert_before_last {A : Type} (x : A) (l : list A) :
  (l = [] -> Py.insert (-1) x l = [x])
  /\ (forall init last, l = (init ++ [last])%list ->
                        Py.insert (-1) x l = (init ++ [x; last])%list).
Proof.
  split.
  - intros ->. reflexivity.
  - intros init last ->. unfold Py.insert.
    replace (-1 <? 0)%Z with true by reflexivity.
    rewrite length_app. cbn [List.length].
    replace (Z.to_nat (Z.max 0 (Z.of_nat (List.length init + 1) + -1)))
      with (List.length init + 0) by lia.
    rewrite firstn_app_2, skipn_app. cbn [firstn].
    rewrite Nat.add_0_r, skipn_all, Nat.sub_diag, app_nil_r. reflexivity.
Qed.

End KVCacheNodes.

Module KVCacheRewiring.

Import KVCache KVCacheFacts KVCacheNodes.
Open Scope string_scope.

(** What a run that returns does to the nodes: the node that is first in
    the first child chain of a selected match gets ["cache_length"] as its
    second input, whichever of its inputs the matched Gather feeds, and
    keeps the rest; every other node is left as it was. *)
Theorem transform_rewires_second_input :
  forall (matcher : ModelProto -> MatchingRule -> list MatchResult)
         (m m' : ModelProto),
    transform matcher m = (Returned, m') ->
    forall (i : nat) (n : NodeProto),
      nth_error (node (graph m)) i = Some n ->
      (is_add_node (gather_nodes_of matcher m) i = true ->
       exists a b rest,
         node_input n = a :: b :: rest
         /\ nth_error (node (graph m')) i
            = Some (set_node_input n (a :: "cache_length" :: rest)))
      /\ (is_add_node (gather_nodes_of matcher m) i = false ->
          nth_error (node (graph m')) i = Some n).
Proof.
  intros matcher m m' H i n Hn.
  assert (Hlen : List.length (node (graph m')) = List.length (node (graph m))).
  { destruct (transform_cases matcher m) as [[_ E] | (_ & _ & _ & _ & _ & Hs)].
    - rewrite H in E. discriminate.
    - rewrite H in Hs. cbn [snd] in Hs.
      apply (f_equal (@List.length _)) in Hs. now rewrite !length_map in Hs. }
  unfold transform in H.
  destruct (negb (List.length (gather_nodes_of matcher m) =? 20)%nat); [discriminate|].
  pose proof (rewire_all_nodes _ _ _ _ H i n Hn) as Hi.
  split; intros Hsel; rewrite Hsel in Hi; [|exact Hi].
  destruct (with_second_input "cache_length" n) as [n'|] eqn:Ew.
  - destruct (with_second_input_spec _ _ _ Ew) as (a & b & rest & Hin & ->).
    now exists a, b, rest.
  - exfalso. apply nth_error_None in Hi.
    assert (i < List.length (node (graph m))) by (apply nth_error_Some; congruence).
    lia.
Qed.

(** The Add of the first block of the 20-block decoder, whose first input
    comes from the Gather. *)
Lemma transform_rewires_second_input_witness :
  nth_error (node (graph Decoder.transformed)) 2
  = Some {| node_name := "/h.0/Add_7"; op_type := "Add";
            node_input := ["seq_len.0"; "cache_length"];
            node_output := ["end.0"] |}.
Proof.
  destruct (proj1 (transform_rewires_second_input
                     GraphQuery.get_structural_matches
                     (Decoder.decoder true 20) Decoder.transformed
                     ltac:(vm_compute; reflexivity) 2
                     {| node_name := "/h.0/Add_7"; op_type := "Add";
                        node_input := ["seq_len.0"; "offset"];
                        node_output := ["end.0"] |}
                     ltac:(vm_compute; reflexivity))
                  ltac:(vm_compute; reflexivity))
    as (a & b & rest & Hin & Hnode).
  injection Hin as <- <- <-. exact Hnode.
Defined.

(** A run that passes the count check puts the new input before the last
    of the inputs the graph had, and makes it the only input of a graph that
    had none. *)
Theorem transform_inserts_before_last_input :
  forall (matcher : ModelProto -> MatchingRule -> list MatchResult)
         (m : ModelProto),
    List.length (gather_nodes_of matcher m) = 20 ->
    (input (graph m) = [] ->
     input (graph (snd (transform matcher m))) = [cache_length])
    /\ (forall init last,
           input (graph m) = (init ++ [last])%list ->
           input (graph (snd (transform matcher m)))
           = (init ++ [cache_length; last])%list).
Proof.
  intros matcher m Hlen.
  destruct (transform_cases matcher m) as [[Hne _] | (_ & _ & Hin & _)];
    [contradiction|].
  rewrite Hin. apply insert_before_last.
Qed.

Lemma transform_inserts_before_last_input_witness :
  input (graph Decoder.transformed)
  = [Decoder.value_info "input_ids" [1; 1]%Z; cache_length;
     Decoder.value_info "attention_mask" [1; 1]%Z].
Proof.
  apply (proj2 (transform_inserts_before_last_input
                  GraphQuery.get_structural_matches (Decoder.decoder true 20)
                  ltac:(vm_compute; reflexivity))
           [Decoder.value_info "input_ids" [1; 1]%Z]
           (Decoder.value_info "attention_mask" [1; 1]%Z)).
  reflexivity.
Defined.

End KVCacheRewiring.

(* ===================================================================== *)
(** * Properties of the SparseGPT wrapper                                 *)
(* ===================================================================== *)

Module SGPTFacts.

Import SGPT.

Section Tensors.

Context {R : Type} {B : Backend R}.

Lemma nth_map_seq {A : Type} (f : nat -> A) (n i : nat) (d : A) :
  i < n -> nth i (map f (seq 0 n)) d = f i.
Proof.
  intros Hi.
  rewrite (nth_indep _ d (f 0)) by (rewrite length_map, length_seq; exact Hi).
  rewrite (map_nth f (seq 0 n) 0 i). now rewrite seq_nth.
Qed.

Lemma length_tabulate {A : Type} (n m : nat) (f : nat -> nat -> A) :
  List.length (tabulate n m f) = n.
Proof. unfold tabulate. now rewrite length_map, length_seq. Qed.

Lemma nth_tabulate {A : Type} (n m : nat) (f : nat -> nat -> A) (r : nat) :
  r < n -> nth r (tabulate n m f) [] = map (f r) (seq 0 m).
Proof. intros Hr. unfold tabulate. now rewrite nth_map_seq. Qed.

Lemma get_tabulate (n m : nat) (f : nat -> nat -> R) (r c : nat) :
  r < n -> c < m -> get (tabulate n m f) r c = f r c.
Proof.
  intros Hr Hc. unfold get. rewrite nth_tabulate by exact Hr.
  now rewrite nth_map_seq.
Qed.

Lemma getb_tabulate (n m : nat) (f : nat -> nat -> bool) (r c : nat) :
  r < n -> c < m -> getb (tabulate n m f) r c = f r c.
Proof.
  intros Hr Hc. unfold getb. rewrite nth_tabulate by exact Hr.
  now rewrite nth_map_seq.
Qed.

Lemma row_tabulate (n m : nat) (f : nat -> nat -> R) (r : nat) :
  r < n -> row (tabulate n m f) r = map (f r) (seq 0 m).
Proof. apply nth_tabulate. Qed.

(** Two maps over the same range agree when their functions agree on it. *)
Lemma map_seq_ext {A : Type} (f g : nat -> A) (n : nat) :
  (forall i, i < n -> f i = g i) -> map f (seq 0 n) = map g (seq 0 n).
Proof.
  intros H. apply map_ext_in. intros i Hi. apply in_seq in Hi. apply H. lia.
Qed.

Lemma int32_small (z : Z) :
  (-2147483648 <= z <= INT32_MAX)%Z -> int32 z = z.
Proof.
  unfold int32, INT32_MAX. intros Hz.
  rewrite Z.mod_small by lia. lia.
Qed.

End Tensors.

End SGPTFacts.

Module AddBatchClaims.

Import SGPT SGPTFacts.

Section Steps.

Context {R : Type} {B : Backend R}.

(** The sample count after a call that reached line 87, whatever happened
    after that line. *)
Lemma add_batch_nsamples (w : Wrapper) (inp : Tensor) (tmp : nat) (x : Prepared) :
  prepare (kind (layer w)) inp = inr (tmp, x) ->
  (Z.of_nat tmp <= INT32_MAX)%Z ->
  nsamples (snd (add_batch w inp)) = int32 (nsamples w + Z.of_nat tmp).
Proof.
  intros Hp Ht. unfold add_batch. rewrite Hp.
  destruct (sqrt_two_over (int32 (nsamples w + Z.of_nat tmp))); [|reflexivity].
  destruct x as [f k xs | v | ].
  - destruct (add_broadcast _ _ _ _); reflexivity.
  - reflexivity.
  - reflexivity.
Qed.

Lemma prepare_2d (k : LayerKind) (inp : Tensor) (n f : nat) :
  is_linear_or_conv1d k = true -> shape inp = [n; f] -> 0 < f ->
  prepare k inp
  = inr (1, Samples f (1 * n) (transpose (1 * n) f (view2 (1 * n) f (data inp)))).
Proof.
  intros Hk Hs Hf. unfold prepare. rewrite Hs, Hk.
  destruct (Nat.eqb_spec f 0); [lia | reflexivity].
Qed.

Lemma prepare_3d (k : LayerKind) (inp : Tensor) (b s f : nat) :
  is_linear_or_conv1d k = true -> shape inp = [b; s; f] -> 0 < f ->
  prepare k inp
  = inr (b, Samples f (b * s) (transpose (b * s) f (view2 (b * s) f (data inp)))).
Proof.
  intros Hk Hs Hf. unfold prepare. rewrite Hs, Hk.
  destruct (Nat.eqb_spec f 0); [lia | reflexivity].
Qed.

End Steps.

(** C9: on a [Linear] or [Conv1D] layer a 2-D input of shape (k, features)
    raises the sample count by exactly 1 whatever k is, because the increment
    [tmp] is dimension 0 of the input after it was unsqueezed to 3-D; a 3-D
    input raises the count by its leading dimension.  (The count is an int32
    that does not overflow.) *)
Theorem add_batch_2d_counts_one_sample :
  forall (R : Type) (B : Backend R) (w : Wrapper) (inp : Tensor) (f : nat),
    is_linear_or_conv1d (kind (layer w)) = true ->
    0 < f ->
    (0 <= nsamples w)%Z ->
    (forall k : nat,
        shape inp = [k; f] ->
        (nsamples w + 1 <= INT32_MAX)%Z ->
        (exists x, prepare (kind (layer w)) inp = inr (1, x))
        /\ nsamples (snd (add_batch w inp)) = (nsamples w + 1)%Z)
    /\ (forall b s : nat,
           shape inp = [b; s; f] ->
           (nsamples w + Z.of_nat b <= INT32_MAX)%Z ->
           (exists x, prepare (kind (layer w)) inp = inr (b, x))
           /\ nsamples (snd (add_batch w inp)) = (nsamples w + Z.of_nat b)%Z).
Proof.
  intros R B w inp f Hk Hf Hn. split.
  - intros k Hs Hmax.
    pose proof (@prepare_2d R B _ inp k f Hk Hs Hf) as Hp.
    split; [eexists; exact Hp|].
    rewrite (@add_batch_nsamples R B w inp _ _ Hp) by (unfold INT32_MAX; lia).
    apply int32_small. unfold INT32_MAX in *. lia.
  - intros b s Hs Hmax.
    pose proof (@prepare_3d R B _ inp b s f Hk Hs Hf) as Hp.
    split; [eexists; exact Hp|].
    rewrite (@add_batch_nsamples R B w inp _ _ Hp) by lia.
    apply int32_small. unfold INT32_MAX in *. lia.
Qed.



Lemma add_batch_2d_counts_one_sample_witness :
  nsamples (snd (add_batch Runs.fresh Runs.batch_3x4)) = 1%Z.
Proof.
  apply (proj1 (@add_batch_2d_counts_one_sample F32.t F32.backend
                  Runs.fresh Runs.batch_3x4 4 eq_refl (Nat.lt_0_succ 3)
                  (Z.le_refl 0)) 3 eq_refl).
  vm_compute. discriminate.
Defined.



End AddBatchClaims.

Module PruneFacts.

Import SGPT SGPTFacts.

(** ** Selection of the smallest scores *)

Section Selection.

Context {R : Type} {B : Backend R}.

Lemma insert_index_perm (key : nat -> R) (x : nat) (l : list nat) :
  Permutation (insert_index key x l) (x :: l).
Proof.
  induction l as [|y l IH]; simpl; [apply Permutation_refl|].
  destruct (rleb (key x) (key y)); [apply Permutation_refl|].
  apply Permutation_trans with (y :: x :: l);
    [now apply perm_skip | apply perm_swap].
Qed.

Lemma fold_insert_index_perm (key : nat -> R) (l : list nat) :
  Permutation (fold_right (insert_index key) [] l) l.
Proof.
  induction l as [|x l IH]; simpl; [apply perm_nil|].
  apply Permutation_trans with (x :: fold_right (insert_index key) [] l);
    [apply insert_index_perm | now apply perm_skip].
Qed.

Lemma argsort_perm (scores : list R) :
  Permutation (argsort scores) (seq 0 (List.length scores)).
Proof. apply fold_insert_index_perm. Qed.

Lemma In_firstn {A : Type} (k : nat) (l : list A) (x : A) :
  In x (firstn k l) -> In x l.
Proof.
  revert k. induction l as [|y l IH]; intros [|k]; simpl; try tauto.
  intros [H|H]; [now left | right; now apply (IH k)].
Qed.

Lemma firstn_NoDup {A : Type} (k : nat) (l : list A) : NoDup l -> NoDup (firstn k l).
Proof.
  revert k. induction l as [|x l IH]; intros k Hl; destruct k; simpl;
    try constructor.
  - inversion Hl as [|? ? Hx Hl']; subst.
    intros Hin. apply Hx. now apply (In_firstn k l).
  - inversion Hl; subst. apply IH. assumption.
Qed.

(** [topk] returns [k] distinct positions of the scores. *)
Lemma topk_smallest_spec (k : nat) (scores : list R) :
  k <= List.length scores ->
  NoDup (topk_smallest k scores)
  /\ List.length (topk_smallest k scores) = k
  /\ forall t, In t (topk_smallest k scores) -> t < List.length scores.
Proof.
  intros Hk. unfold topk_smallest.
  pose proof (argsort_perm scores) as Hp.
  split; [|split].
  - apply firstn_NoDup.
    apply (Permutation_NoDup (Permutation_sym Hp)). apply seq_NoDup.
  - rewrite length_firstn, (Permutation_length Hp), length_seq. lia.
  - intros t Ht. apply In_firstn in Ht.
    apply (Permutation_in _ Hp) in Ht. apply in_seq in Ht. lia.
Qed.

(** ** Sorting *)

Lemma insert_sorted_perm (x : R) (l : list R) :
  Permutation (insert_sorted x l) (x :: l).
Proof.
  induction l as [|y l IH]; simpl; [apply Permutation_refl|].
  destruct (rleb x y); [apply Permutation_refl|].
  apply Permutation_trans with (y :: x :: l);
    [now apply perm_skip | apply perm_swap].
Qed.

Lemma sort_perm (l : list R) : Permutation (sort l) l.
Proof.
  induction l as [|x l IH]; simpl; [apply perm_nil|].
  apply Permutation_trans with (x :: sort l);
    [apply insert_sorted_perm | now apply perm_skip].
Qed.

(** What [comparable] says, as propositions. *)
Lemma comparable_total (l : list R) (x y : R) :
  comparable l = true -> In x l -> In y l -> rleb x y = true \/ rleb y x = true.
Proof.
  unfold comparable. intros H Hx Hy.
  apply andb_true_iff in H. destruct H as [H _].
  rewrite forallb_forall in H. specialize (H x Hx).
  rewrite forallb_forall in H. specialize (H y Hy).
  now apply orb_true_iff in H.
Qed.

Lemma comparable_trans (l : list R) (x y z : R) :
  comparable l = true -> In x l -> In y l -> In z l ->
  rleb x y = true -> rleb y z = true -> rleb x z = true.
Proof.
  unfold comparable. intros H Hx Hy Hz Hxy Hyz.
  apply andb_true_iff in H. destruct H as [_ H].
  rewrite forallb_forall in H. specialize (H x Hx).
  rewrite forallb_forall in H. specialize (H y Hy).
  rewrite forallb_forall in H. specialize (H z Hz).
  rewrite Hxy, Hyz in H. exact H.
Qed.

Lemma insert_sorted_ascending (all : list R) (x : R) (l : list R) :
  comparable all = true -> In x all -> incl l all ->
  ascending l -> ascending (insert_sorted x l).
Proof.
  intros Hc Hx. induction l as [|y l IH]; intros Hl Hasc; simpl.
  - split; [constructor | exact I].
  - destruct Hasc as [Hy Hasc].
    assert (Hyin : In y all) by (apply Hl; now left).
    assert (Hl' : incl l all) by (intros z Hz; apply Hl; now right).
    destruct (rleb x y) eqn:Exy.
    + split; [|split; assumption].
      constructor; [exact Exy|].
      rewrite Forall_forall in *. intros z Hz.
      apply (comparable_trans all x y z Hc Hx Hyin (Hl' z Hz) Exy (Hy z Hz)).
    + assert (Hyx : rleb y x = true).
      { destruct (comparable_total all x y Hc Hx Hyin) as [H|H];
          [congruence | exact H]. }
      split; [|now apply IH].
      rewrite Forall_forall in *. intros z Hz.
      apply (Permutation_in _ (insert_sorted_perm x l)) in Hz.
      destruct Hz as [<- | Hz]; [exact Hyx | now apply Hy].
Qed.

Lemma sort_ascending_incl (all l : list R) :
  comparable all = true -> incl l all -> ascending (sort l).
Proof.
  intros Hc. induction l as [|x l IH]; intros Hl; simpl; [exact I|].
  apply (insert_sorted_ascending all); try assumption.
  - apply Hl. now left.
  - intros z Hz. apply (Permutation_in _ (sort_perm l)) in Hz. apply Hl. now right.
  - apply IH. intros z Hz. apply Hl. now right.
Qed.

Lemma sort_ascending (l : list R) : comparable l = true -> ascending (sort l).
Proof. intros Hc. apply (sort_ascending_incl l l Hc). apply incl_refl. Qed.

(** In an ascending list the first [k + 1] entries are [<=] the entry at
    position [k]. *)
Lemma ascending_prefix (l : list R) :
  ascending l -> (forall x, In x l -> rleb x x = true) ->
  forall (k : nat) (t : R),
    nth_error l k = Some t ->
    Forall (fun x => rleb x t = true) (firstn (S k) l).
Proof.
  induction l as [|y l IH]; intros Hasc Hrefl k t Hk.
  - destruct k; discriminate.
  - destruct Hasc as [Hy Hasc]. destruct k as [|k]; simpl in *.
    + injection Hk as <-. constructor; [|destruct l; constructor].
      apply Hrefl. now left.
    + constructor.
      * rewrite Forall_forall in Hy. apply Hy. eapply nth_error_In; eassumption.
      * apply IH; try assumption. intros x Hx. apply Hrefl. now right.
Qed.

Lemma filter_length_perm (p : R -> bool) (l l' : list R) :
  Permutation l l' -> List.length (filter p l) = List.length (filter p l').
Proof.
  induction 1; simpl; try reflexivity.
  - destruct (p x); simpl; congruence.
  - destruct (p x), (p y); reflexivity.
  - congruence.
Qed.

Lemma filter_length_prefix (p : R -> bool) (k : nat) (l : list R) :
  k <= List.length l -> Forall (fun x => p x = true) (firstn k l) ->
  k <= List.length (filter p l).
Proof.
  intros Hk Hall.
  rewrite <- (firstn_skipn k l) at 1. rewrite filter_app, length_app.
  assert (Hf : filter p (firstn k l) = firstn k l).
  { apply forallb_filter_id. apply forallb_forall.
    rewrite Forall_forall in Hall. exact Hall. }
  rewrite Hf, length_firstn. lia.
Qed.

(** The threshold at position [k] of the sorted scores leaves at least
    [k + 1] scores [<=] it. *)
Lemma threshold_count (l : list R) (k : nat) (thresh : R) :
  comparable l = true ->
  nth_error (sort l) k = Some thresh ->
  S k <= List.length (filter (fun x => rleb x thresh) l).
Proof.
  intros Hc Hk.
  rewrite <- (filter_length_perm _ _ _ (sort_perm l)).
  apply filter_length_prefix.
  - apply Nat.le_succ_l. apply nth_error_Some. congruence.
  - apply ascending_prefix; [now apply sort_ascending | | exact Hk].
    intros x Hx. apply (Permutation_in _ (sort_perm l)) in Hx.
    destruct (comparable_total l x x Hc Hx Hx); assumption.
Qed.

End Selection.

(** ** The loop over the columns of a block *)

Section Columns.

Context {R : Type} {B : Backend R}.
Variables (nrows count : nat) (Hinv1 : Matrix R) (prunen prunem : nat).

Local Abbreviation step := (col_step nrows count Hinv1 prunen prunem None).
Local Abbreviation loop := (col_loop nrows count Hinv1 prunen prunem None).
Local Abbreviation select := (select_group nrows count Hinv1 prunen prunem).
Local Abbreviation scores := (group_scores count Hinv1 prunem).

Lemma col_loop_app (l1 l2 : list nat) (st : BlockState) :
  loop (l1 ++ l2) st
  = match loop l1 st with
    | inl e => inl e
    | inr st1 => loop l2 st1
    end.
Proof.
  revert st. induction l1 as [|i l1 IH]; intros st; simpl; [reflexivity|].
  destruct (step st i); [reflexivity | apply IH].
Qed.

Lemma select_group_spec (w1 : Matrix R) (mask mask' : list (list bool)) (i : nat) :
  select w1 mask i = inr mask' ->
  prunen <= Nat.min prunem (count - i)
  /\ forall r c, r < nrows -> c < count ->
       getb mask' r c
       = getb mask r c
         || existsb (Nat.eqb c)
              (map (Nat.add i) (topk_smallest prunen (scores w1 i r))).
Proof.
  unfold select_group.
  destruct (Nat.ltb_spec (Nat.min prunem (count - i)) prunen) as [Hlt|Hle];
    [discriminate|].
  intros H. injection H as <-. split; [exact Hle|].
  intros r c Hr Hc. now rewrite getb_tabulate.
Qed.

(** What one pass does to the mask and to [Q1]. *)
Lemma col_step_inv (st st' : BlockState) (i : nat) :
  step st i = inr st' ->
  (mask1 st' = mask1 st
   \/ (prunen <> 0 /\ prunem <> 0 /\ i mod prunem = 0
       /\ select (W1 st) (mask1 st) i = inr (mask1 st')))
  /\ forall r c, r < nrows -> c < count ->
       get (Q1 st') r c
       = if (c =? i)%nat
         then (if getb (mask1 st') r i then rzero else get (W1 st) r i)
         else get (Q1 st) r c.
Proof.
  unfold col_step.
  set (mask_res := if negb (prunen =? 0)%nat then _ else _).
  destruct mask_res as [e|mask] eqn:Em; [discriminate|].
  intros H. injection H as <-. simpl. split.
  - subst mask_res.
    destruct (Nat.eqb_spec prunen 0) as [Hn|Hn]; simpl in Em.
    + left. now injection Em.
    + destruct (Nat.eqb_spec prunem 0) as [Hm|Hm]; [discriminate|].
      destruct (Nat.eqb_spec (i mod prunem) 0) as [Hi|Hi].
      * right. repeat split; assumption.
      * left. now injection Em.
  - intros r c Hr Hc. rewrite get_tabulate by assumption.
    destruct (c =? i)%nat; [|reflexivity].
    rewrite nth_map_seq by assumption.
    unfold col. now rewrite nth_map_seq.
Qed.

Lemma existsb_shifted_below (i c : nat) (idx : list nat) :
  c < i -> existsb (Nat.eqb c) (map (Nat.add i) idx) = false.
Proof.
  intros Hc. induction idx as [|t idx IH]; simpl; [reflexivity|].
  rewrite IH, orb_false_r. apply Nat.eqb_neq. lia.
Qed.

(** A pass at column [i] leaves the mask of the columns before [i]. *)
Lemma col_step_mask_before (st st' : BlockState) (i : nat) :
  step st i = inr st' ->
  forall r c, r < nrows -> c < count -> c < i ->
    getb (mask1 st') r c = getb (mask1 st) r c.
Proof.
  intros H r c Hr Hc Hci.
  destruct (col_step_inv st st' i H) as [[Hm | (_ & _ & _ & Hs)] _].
  - now rewrite Hm.
  - destruct (select_group_spec _ _ _ _ Hs) as [_ Hg].
    rewrite (Hg r c Hr Hc), existsb_shifted_below by exact Hci.
    apply orb_false_r.
Qed.

(** The mask only grows. *)
Lemma col_step_mask_mono (st st' : BlockState) (i : nat) :
  step st i = inr st' ->
  forall r c, r < nrows -> c < count ->
    getb (mask1 st) r c = true -> getb (mask1 st') r c = true.
Proof.
  intros H r c Hr Hc Ht.
  destruct (col_step_inv st st' i H) as [[Hm | (_ & _ & _ & Hs)] _].
  - now rewrite Hm.
  - destruct (select_group_spec _ _ _ _ Hs) as [_ Hg].
    now rewrite (Hg r c Hr Hc), Ht.
Qed.

Lemma col_loop_mask_mono (l : list nat) :
  forall st st', loop l st = inr st' ->
    forall r c, r < nrows -> c < count ->
      getb (mask1 st) r c = true -> getb (mask1 st') r c = true.
Proof.
  induction l as [|i l IH]; intros st st' H r c Hr Hc Ht; simpl in H.
  - injection H as <-. exact Ht.
  - destruct (step st i) as [e|st1] eqn:E; [discriminate|].
    apply (IH st1 st' H r c Hr Hc).
    apply (col_step_mask_mono st st1 i E r c Hr Hc Ht).
Qed.

(** Without N:M pruning the mask of the block never changes. *)
Lemma col_loop_mask_const (l : list nat) :
  prunen = 0 ->
  forall st st', loop l st = inr st' -> mask1 st' = mask1 st.
Proof.
  intros Hn. induction l as [|i l IH]; intros st st' H; simpl in H.
  - now injection H as <-.
  - destruct (step st i) as [e|st1] eqn:E; [discriminate|].
    rewrite (IH st1 st' H).
    destruct (col_step_inv st st1 i E) as [[Hm | (Hne & _)] _];
      [exact Hm | contradiction].
Qed.

Lemma col_step_zeroed (st st' : BlockState) (i : nat) :
  zeroed nrows count i st -> step st i = inr st' -> zeroed nrows count (S i) st'.
Proof.
  intros Hz H r c Hr Hc Hlo Hm.
  destruct (col_step_inv st st' i H) as [_ Hq].
  rewrite (Hq r c Hr Hc).
  destruct (Nat.eqb_spec c i) as [->|Hne].
  - now rewrite Hm.
  - assert (Hci : c < i) by lia.
    apply (Hz r c Hr Hc Hci).
    now rewrite <- (col_step_mask_before st st' i H r c Hr Hc Hci).
Qed.

Lemma col_loop_zeroed (len : nat) :
  forall a st st',
    zeroed nrows count a st -> loop (seq a len) st = inr st' -> zeroed nrows count (a + len) st'.
Proof.
  induction len as [|len IH]; intros a st st' Hz H; simpl in H.
  - injection H as <-. now rewrite Nat.add_0_r.
  - destruct (step st a) as [e|st1] eqn:E; [discriminate|].
    rewrite Nat.add_succ_r, <- Nat.add_succ_l.
    apply (IH (S a) st1 st'); [|exact H].
    apply (col_step_zeroed st st1 a Hz E).
Qed.

(** The pass at the first column [g] of a group marks [prunen] distinct
    columns of the group in every row. *)
Lemma col_step_selects (st st' : BlockState) (g : nat) :
  prunen <> 0 -> g mod prunem = 0 -> g < count ->
  step st g = inr st' ->
  forall r, r < nrows ->
    exists idx : list nat,
      NoDup idx /\ List.length idx = prunen
      /\ forall t, In t idx ->
           t < Nat.min prunem (count - g) /\ getb (mask1 st') r (g + t) = true.
Proof.
  intros Hn Hg Hgc H r Hr.
  assert (Hs : select (W1 st) (mask1 st) g = inr (mask1 st')).
  { revert H. unfold col_step.
    destruct (Nat.eqb_spec prunen 0) as [|_]; [contradiction|]. simpl negb. cbv iota.
    destruct (Nat.eqb_spec prunem 0) as [|_]; [discriminate|].
    rewrite Hg. simpl.
    destruct (select (W1 st) (mask1 st) g) as [e|mask]; [discriminate|].
    intros H. now injection H as <-. }
  destruct (select_group_spec _ _ _ _ Hs) as [Hle Hmask].
  assert (Hlen : List.length (scores (W1 st) g r) = Nat.min prunem (count - g)).
  { unfold group_scores. now rewrite length_map, length_seq. }
  destruct (topk_smallest_spec prunen (scores (W1 st) g r)) as (Hnd & Hl & Hr').
  { now rewrite Hlen. }
  exists (topk_smallest prunen (scores (W1 st) g r)).
  split; [exact Hnd|]. split; [exact Hl|].
  intros t Ht. specialize (Hr' t Ht). rewrite Hlen in Hr'.
  split; [exact Hr'|].
  rewrite Hmask by lia.
  apply orb_true_iff. right. apply existsb_exists.
  exists (g + t). split; [apply in_map; exact Ht | apply Nat.eqb_refl].
Qed.

(** After the loop, every group that started at a column [g] has [prunen]
    distinct entries of [Q1] that are zero, in every row. *)
Lemma col_loop_group_zeros (st0 stf : BlockState) (g : nat) :
  prunen <> 0 -> g mod prunem = 0 -> g < count ->
  loop (seq 0 count) st0 = inr stf ->
  forall r, r < nrows ->
    exists idx : list nat,
      NoDup idx /\ List.length idx = prunen
      /\ forall t, In t idx ->
           t < Nat.min prunem (count - g) /\ get (Q1 stf) r (g + t) = rzero.
Proof.
  intros Hn Hg Hgc H r Hr.
  assert (Hz : zeroed nrows count count stf).
  { apply (col_loop_zeroed count 0 st0 stf); [|exact H].
    intros ? ? _ _ Hc. lia. }
  assert (Hsplit : seq 0 count = (seq 0 g ++ g :: seq (S g) (count - S g))%list).
  { replace count with (g + S (count - S g)) at 1 by lia.
    rewrite seq_app. reflexivity. }
  rewrite Hsplit, col_loop_app in H.
  destruct (loop (seq 0 g) st0) as [e|st1]; [discriminate|].
  simpl in H.
  destruct (step st1 g) as [e|st2] eqn:E; [discriminate|].
  destruct (col_step_selects st1 st2 g Hn Hg Hgc E r Hr) as (idx & Hnd & Hl & Hidx).
  exists idx. split; [exact Hnd|]. split; [exact Hl|].
  intros t Ht. destruct (Hidx t Ht) as [Hlt Hm]. split; [exact Hlt|].
  apply Hz; try lia.
  apply (col_loop_mask_mono _ _ _ H); [exact Hr | lia | exact Hm].
Qed.

(** Without N:M pruning, every entry that the block's mask marks is zero in
    [Q1] after the loop. *)
Lemma col_loop_masked_zero (st0 stf : BlockState) :
  prunen = 0 ->
  loop (seq 0 count) st0 = inr stf ->
  forall r c, r < nrows -> c < count ->
    getb (mask1 st0) r c = true -> get (Q1 stf) r c = rzero.
Proof.
  intros Hn H r c Hr Hc Hm.
  assert (Hz : zeroed nrows count count stf).
  { apply (col_loop_zeroed count 0 st0 stf); [|exact H].
    intros ? ? _ _ Hc'. lia. }
  apply Hz; try assumption.
  now rewrite (col_loop_mask_const _ Hn _ _ H).
Qed.

End Columns.

(** ** Counting *)

Section Counting.

Lemma filter_map_length {A C : Type} (p : C -> bool) (f : A -> C) (l : list A) :
  List.length (filter p (map f l)) = List.length (filter (fun x => p (f x)) l).
Proof.
  induction l as [|x l IH]; simpl; [reflexivity|].
  destruct (p (f x)); simpl; now rewrite IH.
Qed.

(** As many marked positions, as many entries that pass the test. *)
Lemma filter_count_positions {C : Type} (p : C -> bool) (f : nat -> C) (m : nat)
      (idx : list nat) :
  NoDup idx ->
  (forall t, In t idx -> t < m /\ p (f t) = true) ->
  List.length idx <= List.length (filter p (map f (seq 0 m))).
Proof.
  intros Hnd Hidx. rewrite filter_map_length.
  apply NoDup_incl_length; [exact Hnd|].
  intros t Ht. destruct (Hidx t Ht) as [Hlt Hp].
  apply filter_In. split; [apply in_seq; lia | exact Hp].
Qed.

Lemma filter_map_le {A C D : Type} (p : C -> bool) (q : D -> bool)
      (f : A -> C) (g : A -> D) (l : list A) :
  (forall x, In x l -> p (f x) = true -> q (g x) = true) ->
  List.length (filter p (map f l)) <= List.length (filter q (map g l)).
Proof.
  induction l as [|x l IH]; intros H; simpl; [lia|].
  assert (IH' : List.length (filter p (map f l)) <= List.length (filter q (map g l))).
  { apply IH. intros y Hy. apply H. now right. }
  destruct (p (f x)) eqn:Ep.
  - rewrite (H x (or_introl eq_refl) Ep). simpl. lia.
  - destruct (q (g x)); simpl; lia.
Qed.

End Counting.

Section Rectangular.

Context {R : Type} {B : Backend R}.


Lemma rect_tabulate (n m : nat) (f : nat -> nat -> R) : rect n m (tabulate n m f).
Proof.
  split; [apply length_tabulate|].
  unfold tabulate. apply Forall_forall. intros r Hr.
  apply in_map_iff in Hr. destruct Hr as (i & <- & _).
  now rewrite length_map, length_seq.
Qed.

Lemma concat_length (n m : nat) (M : Matrix R) :
  rect n m M -> List.length (List.concat M) = n * m.
Proof.
  revert n. induction M as [|r M IH]; intros n [Hn Hall]; simpl in *.
  - now subst n.
  - inversion Hall as [|? ? Hr Hall']; subst.
    rewrite length_app, (IH (List.length M)); [simpl; lia | split; auto].
Qed.

(** Row-major addressing of a rectangular matrix. *)
Lemma concat_nth (n m : nat) (M : Matrix R) (d : R) :
  rect n m M ->
  forall r c, r < n -> c < m ->
    nth (r * m + c) (List.concat M) d = nth c (nth r M []) d.
Proof.
  revert n. induction M as [|r0 M IH]; intros n [Hn Hall] r c Hr Hc; simpl in *.
  - subst n. lia.
  - inversion Hall as [|? ? Hr0 Hall']; subst.
    destruct r as [|r]; simpl.
    + apply app_nth1. lia.
    + rewrite app_nth2 by lia.
      replace (List.length r0 + r * List.length r0 + c - List.length r0)
        with (r * List.length r0 + c) by lia.
      apply (IH (List.length M)); [split; auto | lia | exact Hc].
Qed.

Lemma nth_map_in {C D : Type} (f : C -> D) (l : list C) (i : nat) (d : D) (d' : C) :
  i < List.length l -> nth i (map f l) d = f (nth i l d').
Proof.
  intros Hi. rewrite (nth_indep _ d (f d')) by (now rewrite length_map).
  apply map_nth.
Qed.

(** The stored weight, read back as [W], is the cast of the matrix that was
    stored. *)
Lemma weight_matrix_store (l : Layer) (n m : nat) (W : Matrix R) :
  matrix_shape l = Some (n, m) -> rect n m W ->
  forall r c, r < n -> c < m ->
    get (weight_matrix (store_weight l n m W)) r c = to_dtype (dtype l) (get W r c).
Proof.
  intros Hs HW r c Hr Hc.
  assert (Hs' : matrix_shape (store_weight l n m W) = Some (n, m)) by exact Hs.
  unfold weight_matrix. rewrite Hs'.
  assert (Hk : kind (store_weight l n m W) = kind l) by reflexivity.
  rewrite Hk. unfold store_weight. cbn [weight data].
  destruct (kind l) eqn:Ek.
  1, 2, 4:
    unfold view2; rewrite get_tabulate by assumption;
    rewrite (nth_map_in _ _ _ _ rzero)
      by (rewrite (concat_length n m W HW); nia);
    f_equal; apply (concat_nth n m W rzero HW r c Hr Hc).
  unfold transpose at 1. rewrite get_tabulate by assumption.
  unfold view2. rewrite get_tabulate by assumption.
  assert (Ht : rect m n (transpose n m W)) by apply rect_tabulate.
  rewrite (nth_map_in _ _ _ _ rzero)
    by (rewrite (concat_length m n (transpose n m W) Ht); nia).
  f_equal.
  rewrite (concat_nth m n (transpose n m W) rzero Ht c r Hc Hr).
  fold (get (transpose n m W) c r). unfold transpose.
  now rewrite get_tabulate.
Qed.

End Rectangular.

(** ** The loop over the blocks *)

Section BlocksLoop.

Context {R : Type} {B : Backend R}.
Variables (nrows ncols blocksize : nat) (sparsity : PyFloat.t).
Variables (prunen prunem : nat) (Hinv : Matrix R).

Local Abbreviation block := (prune_block nrows ncols blocksize sparsity prunen prunem None Hinv).
Local Abbreviation blocks := (blocks_loop nrows ncols blocksize sparsity prunen prunem None Hinv).

(** What one pass over a block returns. *)
Lemma prune_block_inv (W W' : Matrix R) (i1 : nat) :
  block W i1 = inr W' ->
  exists (mask : list (list bool)) (st0 stf : BlockState),
    initial_mask nrows sparsity prunen Hinv W i1 (block_end ncols blocksize i1 - i1) = inr mask
    /\ mask1 st0 = mask
    /\ col_loop nrows (block_end ncols blocksize i1 - i1)
                (block_Hinv ncols blocksize Hinv i1) prunen prunem None
                (seq 0 (block_end ncols blocksize i1 - i1)) st0 = inr stf
    /\ rect nrows ncols W'
    /\ forall r j, r < nrows -> j < ncols ->
         get W' r j
         = if (j <? i1)%nat then get W r j
           else if (j <? block_end ncols blocksize i1)%nat then get (Q1 stf) r (j - i1)
           else rsub (get W r j)
                     (rdot (row (Err1 stf) r)
                           (map (fun a => get Hinv (i1 + a) j)
                                (seq 0 (block_end ncols blocksize i1 - i1)))).
Proof.
  unfold prune_block. fold (block_end ncols blocksize i1).
  fold (block_Hinv ncols blocksize Hinv i1).
  destruct (initial_mask nrows sparsity prunen Hinv W i1 (block_end ncols blocksize i1 - i1))
    as [e|mask]; [discriminate|].
  match goal with
  | |- match col_loop _ _ _ _ _ _ _ ?s with _ => _ end = _ -> _ =>
      set (st0 := s)
  end.
  destruct (col_loop nrows (block_end ncols blocksize i1 - i1)
              (block_Hinv ncols blocksize Hinv i1) prunen prunem None
              (seq 0 (block_end ncols blocksize i1 - i1)) st0)
    as [e|stf] eqn:El; [discriminate|].
  intros H. injection H as <-.
  exists mask, st0, stf. split; [reflexivity|]. split; [reflexivity|].
  split; [exact El|]. split; [apply rect_tabulate|].
  intros r j Hr Hj. now rewrite get_tabulate.
Qed.

Lemma prune_block_before (W W' : Matrix R) (i1 : nat) :
  block W i1 = inr W' ->
  forall r j, r < nrows -> j < ncols -> j < i1 -> get W' r j = get W r j.
Proof.
  intros H r j Hr Hj Hlt.
  destruct (prune_block_inv W W' i1 H) as (mask & st0 & stf & _ & _ & _ & _ & Hget).
  rewrite (Hget r j Hr Hj).
  destruct (Nat.ltb_spec j i1); [reflexivity | lia].
Qed.

(** N:M pruning: every group of the block has [prunen] zeros in each row. *)
Lemma prune_block_group_zeros (W W' : Matrix R) (i1 g : nat) :
  prunen <> 0 -> g mod prunem = 0 -> g < block_end ncols blocksize i1 - i1 ->
  block W i1 = inr W' ->
  forall r, r < nrows ->
    exists idx : list nat,
      NoDup idx /\ List.length idx = prunen
      /\ forall t, In t idx -> t < prunem /\ get W' r (i1 + g + t) = rzero.
Proof.
  intros Hn Hg Hgc H r Hr.
  destruct (prune_block_inv W W' i1 H) as (mask & st0 & stf & _ & _ & Hl & _ & Hget).
  destruct (col_loop_group_zeros nrows _ _ prunen prunem st0 stf g Hn Hg Hgc Hl r Hr)
    as (idx & Hnd & Hlen & Hidx).
  exists idx. split; [exact Hnd|]. split; [exact Hlen|].
  intros t Ht. destruct (Hidx t Ht) as [Hlt Hq].
  split; [lia|].
  assert (Hend : block_end ncols blocksize i1 <= ncols) by (unfold block_end; lia).
  rewrite Hget by lia.
  destruct (Nat.ltb_spec (i1 + g + t) i1); [lia|].
  destruct (Nat.ltb_spec (i1 + g + t) (block_end ncols blocksize i1)); [|lia].
  replace (i1 + g + t - i1) with (g + t) by lia. exact Hq.
Qed.

(** Unstructured pruning: the block has a threshold, and every entry whose
    score is [<=] it is zero. *)
Lemma prune_block_threshold (W W' : Matrix R) (i1 : nat) :
  prunen = 0 ->
  block W i1 = inr W' ->
  let count := block_end ncols blocksize i1 - i1 in
  let tmp := block_scores nrows Hinv W i1 count in
  exists thresh : R,
    threshold tmp (nrows * count) sparsity = inr thresh
    /\ forall r c, r < nrows -> c < count ->
         rleb (get tmp r c) thresh = true -> get W' r (i1 + c) = rzero.
Proof.
  intros Hn H count tmp.
  destruct (prune_block_inv W W' i1 H) as (mask & st0 & stf & Hm & Hm0 & Hl & _ & Hget).
  unfold initial_mask in Hm. rewrite Hn in Hm. simpl in Hm.
  fold count in Hm. fold tmp in Hm.
  destruct (threshold tmp (nrows * count) sparsity) as [e|thresh]; [discriminate|].
  injection Hm as Hm. exists thresh. split; [reflexivity|].
  intros r c Hr Hc Hle.
  assert (Hend : block_end ncols blocksize i1 <= ncols) by (unfold block_end; lia).
  rewrite Hget by (fold count in Hc; lia).
  destruct (Nat.ltb_spec (i1 + c) i1); [lia|].
  destruct (Nat.ltb_spec (i1 + c) (block_end ncols blocksize i1)); [|fold count in Hc; lia].
  replace (i1 + c - i1) with c by lia.
  apply (col_loop_masked_zero nrows count (block_Hinv ncols blocksize Hinv i1)
           prunen prunem st0 stf Hn Hl r c Hr Hc).
  rewrite Hm0, <- Hm. now rewrite getb_tabulate.
Qed.

Lemma blocks_loop_app (l1 l2 : list nat) (W : Matrix R) :
  blocks (l1 ++ l2) W
  = match blocks l1 W with
    | inl e => inl e
    | inr W1 => blocks l2 W1
    end.
Proof.
  revert W. induction l1 as [|i l1 IH]; intros W; simpl; [reflexivity|].
  destruct (block W i); [reflexivity | apply IH].
Qed.

(** Blocks that start at [lo] or later leave the columns before [lo]. *)
Lemma blocks_loop_before (lo : nat) (starts : list nat) :
  (forall s, In s starts -> lo <= s) ->
  forall W W', blocks starts W = inr W' ->
    forall r j, r < nrows -> j < ncols -> j < lo -> get W' r j = get W r j.
Proof.
  induction starts as [|i1 starts IH]; intros Hlo W W' H r j Hr Hj Hlt; simpl in H.
  - now injection H as <-.
  - destruct (block W i1) as [e|W1] eqn:E; [discriminate|].
    rewrite (IH (fun s Hs => Hlo s (or_intror Hs)) W1 W' H r j Hr Hj Hlt).
    apply (prune_block_before W W1 i1 E r j Hr Hj).
    specialize (Hlo i1 (or_introl eq_refl)). lia.
Qed.

Lemma blocks_loop_rect (starts : list nat) :
  forall W W', rect nrows ncols W -> blocks starts W = inr W' -> rect nrows ncols W'.
Proof.
  induction starts as [|i1 starts IH]; intros W W' HW H; simpl in H.
  - now injection H as <-.
  - destruct (block W i1) as [e|W1] eqn:E; [discriminate|].
    apply (IH W1 W'); [|exact H].
    now destruct (prune_block_inv W W1 i1 E) as (mask & st0 & stf & _ & _ & _ & Hr & _).
Qed.

(** The pass over block number [p]: the state of [W] before it, and what the
    later passes keep of its result. *)
Lemma blocks_loop_at (p : nat) (W W' : Matrix R) :
  0 < blocksize ->
  p * blocksize < ncols ->
  blocks (block_starts ncols blocksize) W = inr W' ->
  exists Wp Wq : Matrix R,
    blocks (firstn p (block_starts ncols blocksize)) W = inr Wp
    /\ block Wp (p * blocksize) = inr Wq
    /\ forall r j, r < nrows -> j < ncols -> j < block_end ncols blocksize (p * blocksize) ->
         get W' r j = get Wq r j.
Proof.
  intros Hbs Hp H.
  set (nb := (ncols + blocksize - 1) / blocksize) in *.
  assert (Hpn : p < nb).
  { unfold nb. apply Nat.div_le_lower_bound; nia. }
  assert (Hsplit : block_starts ncols blocksize
                   = (firstn p (block_starts ncols blocksize)
                      ++ p * blocksize
                      :: map (fun k => k * blocksize) (seq (S p) (nb - S p)))%list).
  { unfold block_starts. fold nb.
    replace nb with (p + S (nb - S p)) at 1 2 by lia.
    rewrite seq_app, map_app. simpl seq. simpl map.
    rewrite firstn_app, firstn_all2 by (rewrite length_map, length_seq; lia).
    rewrite length_map, length_seq, Nat.sub_diag. simpl firstn.
    now rewrite app_nil_r. }
  rewrite Hsplit, blocks_loop_app in H.
  destruct (blocks (firstn p (block_starts ncols blocksize)) W) as [e|Wp]; [discriminate|].
  simpl in H.
  destruct (block Wp (p * blocksize)) as [e|Wq] eqn:E; [discriminate|].
  exists Wp, Wq. split; [reflexivity|]. split; [exact E|].
  intros r j Hr Hj Hlt.
  apply (blocks_loop_before (block_end ncols blocksize (p * blocksize))
           (map (fun k => k * blocksize) (seq (S p) (nb - S p))))
    with (W := Wq); try assumption.
  intros s Hs. apply in_map_iff in Hs. destruct Hs as (k & <- & Hk).
  apply in_seq in Hk. unfold block_end. nia.
Qed.

End BlocksLoop.

(** ** Scores without ties *)

Section Ties.
Context {R : Type} {B : Backend R}.







(** As many entries pass a test as there are positions that it marks. *)
Lemma filter_positions_length (m : nat) (idx : list nat) :
  NoDup idx -> (forall t, In t idx -> t < m) ->
  List.length (filter (fun t => existsb (Nat.eqb t) idx) (seq 0 m)) = List.length idx.
Proof.
  intros Hnd Hidx. apply Permutation_length. apply NoDup_Permutation.
  - apply NoDup_filter, seq_NoDup.
  - exact Hnd.
  - intros t. rewrite filter_In, in_seq, existsb_exists. split.
    + intros [_ (x & Hx & E)]. apply Nat.eqb_eq in E. now subst.
    + intros Ht. split; [specialize (Hidx t Ht); lia|].
      exists t. split; [exact Ht | apply Nat.eqb_refl].
Qed.

End Ties.

(** ** The marks of a group *)

Section GroupMask.

Context {R : Type} {B : Backend R}.
Variables (nrows count : nat) (Hinv1 : Matrix R) (prunen prunem : nat).

Local Abbreviation step := (col_step nrows count Hinv1 prunen prunem None).
Local Abbreviation loop := (col_loop nrows count Hinv1 prunen prunem None).
Local Abbreviation select := (select_group nrows count Hinv1 prunen prunem).
Local Abbreviation scores := (group_scores count Hinv1 prunem).

Lemma existsb_shifted (i c : nat) (idx : list nat) :
  existsb (Nat.eqb c) (map (Nat.add i) idx) = true ->
  exists t, In t idx /\ c = i + t.
Proof.
  intros H. apply existsb_exists in H. destruct H as (x & Hx & E).
  apply Nat.eqb_eq in E. subst x. apply in_map_iff in Hx.
  destruct Hx as (t & <- & Ht). now exists t.
Qed.

Lemma col_step_marked_behind (st st' : BlockState) (i : nat) :
  marked_behind nrows count prunem i st -> step st i = inr st' -> marked_behind nrows count prunem (S i) st'.
Proof.
  intros Hb H r c Hr Hc Hm.
  destruct (col_step_inv nrows count Hinv1 prunen prunem st st' i H)
    as [[Hsame | (Hn & Hm0 & Hi & Hs)] _].
  - rewrite Hsame in Hm. destruct (Hb r c Hr Hc Hm) as (g & Hg & Hlt & Hgc).
    exists g. repeat split; lia.
  - destruct (select_group_spec nrows count Hinv1 prunen prunem _ _ _ _ Hs)
      as [Hle Hmask].
    rewrite (Hmask r c Hr Hc) in Hm. apply orb_true_iff in Hm.
    destruct Hm as [Hm | Hm].
    + destruct (Hb r c Hr Hc Hm) as (g & Hg & Hlt & Hgc).
      exists g. repeat split; lia.
    + destruct (existsb_shifted _ _ _ Hm) as (t & Ht & ->).
      assert (Hlen : List.length (scores (W1 st) i r) = Nat.min prunem (count - i)).
      { unfold group_scores. now rewrite length_map, length_seq. }
      destruct (topk_smallest_spec prunen (scores (W1 st) i r)) as (_ & _ & Hr').
      { now rewrite Hlen. }
      specialize (Hr' t Ht). rewrite Hlen in Hr'.
      exists i. repeat split; lia.
Qed.

Lemma col_loop_marked_behind (len : nat) :
  forall a st st',
    marked_behind nrows count prunem a st -> loop (seq a len) st = inr st' -> marked_behind nrows count prunem (a + len) st'.
Proof.
  induction len as [|len IH]; intros a st st' Hb H; simpl in H.
  - injection H as <-. now rewrite Nat.add_0_r.
  - destruct (step st a) as [e|st1] eqn:E; [discriminate|].
    rewrite Nat.add_succ_r, <- Nat.add_succ_l.
    apply (IH (S a) st1 st'); [|exact H].
    apply (col_step_marked_behind st st1 a Hb E).
Qed.

(** Two group starts: the earlier group ends before the later one begins. *)
Lemma groups_apart (g g' : nat) :
  prunem <> 0 -> g mod prunem = 0 -> g' mod prunem = 0 -> g' < g -> g' + prunem <= g.
Proof.
  intros Hm Hg Hg' Hlt.
  pose proof (Nat.div_mod_eq g prunem) as E. rewrite Hg in E.
  pose proof (Nat.div_mod_eq g' prunem) as E'. rewrite Hg' in E'.
  set (a := g / prunem) in *. set (b := g' / prunem) in *.
  assert (Hab : S b <= a).
  { destruct (Nat.le_gt_cases a b) as [Hle|Hgt]; [|exact Hgt].
    pose proof (Nat.mul_le_mono_l a b prunem Hle). lia. }
  pose proof (Nat.mul_le_mono_l (S b) a prunem Hab). lia.
Qed.

(** Inside a group, only its first column is a multiple of [prunem]. *)
Lemma inside_group (g i : nat) :
  prunem <> 0 -> g mod prunem = 0 -> g < i < g + prunem -> i mod prunem <> 0.
Proof.
  intros Hm Hg Hi Hz.
  pose proof (groups_apart i g Hm Hz Hg ltac:(lia)). lia.
Qed.

(** The passes after the first column of a group leave the mask of the
    group. *)
Lemma col_loop_keeps_group (g len : nat) :
  prunem <> 0 -> g mod prunem = 0 ->
  forall a st st',
    g < a ->
    loop (seq a len) st = inr st' ->
    forall r c, r < nrows -> c < count -> g <= c < g + prunem ->
      getb (mask1 st') r c = getb (mask1 st) r c.
Proof.
  intros Hm Hg. induction len as [|len IH]; intros a st st' Ha H r c Hr Hc Hgc;
    simpl in H.
  - now injection H as <-.
  - destruct (step st a) as [e|st1] eqn:E; [discriminate|].
    rewrite (IH (S a) st1 st' ltac:(lia) H r c Hr Hc Hgc).
    destruct (Nat.lt_ge_cases c a) as [Hlt|Hge].
    + apply (col_step_mask_before nrows count Hinv1 prunen prunem st st1 a E r c Hr Hc Hlt).
    + destruct (col_step_inv nrows count Hinv1 prunen prunem st st1 a E)
        as [[Hsame | (_ & _ & Hi & _)] _]; [now rewrite Hsame|].
      exfalso. apply (inside_group g a Hm Hg); [lia | exact Hi].
Qed.

(** After the loop over a block that started without a mark, the marks of
    the group that starts at column [g] are the [prunen] positions that the
    selection at that column chose, in every row. *)
Lemma col_loop_group_mask (st0 stf : BlockState) (g : nat) :
  prunen <> 0 -> g mod prunem = 0 -> g + prunem <= count -> prunem <> 0 ->
  (forall r c, r < nrows -> c < count -> getb (mask1 st0) r c = false) ->
  loop (seq 0 count) st0 = inr stf ->
  forall r, r < nrows ->
    exists idx : list nat,
      NoDup idx /\ List.length idx = prunen
      /\ (forall t, In t idx -> t < prunem)
      /\ forall t, t < prunem ->
           getb (mask1 stf) r (g + t) = existsb (Nat.eqb t) idx.
Proof.
  intros Hn Hg Hgc Hm Hclear H r Hr.
  assert (Hsplit : seq 0 count = (seq 0 g ++ g :: seq (S g) (count - S g))%list).
  { replace count with (g + S (count - S g)) at 1 by lia.
    rewrite seq_app. reflexivity. }
  rewrite Hsplit, col_loop_app in H.
  destruct (loop (seq 0 g) st0) as [e|st1] eqn:E1; [discriminate|].
  cbn [col_loop] in H.
  destruct (step st1 g) as [e|st2] eqn:E2; [discriminate|].
  assert (Hb : marked_behind nrows count prunem g st1).
  { apply (col_loop_marked_behind g 0 st0 st1); [|exact E1].
    intros r0 c0 Hr0 Hc0 Hm0. rewrite Hclear in Hm0 by assumption. discriminate. }
  assert (Hfree : forall t, t < prunem -> getb (mask1 st1) r (g + t) = false).
  { intros t Ht. destruct (getb (mask1 st1) r (g + t)) eqn:Em; [|reflexivity].
    destruct (Hb r (g + t) Hr ltac:(lia) Em) as (g' & Hg' & Hlt & Hin).
    pose proof (groups_apart g g' Hm Hg Hg' Hlt). lia. }
  assert (Hs : select (W1 st1) (mask1 st1) g = inr (mask1 st2)).
  { destruct (col_step_inv nrows count Hinv1 prunen prunem st1 st2 g E2)
      as [[Hsame | (_ & _ & _ & Hs)] _]; [|exact Hs].
    revert E2. unfold col_step.
    destruct (Nat.eqb_spec prunen 0) as [|_]; [contradiction|]. simpl negb. cbv iota.
    destruct (Nat.eqb_spec prunem 0) as [|_]; [contradiction|].
    rewrite Hg. simpl.
    destruct (select (W1 st1) (mask1 st1) g) as [e|mask]; [discriminate|].
    intros H0. now injection H0 as <-. }
  destruct (select_group_spec nrows count Hinv1 prunen prunem _ _ _ _ Hs)
    as [Hle Hmask].
  assert (Hlen : List.length (scores (W1 st1) g r) = prunem).
  { unfold group_scores. rewrite length_map, length_seq. lia. }
  destruct (topk_smallest_spec prunen (scores (W1 st1) g r)) as (Hnd & Hl & Hr').
  { rewrite Hlen. lia. }
  exists (topk_smallest prunen (scores (W1 st1) g r)).
  split; [exact Hnd|]. split; [exact Hl|].
  split; [intros t Ht; specialize (Hr' t Ht); now rewrite Hlen in Hr'|].
  intros t Ht.
  rewrite (col_loop_keeps_group g (count - S g) Hm Hg (S g) st2 stf ltac:(lia) H
             r (g + t) Hr ltac:(lia) ltac:(lia)).
  rewrite (Hmask r (g + t) Hr ltac:(lia)), (Hfree t Ht). cbn [orb].
  clear. induction (topk_smallest prunen (scores (W1 st1) g r)) as [|x l IH];
    [reflexivity|].
  cbn [map existsb]. rewrite IH. f_equal.
  destruct (Nat.eqb_spec (g + t) (g + x)), (Nat.eqb_spec t x); try reflexivity; lia.
Qed.

(** The entries of [Q1] after the loop: zero where the mask is set. *)
Lemma col_loop_masked (st0 stf : BlockState) :
  loop (seq 0 count) st0 = inr stf ->
  forall r c, r < nrows -> c < count ->
    getb (mask1 stf) r c = true -> get (Q1 stf) r c = rzero.
Proof.
  intros H r c Hr Hc Hm.
  assert (Hz : zeroed nrows count count stf).
  { apply (col_loop_zeroed nrows count Hinv1 prunen prunem count 0 st0 stf); [|exact H].
    intros ? ? _ _ Hc'. lia. }
  now apply Hz.
Qed.

End GroupMask.

(** ** The state of a block after its pass *)

Section OneBlock.

Context {R : Type} {B : Backend R}.
Variables (nrows ncols blocksize : nat) (sparsity : PyFloat.t).
Variables (prunen prunem : nat) (Hinv : Matrix R).

Local Abbreviation block := (prune_block nrows ncols blocksize sparsity prunen prunem None Hinv).
Local Abbreviation pass := (block_pass nrows ncols blocksize sparsity prunen prunem None Hinv).

(** What the pass over a block writes into the columns of the block is
    [Q1] as the loop over the columns left it. *)
Lemma prune_block_pass (W W' : Matrix R) (i1 : nat) :
  block W i1 = inr W' ->
  exists stf : BlockState,
    pass W i1 = inr stf
    /\ forall r c, r < nrows -> c < block_end ncols blocksize i1 - i1 ->
         get W' r (i1 + c) = get (Q1 stf) r c.
Proof.
  unfold prune_block, block_pass. fold (block_end ncols blocksize i1).
  destruct (initial_mask nrows sparsity prunen Hinv W i1 (block_end ncols blocksize i1 - i1))
    as [e|mask]; [discriminate|].
  destruct (col_loop _ _ _ _ _ _ _ _) as [e|stf]; [discriminate|].
  intros [= <-]. exists stf. split; [reflexivity|].
  intros r c Hr Hc.
  assert (Hend : block_end ncols blocksize i1 <= ncols) by (unfold block_end; lia).
  rewrite get_tabulate by lia.
  destruct (Nat.ltb_spec (i1 + c) i1); [lia|].
  destruct (Nat.ltb_spec (i1 + c) (block_end ncols blocksize i1)); [|lia].
  now replace (i1 + c - i1) with c by lia.
Qed.

(** The entries of [Q1] that the mask marks are zero. *)
Lemma block_pass_masked (W : Matrix R) (i1 : nat) (stf : BlockState) :
  pass W i1 = inr stf ->
  forall r c, r < nrows -> c < block_end ncols blocksize i1 - i1 ->
    getb (mask1 stf) r c = true -> get (Q1 stf) r c = rzero.
Proof.
  unfold block_pass. fold (block_end ncols blocksize i1).
  destruct (initial_mask nrows sparsity prunen Hinv W i1 (block_end ncols blocksize i1 - i1))
    as [e|mask]; [discriminate|].
  intros Hl. exact (col_loop_masked nrows _ _ prunen prunem _ stf Hl).
Qed.


(** N:M pruning: in every row, the marks of a group of the block are
    [prunen] positions of the group. *)
Lemma block_pass_group_mask (W : Matrix R) (i1 g : nat) (stf : BlockState) :
  prunen <> 0 -> prunem <> 0 -> g mod prunem = 0 ->
  g + prunem <= block_end ncols blocksize i1 - i1 ->
  pass W i1 = inr stf ->
  forall r, r < nrows -> count_masked (mask1 stf) r g prunem = prunen.
Proof.
  intros Hn Hm Hg Hgc. unfold block_pass, initial_mask.
  fold (block_end ncols blocksize i1).
  destruct (Nat.eqb_spec prunen 0) as [|_]; [contradiction|].
  intros Hl r Hr.
  match type of Hl with
  | col_loop _ _ _ _ _ _ _ ?s = _ =>
      assert (Hclear : forall r0 c0, r0 < nrows ->
                c0 < block_end ncols blocksize i1 - i1 -> getb (mask1 s) r0 c0 = false)
        by (intros r0 c0 Hr0 Hc0; cbn [mask1]; now rewrite getb_tabulate)
  end.
  destruct (col_loop_group_mask nrows _ _ prunen prunem _ stf g Hn Hg Hgc Hm
              Hclear Hl r Hr)
    as (idx & Hnd & Hlen & Hidx & Hmask).
  unfold count_masked. rewrite <- Hlen, <- (filter_positions_length prunem idx Hnd Hidx).
  f_equal. apply filter_ext_in. intros t Ht. apply in_seq in Ht. apply Hmask. lia.
Qed.

End OneBlock.

End PruneFacts.

Module PruneClaims.

Import SGPT SGPTFacts PruneFacts.

Section Steps.

Context {R : Type} {B : Backend R}.

(** A call that returns went through both factorisations and the loop. *)
Lemma fasterprune_returns (w w' : Wrapper) (sparsity percdamp : PyFloat.t)
      (prunen prunem blocksize : nat) :
  fasterprune w sparsity prunen prunem blocksize percdamp = (None, w') ->
  exists (Hinv W' : Matrix R),
    factorize w percdamp = Some Hinv
    /\ 0 < blocksize
    /\ prune_columns w sparsity prunen prunem blocksize Hinv
         (snd (before_factorization w percdamp)) = inr W'
    /\ layer w' = store_weight (layer w) (rows w) (columns w) W'.
Proof.
  unfold fasterprune, factorize.
  destruct (before_factorization w percdamp) as [h W]. simpl fst. simpl snd.
  destruct (linalg_cholesky false (columns w) h) as [L|]; [|discriminate].
  destruct (linalg_cholesky true (columns w) (cholesky_inverse (columns w) L))
    as [Hinv|]; [|discriminate].
  destruct (Nat.eqb_spec blocksize 0) as [|Hbs]; [discriminate|].
  destruct (prune_columns w sparsity prunen prunem blocksize Hinv W) as [e|W']
    eqn:El; [discriminate|].
  intros H. injection H as <-.
  exists Hinv, W'. split; [reflexivity|]. split; [lia|]. split; [exact El|].
  reflexivity.
Qed.

Lemma before_factorization_rect (w : Wrapper) (percdamp : PyFloat.t) :
  rect (rows w) (columns w) (snd (before_factorization w percdamp)).
Proof. apply rect_tabulate. Qed.

(** The entries of the stored weight in the columns of block [p] are the
    casts of what the pass over that block left. *)
Lemma fasterprune_block (w w' : Wrapper) (sparsity percdamp : PyFloat.t)
      (prunen prunem blocksize p : nat) :
  fasterprune w sparsity prunen prunem blocksize percdamp = (None, w') ->
  weight_fake_quant (layer w) = None ->
  matrix_shape (layer w) = Some (rows w, columns w) ->
  p * blocksize < columns w ->
  exists (Hinv Wp Wq : Matrix R),
    factorize w percdamp = Some Hinv
    /\ 0 < blocksize
    /\ weights_after w sparsity prunen prunem blocksize percdamp Hinv p = inr Wp
    /\ prune_block (rows w) (columns w) blocksize sparsity prunen prunem None Hinv
                   Wp (p * blocksize) = inr Wq
    /\ forall r j, r < rows w -> j < columns w ->
         j < block_end (columns w) blocksize (p * blocksize) ->
         get (weight_matrix (layer w')) r j = to_dtype (dtype (layer w)) (get Wq r j).
Proof.
  intros H Hfq Hshape Hp.
  destruct (fasterprune_returns w w' _ _ _ _ _ H) as (Hinv & W' & Hf & Hbs & Hl & Hw).
  unfold prune_columns in Hl. rewrite Hfq in Hl.
  destruct (blocks_loop_at (rows w) (columns w) blocksize sparsity prunen prunem
              Hinv p _ W' Hbs Hp Hl) as (Wp & Wq & Hp1 & Hp2 & Hkeep).
  exists Hinv, Wp, Wq. split; [exact Hf|]. split; [exact Hbs|].
  split; [unfold weights_after; rewrite Hfq; exact Hp1|].
  split; [exact Hp2|].
  intros r j Hr Hj Hlt. rewrite Hw.
  rewrite (weight_matrix_store (layer w) (rows w) (columns w) W' Hshape) by
    (try assumption;
     apply (blocks_loop_rect (rows w) (columns w) blocksize sparsity prunen prunem
              Hinv _ _ W' (before_factorization_rect w percdamp) Hl)).
  f_equal. now apply Hkeep.
Qed.

End Steps.



(** C4, as the code has it: after [fasterprune(prunen=n, prunem=m)] with
    [0 < n] has returned, on a layer without fake quantisation and with a
    block size that is a multiple of [m], in every group of [m] consecutive
    weights of a row that starts at a multiple of [m], exactly [n] positions
    are marked in the mask of the block, and the weights at these positions
    are stored as zero.  The group holds at least [n] zeros, and exactly [n]
    unless a weight that the mask spares is stored as zero itself. *)
Theorem fasterprune_nm_groups_have_n_zeros :
  forall (R : Type) (B : Backend R) (w w' : Wrapper)
         (sparsity percdamp : PyFloat.t) (n m blocksize : nat),
    fasterprune w sparsity n m blocksize percdamp = (None, w') ->
    0 < n -> 0 < m ->
    Nat.divide m blocksize ->
    weight_fake_quant (layer w) = None ->
    matrix_shape (layer w) = Some (rows w, columns w) ->
    reqb (to_dtype (dtype (layer w)) rzero) rzero = true ->
    forall r G, r < rows w -> G * m + m <= columns w ->
      let p := G * m / blocksize in
      let g := (G * m) mod blocksize in
      let stored := weight_matrix (layer w') in
      exists (Hinv Wp : Matrix R) (st : BlockState),
        factorize w percdamp = Some Hinv
        /\ weights_after w sparsity n m blocksize percdamp Hinv p = inr Wp
        /\ block_pass (rows w) (columns w) blocksize sparsity n m None Hinv Wp
                      (p * blocksize) = inr st
        /\ count_masked (mask1 st) r g m = n
        /\ (forall t, t < m ->
              get stored r (G * m + t)
              = to_dtype (dtype (layer w)) (get (Q1 st) r (g + t))
              /\ (getb (mask1 st) r (g + t) = true -> get (Q1 st) r (g + t) = rzero))
        /\ n <= count_zeros (segment stored r (G * m) m)
        /\ ((forall t, t < m -> getb (mask1 st) r (g + t) = false ->
               reqb (get stored r (G * m + t)) rzero = false) ->
            count_zeros (segment stored r (G * m) m) = n).
Proof.
  intros R B w w' sparsity percdamp n m blocksize Hrun Hn Hm [q Hq] Hfq Hshape Hz
         r G Hr HG p g stored.
  assert (Hbs : 0 < blocksize).
  { now destruct (fasterprune_returns w w' _ _ _ _ _ Hrun)
      as (_ & _ & _ & Hbs & _). }
  set (gs := G * m) in *.
  assert (Hdiv : gs = blocksize * p + g) by (apply Nat.div_mod_eq).
  assert (Hmod : g < blocksize) by (apply Nat.mod_upper_bound; lia).
  assert (Hp : p * blocksize < columns w) by (subst gs; nia).
  destruct (fasterprune_block w w' sparsity percdamp n m blocksize p
              Hrun Hfq Hshape Hp)
    as (Hinv & Wp & Wq & Hf & _ & Hw & Hblock & Hkeep).
  assert (Hgeq : g = (G - p * q) * m) by (subst gs; nia).
  assert (Hgm : g mod m = 0) by (rewrite Hgeq; apply Nat.Div0.mod_mul).
  assert (Hgq : g + m <= blocksize).
  { assert (Hlt : G - p * q < q) by nia. nia. }
  assert (Hgc : g + m <= block_end (columns w) blocksize (p * blocksize) - p * blocksize).
  { unfold block_end. subst gs. lia. }
  destruct (prune_block_pass (rows w) (columns w) blocksize sparsity n m Hinv
              Wp Wq (p * blocksize) Hblock) as (st & Hpass & Hq1).
  pose proof (block_pass_masked (rows w) (columns w) blocksize sparsity n m Hinv
                Wp (p * blocksize) st Hpass) as Hzero.
  pose proof (block_pass_group_mask (rows w) (columns w) blocksize sparsity n m Hinv
                Wp (p * blocksize) g st ltac:(lia) ltac:(lia) Hgm Hgc Hpass r Hr)
    as Hcount.
  assert (Hstored : forall t, t < m ->
            get stored r (gs + t)
            = to_dtype (dtype (layer w)) (get (Q1 st) r (g + t))).
  { intros t Ht. unfold stored.
    replace (gs + t) with (p * blocksize + (g + t)) by lia.
    rewrite Hkeep; [rewrite Hq1; [reflexivity | exact Hr | lia] | exact Hr | lia |].
    unfold block_end in *. lia. }
  assert (Hzeros : count_zeros (segment stored r gs m)
                   = List.length
                       (filter (fun t => reqb (get stored r (gs + t)) rzero) (seq 0 m))).
  { unfold count_zeros, segment. apply filter_map_length. }
  exists Hinv, Wp, st.
  split; [exact Hf|]. split; [exact Hw|]. split; [exact Hpass|].
  split; [exact Hcount|].
  split; [intros t Ht; split; [now apply Hstored | apply Hzero; [exact Hr | lia]]|].
  split.
  - rewrite Hzeros, <- Hcount. unfold count_masked.
    rewrite <- (map_id (seq 0 m)) at 1 2.
    apply filter_map_le. intros t Ht Hmask. apply in_seq in Ht.
    rewrite Hstored, Hzero by (try assumption; lia). exact Hz.
  - intros Hsurvive. rewrite Hzeros, <- Hcount. unfold count_masked.
    f_equal. apply filter_ext_in. intros t Ht. apply in_seq in Ht.
    destruct (getb (mask1 st) r (g + t)) eqn:Em.
    + rewrite Hstored, Hzero by (try assumption; lia). exact Hz.
    + apply Hsurvive; [lia | exact Em].
Qed.

(** 2:4 pruning of the row [8, 7, 6, 5]: two zeros. *)
Lemma fasterprune_nm_groups_have_n_zeros_witness :
  count_zeros
    (segment (weight_matrix
                (layer (snd (fasterprune Runs.two_rows F32.py_half 2 4 128 F32.py_zero))))
             1 (0 * 4) 4)
  = 2.
Proof.
  destruct (fasterprune_nm_groups_have_n_zeros F32.t F32.backend Runs.two_rows
              (snd (fasterprune Runs.two_rows F32.py_half 2 4 128 F32.py_zero))
              F32.py_half F32.py_zero 2 4 128)
    with (r := 1) (G := 0)
    as (Hinv & Wp & st & Hf & Hw & Hpass & _ & _ & _ & Hexact).
  - vm_compute. reflexivity.
  - lia.
  - lia.
  - exists 32. reflexivity.
  - reflexivity.
  - reflexivity.
  - reflexivity.
  - vm_compute. lia.
  - vm_compute. lia.
  - apply Hexact.
    vm_compute in Hf. injection Hf as <-.
    vm_compute in Hw. injection Hw as <-.
    vm_compute in Hpass. injection Hpass as <-.
    intros t Ht.
    destruct t as [|[|[|[|t]]]]; [| | | |lia]; vm_compute; congruence.
Defined.


(** C4 as worded fails on a row that is already three quarters sparse:
    2:4 pruning of the weights [0, 0, 0, 5] returns them unchanged, with
    three zeros in the one group of four. *)
Lemma nm_exact_fails :
  fst (fasterprune Runs.sparse_row F32.py_half 2 4 128 F32.py_zero) = None
  /\ ~ SGPTSpec.nm_exact 2 4
         (snd (fasterprune Runs.sparse_row F32.py_half 2 4 128 F32.py_zero)).
Proof.
  split; [vm_compute; reflexivity|].
  intros Hc. specialize (Hc 0 0).
  assert (H3 : count_zeros
                 (segment (weight_matrix
                    (layer (snd (fasterprune Runs.sparse_row F32.py_half 2 4 128
                                   F32.py_zero)))) 0 (0 * 4) 4) = 3)
    by (vm_compute; reflexivity).
  rewrite H3 in Hc.
  assert (H32 : 3 = 2) by (apply Hc; vm_compute; lia).
  discriminate.
Qed.






(** A call that raises leaves the layer as it was: the columns are pruned in
    a copy of the weight, which is stored only when the last block is done.
    The accumulator is not spared: it holds whatever the call had made of it. *)
Theorem fasterprune_raise_keeps_layer :
  forall (R : Type) (B : Backend R) (w w' : Wrapper) (e : Exn)
         (sparsity percdamp : PyFloat.t) (prunen prunem blocksize : nat),
    fasterprune w sparsity prunen prunem blocksize percdamp = (Some e, w') ->
    layer w' = layer w /\ nsamples w' = nsamples w
    /\ rows w' = rows w /\ columns w' = columns w.
Proof.
  intros R B w w' e sparsity percdamp prunen prunem blocksize.
  unfold fasterprune.
  destruct (before_factorization w percdamp) as [h W].
  destruct (linalg_cholesky false (columns w) h) as [L|];
    [|intros [= _ <-]; repeat split].
  destruct (linalg_cholesky true (columns w) (cholesky_inverse (columns w) L))
    as [Hinv|]; [|intros [= _ <-]; repeat split].
  destruct (blocksize =? 0)%nat; [intros [= _ <-]; repeat split|].
  destruct (prune_columns w sparsity prunen prunem blocksize Hinv W);
    [intros [= _ <-]; repeat split | discriminate].
Qed.

(** A block size of 0 on the one-layer run: the call raises, weights kept. *)
Lemma fasterprune_raise_keeps_layer_witness :
  fst (fasterprune Runs.all_ones F32.py_half 0 0 0 F32.py_zero) = Some ValueError
  /\ layer (snd (fasterprune Runs.all_ones F32.py_half 0 0 0 F32.py_zero))
     = layer Runs.all_ones.
Proof.
  split; [vm_compute; reflexivity|].
  apply (fasterprune_raise_keeps_layer _ _ Runs.all_ones _ ValueError
           F32.py_half F32.py_zero 0 0 0).
  vm_compute. reflexivity.
Defined.

End PruneClaims.

(* ===================================================================== *)
(** * The wrapper at its edges                                            *)
(* ===================================================================== *)

Module AddBatchFacts.

Import SGPT SGPTFacts AddBatchClaims.

Section Calls.

Context {R : Type} {B : Backend R}.

(** The method never rebinds [layer], [rows] or [columns]. *)
Lemma add_batch_frame (w : Wrapper) (inp : Tensor) :
  layer (snd (add_batch w inp)) = layer w
  /\ rows (snd (add_batch w inp)) = rows w
  /\ columns (snd (add_batch w inp)) = columns w.
Proof.
  unfold add_batch.
  destruct (prepare (kind (layer w)) inp) as [e|[tmp x]]; [now repeat split|].
  destruct (sqrt_two_over _); [|now repeat split].
  destruct x as [f k xs | v | ]; [|now repeat split..].
  destruct (add_broadcast _ _ _ _); now repeat split.
Qed.

(** What line 79 reads off a 2-D or 3-D input. *)
Lemma prepare_sample_shaped (k : LayerKind) (inp : Tensor) :
  is_linear_or_conv1d k = true -> sample_shaped inp = true ->
  exists x, prepare k inp = inr (leading_dimension inp, x).
Proof.
  intros Hk Hs. unfold sample_shaped, leading_dimension in *.
  destruct (shape inp) as [|a [|b [|c [|d l]]]] eqn:E; try discriminate.
  - apply Nat.ltb_lt in Hs. eexists. apply (prepare_2d k inp a b Hk E Hs).
  - apply Nat.ltb_lt in Hs. eexists. apply (prepare_3d k inp a b c Hk E Hs).
Qed.

End Calls.

End AddBatchFacts.

Module AddBatchEdges.

Import SGPT SGPTFacts AddBatchClaims AddBatchFacts.

(** On a [Linear] or [Conv1D] layer, a 3-D batch whose last dimension is
    neither the number of columns nor 1 makes the call raise a RuntimeError
    at its last line, after the batch has been counted and the accumulator
    scaled down for it: the wrapper is left with the new sample count and
    with [H] times [n / (n + b)], without the contribution of the batch. *)
Theorem add_batch_counts_rejected_batch :
  forall (R : Type) (B : Backend R) (w : Wrapper) (inp : Tensor)
         (b s f : nat) (root : PyFloat.t),
    is_linear_or_conv1d (kind (layer w)) = true ->
    shape inp = [b; s; f] ->
    0 < f -> f <> columns w -> f <> 1 ->
    (0 <= nsamples w)%Z ->
    (nsamples w + Z.of_nat b <= INT32_MAX)%Z ->
    sqrt_two_over (nsamples w + Z.of_nat b) = Some root ->
    fst (add_batch w inp) = Some RuntimeError
    /\ nsamples (snd (add_batch w inp)) = (nsamples w + Z.of_nat b)%Z
    /\ forall i j, i < columns w -> j < columns w ->
         get (H (snd (add_batch w inp))) i j
         = rmul (get (H w) i j)
                (rdiv (of_int (nsamples w)) (of_int (nsamples w + Z.of_nat b))).
Proof.
  intros R B w inp b s f root Hk Hs Hf Hm H1 Hn Hmax Hroot.
  unfold add_batch. rewrite (prepare_3d _ inp b s f Hk Hs Hf).
  rewrite int32_small by (unfold INT32_MAX in *; lia).
  rewrite Hroot. unfold add_broadcast.
  destruct (Nat.eqb_spec f (columns w)) as [|_]; [contradiction|].
  destruct (Nat.eqb_spec f 1) as [|_]; [contradiction|].
  cbn [fst snd with_buffers nsamples H]. split; [reflexivity|]. split; [reflexivity|].
  intros i j Hi Hj. now rewrite get_tabulate.
Qed.

(** One token with two features, offered to a fresh wrapper of four
    columns. *)
Lemma add_batch_counts_rejected_batch_witness :
  fst (add_batch Runs.fresh Runs.batch_1x1x2) = Some RuntimeError
  /\ nsamples (snd (add_batch Runs.fresh Runs.batch_1x1x2)) = 1%Z.
Proof.
  destruct (add_batch_counts_rejected_batch F32.t F32.backend
              Runs.fresh Runs.batch_1x1x2 1 1 2
              (SFsqrt 53 1024 (F32.to_pyfloat (F32.div (F32.of_Z 2) (F32.of_Z 1)))))
    as (He & Hn & _).
  - reflexivity.
  - reflexivity.
  - apply Nat.lt_0_succ.
  - discriminate.
  - discriminate.
  - apply Z.le_refl.
  - vm_compute. discriminate.
  - vm_compute. reflexivity.
  - split; assumption.
Defined.

(** On a [Linear] or [Conv1D] layer, after any number of calls on 2-D and
    3-D inputs, the sample count has grown by the sum of what each input
    counts for (1 for a 2-D input, its first dimension for a 3-D one),
    whether or not some of the calls raised after line 87; the count is an
    int32 that does not overflow. *)
Theorem add_batches_counts_samples :
  forall (R : Type) (B : Backend R) (batches : list Tensor) (w : Wrapper),
    is_linear_or_conv1d (kind (layer w)) = true ->
    Forall (fun inp => sample_shaped inp = true) batches ->
    (0 <= nsamples w)%Z ->
    (nsamples w + Z.of_nat (list_sum (map leading_dimension batches)) <= INT32_MAX)%Z ->
    nsamples (add_batches w batches)
    = (nsamples w + Z.of_nat (list_sum (map leading_dimension batches)))%Z.
Proof.
  intros R B batches. unfold add_batches.
  induction batches as [|inp batches IH]; intros w Hk Hall Hn Hmax;
    unfold list_sum in *; cbn [fold_left map fold_right] in *.
  - lia.
  - inversion Hall as [|? ? Hinp Hrest]; subst.
    destruct (prepare_sample_shaped (kind (layer w)) inp Hk Hinp) as [x Hp].
    assert (Hstep : nsamples (snd (add_batch w inp))
                    = (nsamples w + Z.of_nat (leading_dimension inp))%Z).
    { rewrite (add_batch_nsamples w inp _ _ Hp) by lia.
      apply int32_small. unfold INT32_MAX in *. lia. }
    rewrite IH.
    + rewrite Hstep. lia.
    + now rewrite (proj1 (add_batch_frame w inp)).
    + exact Hrest.
    + rewrite Hstep. lia.
    + rewrite Hstep. lia.
Qed.

(** Three tokens without a batch dimension, then two sequences. *)
Lemma add_batches_counts_samples_witness :
  nsamples (add_batches Runs.fresh [Runs.batch_3x4; Runs.batch_2x2x4]) = 3%Z.
Proof.
  apply (add_batches_counts_samples F32.t F32.backend
           [Runs.batch_3x4; Runs.batch_2x2x4] Runs.fresh).
  - reflexivity.
  - repeat constructor.
  - apply Z.le_refl.
  - vm_compute. discriminate.
Defined.

(** On a [Linear] or [Conv1D] layer, a 3-D batch with a single feature is
    accepted whatever the number of columns: the 1 x 1 product of the batch
    with itself is broadcast, and one and the same value, the inner product
    of the scaled samples, is added to every entry of the rescaled [H]. *)
Theorem add_batch_single_feature_broadcasts :
  forall (R : Type) (B : Backend R) (w : Wrapper) (inp : Tensor)
         (b s : nat) (root : PyFloat.t),
    is_linear_or_conv1d (kind (layer w)) = true ->
    shape inp = [b; s; 1] ->
    (0 <= nsamples w)%Z ->
    (nsamples w + Z.of_nat b <= INT32_MAX)%Z ->
    sqrt_two_over (nsamples w + Z.of_nat b) = Some root ->
    let v :=
      map (fun k => rmul (of_pyfloat root) (to_dtype float32 (nth k (data inp) rzero)))
          (seq 0 (b * s)) in
    exists w' : Wrapper,
      add_batch w inp = (None, w')
      /\ nsamples w' = (nsamples w + Z.of_nat b)%Z
      /\ forall i j, i < columns w -> j < columns w ->
           get (H w') i j
           = radd (rmul (get (H w) i j)
                        (rdiv (of_int (nsamples w))
                              (of_int (nsamples w + Z.of_nat b))))
                  (rdot v v).
Proof.
  intros R B w inp b s root Hk Hs Hn Hmax Hroot v.
  unfold add_batch. rewrite (prepare_3d _ inp b s 1 Hk Hs Nat.lt_0_1).
  rewrite int32_small by (unfold INT32_MAX in *; lia).
  rewrite Hroot.
  assert (Hp : get (matmul 1 (b * s) 1
                      (tabulate 1 (b * s)
                         (fun i j =>
                            rmul (of_pyfloat root)
                                 (to_dtype float32
                                    (get (transpose (b * s) 1
                                            (view2 (b * s) 1 (data inp))) i j))))
                      (transpose 1 (b * s)
                         (tabulate 1 (b * s)
                            (fun i j =>
                               rmul (of_pyfloat root)
                                    (to_dtype float32
                                       (get (transpose (b * s) 1
                                               (view2 (b * s) 1 (data inp))) i j))))))
                   0 0
               = rdot v v).
  { unfold matmul. rewrite get_tabulate by apply Nat.lt_0_1.
    assert (Hv : forall k, k < b * s ->
              rmul (of_pyfloat root)
                   (to_dtype float32
                      (get (transpose (b * s) 1 (view2 (b * s) 1 (data inp))) 0 k))
              = rmul (of_pyfloat root) (to_dtype float32 (nth k (data inp) rzero))).
    { intros k Hk'. unfold transpose, view2.
      rewrite !get_tabulate by (assumption || apply Nat.lt_0_1).
      now rewrite Nat.mul_1_r, Nat.add_0_r. }
    f_equal.
    - rewrite row_tabulate by apply Nat.lt_0_1. now apply map_seq_ext.
    - unfold col. apply map_seq_ext. intros k Hk'.
      unfold transpose at 1. rewrite !get_tabulate by (assumption || apply Nat.lt_0_1).
      now apply Hv. }
  unfold add_broadcast.
  destruct (Nat.eqb_spec 1 (columns w)) as [<-|_].
  - eexists. split; [reflexivity|]. split; [reflexivity|].
    intros i j Hi Hj. cbn [H with_buffers].
    rewrite !get_tabulate by assumption.
    replace i with 0 by lia. replace j with 0 by lia. now rewrite Hp.
  - cbn [Nat.eqb]. eexists. split; [reflexivity|]. split; [reflexivity|].
    intros i j Hi Hj. cbn [H with_buffers].
    rewrite !get_tabulate by assumption. now rewrite Hp.
Qed.

(** Two samples of one feature, 1 and 2, offered to a fresh wrapper of
    four columns: the call returns, and every entry of [H] is 1 + 4. *)
Lemma add_batch_single_feature_broadcasts_witness :
  fst (add_batch Runs.fresh Runs.batch_2x1x1) = None
  /\ get (H (snd (add_batch Runs.fresh Runs.batch_2x1x1))) 0 3 = F32.of_Z 5.
Proof.
  destruct (add_batch_single_feature_broadcasts F32.t F32.backend
              Runs.fresh Runs.batch_2x1x1 2 1
              (SFsqrt 53 1024 (F32.to_pyfloat (F32.div (F32.of_Z 2) (F32.of_Z 2)))))
    as (w' & Hadd & _ & Hget).
  - reflexivity.
  - reflexivity.
  - apply Z.le_refl.
  - vm_compute. discriminate.
  - vm_compute. reflexivity.
  - split; [now rewrite Hadd|].
    rewrite Hadd. cbn [snd]. rewrite (Hget 0 3); [vm_compute; reflexivity | |];
      vm_compute; lia.
Defined.

(** Any layer that is neither [Linear] nor [Conv1D], a [Conv2d] for one:
    an input of two dimensions or more makes the call raise the RuntimeError
    of [inp.t()] at its last line, after the batch has been counted.  The
    wrapper cannot accumulate statistics for such a layer. *)
Theorem add_batch_rejects_other_layers :
  forall (R : Type) (B : Backend R) (w : Wrapper) (inp : Tensor)
         (d0 d1 : nat) (rest : list nat) (root : PyFloat.t),
    is_linear_or_conv1d (kind (layer w)) = false ->
    shape inp = d0 :: d1 :: rest ->
    (0 <= nsamples w)%Z ->
    (nsamples w + Z.of_nat (leading_dimension inp) <= INT32_MAX)%Z ->
    sqrt_two_over (nsamples w + Z.of_nat (leading_dimension inp)) = Some root ->
    fst (add_batch w inp) = Some RuntimeError
    /\ nsamples (snd (add_batch w inp))
       = (nsamples w + Z.of_nat (leading_dimension inp))%Z.
Proof.
  intros R B w inp d0 d1 rest root Hk Hs Hn Hmax Hroot.
  assert (Hp : prepare (kind (layer w)) inp = inr (leading_dimension inp, HighRank)).
  { unfold prepare, leading_dimension. rewrite Hs, Hk.
    destruct rest as [|d2 rest]; reflexivity. }
  unfold add_batch. rewrite Hp.
  rewrite int32_small by (unfold INT32_MAX in *; lia).
  rewrite Hroot. now split.
Qed.

(** A 3 x 3 image offered to the wrapper of a [Conv2d] layer. *)
Lemma add_batch_rejects_other_layers_witness :
  fst (add_batch Runs.fresh_conv Runs.image_1x1x3x3) = Some RuntimeError
  /\ nsamples (snd (add_batch Runs.fresh_conv Runs.image_1x1x3x3)) = 1%Z.
Proof.
  apply (add_batch_rejects_other_layers F32.t F32.backend
           Runs.fresh_conv Runs.image_1x1x3x3 1 1 [3; 3]
           (SFsqrt 53 1024 (F32.to_pyfloat (F32.div (F32.of_Z 2) (F32.of_Z 1))))).
  - reflexivity.
  - reflexivity.
  - apply Z.le_refl.
  - vm_compute. discriminate.
  - vm_compute. reflexivity.
Defined.

End AddBatchEdges.

Module PruneEdges.

Import SGPT SGPTFacts PruneFacts.

Section Calls.

Context {R : Type} {B : Backend R}.

(** [range(0, columns, blocksize)] starts at 0 when it is not empty. *)
Lemma block_starts_first (ncols blocksize : nat) :
  0 < blocksize -> 0 < ncols ->
  exists rest, block_starts ncols blocksize = 0 :: rest.
Proof.
  intros Hb Hc. unfold block_starts.
  assert (Hq : 1 <= (ncols + blocksize - 1) / blocksize)
    by (apply Nat.div_le_lower_bound; lia).
  destruct ((ncols + blocksize - 1) / blocksize) as [|q]; [lia|].
  cbn [seq map]. eauto.
Qed.

(** An exception in the pass over the first block ends the call, with the
    factor [Hinv] left in [self.H]. *)
Lemma fasterprune_first_block (w : Wrapper) (sparsity percdamp : PyFloat.t)
      (prunen prunem blocksize : nat) (Hinv : Matrix R) (e : Exn) :
  factorize w percdamp = Some Hinv ->
  0 < blocksize -> 0 < columns w ->
  prune_block (rows w) (columns w) blocksize sparsity prunen prunem
              (weight_fake_quant (layer w)) Hinv
              (snd (before_factorization w percdamp)) 0 = inl e ->
  fasterprune w sparsity prunen prunem blocksize percdamp = (Some e, with_H w Hinv).
Proof.
  unfold factorize, fasterprune. intros Hf Hb Hc He.
  destruct (before_factorization w percdamp) as [h W]. cbn [fst snd] in *.
  destruct (linalg_cholesky false (columns w) h) as [L|]; [|discriminate].
  rewrite Hf. destruct (Nat.eqb_spec blocksize 0) as [|_]; [lia|].
  unfold prune_columns.
  destruct (block_starts_first (columns w) blocksize Hb Hc) as [rest ->].
  cbn [blocks_loop]. now rewrite He.
Qed.

Lemma sort_length (l : list R) : List.length (sort l) = List.length l.
Proof. apply Permutation_length, sort_perm. Qed.

(** An index outside of [-len, len) raises. *)
Lemma py_index_out_of_range (l : list R) (k : Z) :
  (Z.of_nat (List.length l) <= k \/ k < - Z.of_nat (List.length l))%Z ->
  py_index l k = None.
Proof.
  intros Hk. unfold py_index.
  destruct (Z.leb_spec 0 k), (Z.ltb_spec k (Z.of_nat (List.length l))),
    (Z.leb_spec (- Z.of_nat (List.length l)) k), (Z.ltb_spec k 0);
    cbn [andb]; try reflexivity; lia.
Qed.

Lemma prune_block_rect (nrows ncols blocksize : nat) (sparsity : PyFloat.t)
      (prunen prunem : nat) (fq : option FakeQuantize) (Hinv W W' : Matrix R)
      (i1 : nat) :
  prune_block nrows ncols blocksize sparsity prunen prunem fq Hinv W i1 = inr W' ->
  rect nrows ncols W'.
Proof.
  unfold prune_block. destruct (initial_mask _ _ _ _ _ _ _); [discriminate|].
  destruct (col_loop _ _ _ _ _ _ _ _); [discriminate|].
  intros [= <-]. apply rect_tabulate.
Qed.

(** The loop over the blocks keeps the shape of [W], with or without fake
    quantisation. *)
Lemma blocks_loop_keeps_rect (nrows ncols blocksize : nat) (sparsity : PyFloat.t)
      (prunen prunem : nat) (fq : option FakeQuantize) (Hinv : Matrix R)
      (starts : list nat) :
  forall W W',
    rect nrows ncols W ->
    blocks_loop nrows ncols blocksize sparsity prunen prunem fq Hinv starts W = inr W' ->
    rect nrows ncols W'.
Proof.
  induction starts as [|i1 starts IH]; intros W W' HW H; cbn [blocks_loop] in H.
  - now injection H as <-.
  - destruct (prune_block _ _ _ _ _ _ _ _ W i1) as [e|W1] eqn:E; [discriminate|].
    apply (IH W1 W'); [|exact H]. exact (prune_block_rect _ _ _ _ _ _ _ _ _ _ _ E).
Qed.

(** With a group that cannot hold [prunen] entries, the loop over the
    columns stops at the first column. *)
Lemma col_loop_nm_rejects (nrows count : nat) (Hinv1 : Matrix R)
      (prunen prunem : nat) (fq : option FakeQuantize) (st : BlockState) :
  0 < count -> 0 < prunen ->
  prunem = 0 \/ Nat.min prunem count < prunen ->
  col_loop nrows count Hinv1 prunen prunem fq (seq 0 count) st
  = inl (if (prunem =? 0)%nat then ZeroDivisionError else RuntimeError).
Proof.
  intros Hc Hn Hbad.
  replace (seq 0 count) with (0 :: seq 1 (count - 1))
    by (destruct count; [lia | cbn; now rewrite Nat.sub_0_r]).
  cbn [col_loop]. unfold col_step.
  destruct (Nat.eqb_spec prunen 0) as [|_]; [lia|]. cbn [negb].
  destruct (Nat.eqb_spec prunem 0) as [|Hm]; [reflexivity|].
  rewrite Nat.Div0.mod_0_l. cbn [Nat.eqb]. unfold select_group.
  rewrite Nat.sub_0_r.
  destruct (Nat.ltb_spec (Nat.min prunem count) prunen); [reflexivity | lia].
Qed.

Lemma tabulate_ext {A : Type} (n m : nat) (f g : nat -> nat -> A) :
  (forall r c, r < n -> c < m -> f r c = g r c) -> tabulate n m f = tabulate n m g.
Proof.
  intros H. unfold tabulate. apply map_seq_ext. intros r Hr.
  apply map_seq_ext. intros c Hc. now apply H.
Qed.

(** With an accumulator of zeros every column of [W] is cleared. *)
Lemma neutralize_W_fresh (n m : nat) (W : Matrix R) :
  reqb rzero rzero = true ->
  neutralize_W n m (tabulate m m (fun _ _ => rzero)) W
  = tabulate n m (fun _ _ => rzero).
Proof.
  intros Hz. unfold neutralize_W. apply tabulate_ext. intros r c Hr Hc.
  unfold dead. now rewrite get_tabulate, Hz.
Qed.

End Calls.

End PruneEdges.

Module PruneBehaviour.

Import SGPT SGPTFacts PruneFacts PruneEdges.

(** Unstructured pruning ([prunen = 0]) with a sparsity for which
    [int(numel * sparsity)] is not an index of the scores of the first
    block, as with a sparsity of 1.0 or more: once the factorisations have
    succeeded, the call raises an IndexError at line 151 and the layer keeps
    its weight. *)
Theorem fasterprune_threshold_out_of_range :
  forall (R : Type) (B : Backend R) (w : Wrapper) (sparsity percdamp : PyFloat.t)
         (prunem blocksize : nat) (Hinv : Matrix R) (k : Z),
    factorize w percdamp = Some Hinv ->
    0 < blocksize -> 0 < columns w ->
    let numel := rows w * Nat.min blocksize (columns w) in
    threshold_index numel sparsity = inr k ->
    (Z.of_nat numel <= k \/ k < - Z.of_nat numel)%Z ->
    fst (fasterprune w sparsity 0 prunem blocksize percdamp) = Some IndexError
    /\ layer (snd (fasterprune w sparsity 0 prunem blocksize percdamp)) = layer w.
Proof.
  intros R B w sparsity percdamp prunem blocksize Hinv k Hf Hb Hc numel Hk Hout.
  rewrite (fasterprune_first_block w sparsity percdamp 0 prunem blocksize Hinv
             IndexError Hf Hb Hc); [now split|].
  unfold prune_block, initial_mask, threshold. cbn [Nat.eqb Nat.add].
  rewrite Nat.sub_0_r. fold numel. rewrite Hk.
  rewrite py_index_out_of_range; [reflexivity|].
  rewrite sort_length.
  rewrite (concat_length (rows w) (Nat.min blocksize (columns w)))
    by apply rect_tabulate.
  exact Hout.
Qed.

(** A sparsity of 1.0 on two rows of four weights. *)
Lemma fasterprune_threshold_out_of_range_witness :
  fst (fasterprune Runs.two_rows F32.py_one 0 0 128 F32.py_zero) = Some IndexError
  /\ layer (snd (fasterprune Runs.two_rows F32.py_one 0 0 128 F32.py_zero))
     = layer Runs.two_rows.
Proof.
  apply (fasterprune_threshold_out_of_range F32.t F32.backend Runs.two_rows
           F32.py_one F32.py_zero 0 128
           (map (map F32.of_Z) (F32.identity 4)) 8).
  - vm_compute. reflexivity.
  - apply Nat.lt_0_succ.
  - apply Nat.lt_0_succ.
  - vm_compute. reflexivity.
  - left. vm_compute. discriminate.
Defined.

(** N:M pruning ([prunen > 0]) with a group that cannot hold [prunen]
    entries: once the factorisations have succeeded, the call raises at the
    first column, a ZeroDivisionError at line 160 when [prunem] is 0 and
    otherwise the RuntimeError of [topk] when [prunen] exceeds [prunem] or
    the width of the first block; the layer keeps its weight. *)
Theorem fasterprune_nm_group_too_small :
  forall (R : Type) (B : Backend R) (w : Wrapper) (sparsity percdamp : PyFloat.t)
         (prunen prunem blocksize : nat) (Hinv : Matrix R),
    factorize w percdamp = Some Hinv ->
    0 < blocksize -> 0 < columns w ->
    0 < prunen ->
    prunem = 0 \/ Nat.min prunem (Nat.min blocksize (columns w)) < prunen ->
    fst (fasterprune w sparsity prunen prunem blocksize percdamp)
    = Some (if (prunem =? 0)%nat then ZeroDivisionError else RuntimeError)
    /\ layer (snd (fasterprune w sparsity prunen prunem blocksize percdamp)) = layer w.
Proof.
  intros R B w sparsity percdamp prunen prunem blocksize Hinv Hf Hb Hc Hn Hbad.
  rewrite (fasterprune_first_block w sparsity percdamp prunen prunem blocksize Hinv
             (if (prunem =? 0)%nat then ZeroDivisionError else RuntimeError)
             Hf Hb Hc); [now split|].
  unfold prune_block, initial_mask. cbn [Nat.add].
  rewrite Nat.sub_0_r.
  destruct (Nat.eqb_spec prunen 0) as [|_]; [lia|].
  rewrite col_loop_nm_rejects; [reflexivity | lia | exact Hn | exact Hbad].
Qed.

(** Five of every four weights. *)
Lemma fasterprune_nm_group_too_small_witness :
  fst (fasterprune Runs.two_rows F32.py_half 5 4 128 F32.py_zero) = Some RuntimeError
  /\ layer (snd (fasterprune Runs.two_rows F32.py_half 5 4 128 F32.py_zero))
     = layer Runs.two_rows.
Proof.
  apply (fasterprune_nm_group_too_small F32.t F32.backend Runs.two_rows
           F32.py_half F32.py_zero 5 4 128 (map (map F32.of_Z) (F32.identity 4))).
  - vm_compute. reflexivity.
  - apply Nat.lt_0_succ.
  - apply Nat.lt_0_succ.
  - apply Nat.lt_0_succ.
  - right. vm_compute. apply Nat.le_refl.
Defined.

(** A call that returns leaves in [self.H] the upper Cholesky factor of the
    inverse of the damped accumulator, not the accumulator; it keeps the
    sample count, and of the layer it changes the weight data only: the
    class, the dtype, the fake quantisation and the shape of the weight stay,
    and for a wrapper consistent with its layer the new data fill that
    shape, [rows * columns] entries. *)
Theorem fasterprune_success_frame :
  forall (R : Type) (B : Backend R) (w w' : Wrapper)
         (sparsity percdamp : PyFloat.t) (prunen prunem blocksize : nat),
    fasterprune w sparsity prunen prunem blocksize percdamp = (None, w') ->
    factorize w percdamp = Some (H w')
    /\ nsamples w' = nsamples w
    /\ rows w' = rows w /\ columns w' = columns w
    /\ kind (layer w') = kind (layer w)
    /\ dtype (layer w') = dtype (layer w)
    /\ weight_fake_quant (layer w') = weight_fake_quant (layer w)
    /\ shape (weight (layer w')) = shape (weight (layer w))
    /\ List.length (data (weight (layer w'))) = rows w * columns w.
Proof.
  intros R B w w' sparsity percdamp prunen prunem blocksize.
  unfold fasterprune, factorize.
  pose proof (PruneClaims.before_factorization_rect w percdamp) as Hrect.
  destruct (before_factorization w percdamp) as [h W]. cbn [fst snd] in *.
  destruct (linalg_cholesky false (columns w) h) as [L|]; [|discriminate].
  destruct (linalg_cholesky true (columns w) (cholesky_inverse (columns w) L))
    as [Hinv|]; [|discriminate].
  destruct (blocksize =? 0)%nat; [discriminate|].
  destruct (prune_columns w sparsity prunen prunem blocksize Hinv W) as [e|W'] eqn:El;
    [discriminate|].
  intros [= <-]. cbn [H nsamples rows columns layer].
  repeat (split; [reflexivity|]).
  unfold store_weight. cbn [weight data]. rewrite length_map.
  assert (HW : rect (rows w) (columns w) W')
    by (apply (blocks_loop_keeps_rect _ _ _ _ _ _ _ _ _ W W' Hrect El)).
  destruct (kind (layer w)).
  1, 2, 4: apply (concat_length _ _ _ HW).
  rewrite (concat_length (columns w) (rows w)) by apply rect_tabulate. lia.
Qed.

(** After the run on two rows of distinct weights, [H] is no longer the
    accumulator: it is the factor, here the identity. *)
Lemma fasterprune_success_frame_witness :
  factorize Runs.two_rows F32.py_zero
  = Some (H (snd (fasterprune Runs.two_rows F32.py_half 0 0 128 F32.py_zero)))
  /\ List.length
       (data (weight (layer (snd (fasterprune Runs.two_rows F32.py_half 0 0 128
                                    F32.py_zero)))))
     = 2 * 4.
Proof.
  destruct (fasterprune_success_frame F32.t F32.backend Runs.two_rows
              (snd (fasterprune Runs.two_rows F32.py_half 0 0 128 F32.py_zero))
              F32.py_half F32.py_zero 0 0 128)
    as (Hf & _ & _ & _ & _ & _ & _ & _ & Hlen).
  - vm_compute. reflexivity.
  - split; [exact Hf | exact Hlen].
Defined.

(** A wrapper that has seen no batch: [fasterprune] takes every input
    feature for dead, so that, on a backend where zero equals itself, [W] is
    all zeros when the first factorisation is called.  The weights are
    discarded, not pruned, and no exception tells: what the call raises, the
    factor it leaves in [self.H] and, when it returns, the weights it stores
    are the same for a layer of the same class, shape, dtype and fake
    quantisation with any other weights. *)
Theorem fasterprune_without_batches_drops_weights :
  forall (R : Type) (B : Backend R) (l l' : Layer) (w w' : Wrapper)
         (sparsity percdamp : PyFloat.t) (prunen prunem blocksize : nat),
    init l = Some w ->
    init l' = Some w' ->
    kind l' = kind l ->
    shape (weight l') = shape (weight l) ->
    dtype l' = dtype l ->
    weight_fake_quant l' = weight_fake_quant l ->
    reqb rzero rzero = true ->
    (forall r j, r < rows w -> j < columns w ->
       get (snd (before_factorization w percdamp)) r j = rzero)
    /\ fst (fasterprune w' sparsity prunen prunem blocksize percdamp)
       = fst (fasterprune w sparsity prunen prunem blocksize percdamp)
    /\ H (snd (fasterprune w' sparsity prunen prunem blocksize percdamp))
       = H (snd (fasterprune w sparsity prunen prunem blocksize percdamp))
    /\ (fst (fasterprune w sparsity prunen prunem blocksize percdamp) = None ->
        layer (snd (fasterprune w' sparsity prunen prunem blocksize percdamp))
        = layer (snd (fasterprune w sparsity prunen prunem blocksize percdamp))).
Proof.
  intros R B l l' w w' sparsity percdamp prunen prunem blocksize
         Hinit Hinit' Hkind Hshape Hdtype Hfq Hz.
  unfold init in Hinit, Hinit'.
  assert (Hms : matrix_shape l' = matrix_shape l)
    by (unfold matrix_shape; now rewrite Hkind, Hshape).
  rewrite Hms in Hinit'.
  destruct (matrix_shape l) as [[n m]|]; [|discriminate].
  injection Hinit as <-. injection Hinit' as <-.
  split.
  - intros r j Hr Hj. unfold before_factorization.
    cbn [fst snd rows columns H layer] in *.
    rewrite neutralize_W_fresh by exact Hz. now rewrite get_tabulate.
  - unfold fasterprune, before_factorization, prune_columns, with_H, with_buffers,
      store_weight.
    cbn [rows columns H layer nsamples].
    rewrite !neutralize_W_fresh by exact Hz.
    rewrite Hkind, Hshape, Hdtype, Hfq.
    destruct (linalg_cholesky false m _) as [L|]; [|now repeat split].
    destruct (linalg_cholesky true m _) as [Hinv|]; [|now repeat split].
    destruct (blocksize =? 0)%nat; [now repeat split|].
    destruct (blocks_loop _ _ _ _ _ _ _ _ _ _) as [e|W']; [|now repeat split].
    cbn [fst snd H layer]. repeat split. discriminate.
Qed.

(** The weights [0, 0, 0, 5] and the weights [9, 8, 7, 6] give the same
    layer after the call. *)
Lemma fasterprune_without_batches_drops_weights_witness :
  get (snd (before_factorization Runs.fresh F32.py_half)) 0 3 = F32.zero
  /\ layer (snd (fasterprune
                   (F32.wrapper (F32.linear 1 4 [9; 8; 7; 6]%Z) 1 4
                      (map (map (fun _ => 0%Z)) (F32.identity 4)) 0)
                   F32.py_half 0 0 128 F32.py_half))
     = layer (snd (fasterprune Runs.fresh F32.py_half 0 0 128 F32.py_half)).
Proof.
  destruct (fasterprune_without_batches_drops_weights F32.t F32.backend
              (F32.linear 1 4 [0; 0; 0; 5]%Z) (F32.linear 1 4 [9; 8; 7; 6]%Z)
              Runs.fresh
              (F32.wrapper (F32.linear 1 4 [9; 8; 7; 6]%Z) 1 4
                 (map (map (fun _ => 0%Z)) (F32.identity 4)) 0)
              F32.py_half F32.py_half 0 0 128
              eq_refl eq_refl eq_refl eq_refl eq_refl eq_refl eq_refl)
    as (Hzero & _ & _ & Hlayer).
  split.
  - apply Hzero; [apply Nat.lt_0_succ | vm_compute; apply Nat.le_refl].
  - apply Hlayer. vm_compute. reflexivity.
Defined.

(** Writing a pruned [W] back (lines 200-204) and building [W] from the
    stored weight again (lines 110-114) gives [W] back, cast to the dtype of
    the layer: the transposition of a [Conv1D] and the flattening of a
    [Conv2d] are undone and redone alike. *)
Theorem store_weight_round_trip :
  forall (R : Type) (B : Backend R) (l : Layer) (n m : nat) (W : Matrix R),
    matrix_shape l = Some (n, m) ->
    rect n m W ->
    forall r c, r < n -> c < m ->
      get (weight_matrix (store_weight l n m W)) r c = to_dtype (dtype l) (get W r c).
Proof.
  intros R B l n m W Hs HW r c Hr Hc.
  now apply weight_matrix_store.
Qed.

(** A [Conv1D] of two input and three output features: [W] is 3 x 2. *)
Lemma store_weight_round_trip_witness :
  get (weight_matrix
         (store_weight (F32.conv1d 2 3 [0; 0; 0; 0; 0; 0]%Z) 3 2
                       (map (map F32.of_Z) [[1; 2]; [3; 4]; [5; 6]]%Z)))
      2 1
  = F32.of_Z 6.
Proof.
  apply (store_weight_round_trip F32.t F32.backend
           (F32.conv1d 2 3 [0; 0; 0; 0; 0; 0]%Z) 3 2
           (map (map F32.of_Z) [[1; 2]; [3; 4]; [5; 6]]%Z)).
  - reflexivity.
  - split; [reflexivity | repeat constructor].
  - apply Nat.lt_succ_diag_r.
  - apply Nat.lt_succ_diag_r.
Defined.

(** The wrapper stays consistent with its layer through its life cycle:
    [__init__] takes [rows] and [columns] from the weight of the layer, and
    neither [add_batch] nor [fasterprune], returning or raising, changes
    them or the shape they were taken from. *)
Theorem wrapper_stays_consistent :
  forall (R : Type) (B : Backend R),
    (forall (l : Layer) (w : Wrapper), init l = Some w -> consistent w)
    /\ (forall (w : Wrapper) (inp : Tensor),
          consistent w -> consistent (snd (add_batch w inp)))
    /\ (forall (w : Wrapper) (sparsity percdamp : PyFloat.t)
               (prunen prunem blocksize : nat),
          consistent w ->
          consistent (snd (fasterprune w sparsity prunen prunem blocksize percdamp))).
Proof.
  intros R B. unfold consistent. split; [|split].
  - intros l w. unfold init.
    destruct (matrix_shape l) as [[n m]|] eqn:E; [|discriminate].
    now intros [= <-].
  - intros w inp Hc.
    destruct (AddBatchFacts.add_batch_frame w inp) as (-> & -> & ->). exact Hc.
  - intros w sparsity percdamp prunen prunem blocksize Hc.
    unfold fasterprune.
    destruct (before_factorization w percdamp) as [h W].
    destruct (linalg_cholesky false (columns w) h) as [L|]; [|exact Hc].
    destruct (linalg_cholesky true (columns w) (cholesky_inverse (columns w) L))
      as [Hinv|]; [|exact Hc].
    destruct (blocksize =? 0)%nat; [exact Hc|].
    destruct (prune_columns w sparsity prunen prunem blocksize Hinv W);
      exact Hc.
Qed.

(** A fresh wrapper, one batch, one run of the pruner. *)
Lemma wrapper_stays_consistent_witness :
  consistent
    (snd (fasterprune (snd (add_batch Runs.fresh Runs.batch_2x2x4))
                      F32.py_half 0 0 128 F32.py_zero)).
Proof.
  destruct (wrapper_stays_consistent F32.t F32.backend) as (Hinit & Hadd & Hprune).
  apply Hprune, Hadd. apply (Hinit (F32.linear 1 4 [0; 0; 0; 5]%Z)). reflexivity.
Defined.

(** Unstructured pruning without fake quantisation, on a wrapper consistent
    with its layer: in every block, each weight whose score (the square of
    the weight as the earlier blocks left it, over the square of the
    diagonal entry of [Hinv]) is at most the threshold of the block is
    stored as the cast of zero. *)
Theorem fasterprune_zeroes_scores_up_to_threshold :
  forall (R : Type) (B : Backend R) (w w' : Wrapper)
         (sparsity percdamp : PyFloat.t) (prunem blocksize p : nat)
         (Hinv Wp : Matrix R) (thresh : R),
    fasterprune w sparsity 0 prunem blocksize percdamp = (None, w') ->
    weight_fake_quant (layer w) = None ->
    consistent w ->
    p * blocksize < columns w ->
    factorize w percdamp = Some Hinv ->
    weights_after w sparsity 0 prunem blocksize percdamp Hinv p = inr Wp ->
    let i1 := p * blocksize in
    let count := Nat.min (i1 + blocksize) (columns w) - i1 in
    let tmp := block_scores (rows w) Hinv Wp i1 count in
    threshold tmp (rows w * count) sparsity = inr thresh ->
    forall r c, r < rows w -> c < count ->
      rleb (get tmp r c) thresh = true ->
      get (weight_matrix (layer w')) r (i1 + c) = to_dtype (dtype (layer w)) rzero.
Proof.
  intros R B w w' sparsity percdamp prunem blocksize p Hinv Wp thresh
         H Hfq Hshape Hp Hf Hw i1 count tmp Ht r c Hr Hc Hle.
  destruct (PruneClaims.fasterprune_block w w' sparsity percdamp 0 prunem blocksize p
              H Hfq Hshape Hp)
    as (Hinv' & Wp' & Wq & Hf' & Hbs & Hw' & Hblock & Hkeep).
  assert (Hinv' = Hinv) by congruence. subst Hinv'.
  assert (Wp' = Wp) by congruence. subst Wp'.
  destruct (prune_block_threshold (rows w) (columns w) blocksize sparsity 0 prunem Hinv
              Wp Wq i1 eq_refl Hblock) as (thresh' & Ht' & Hzero).
  fold (block_end (columns w) blocksize i1) in count.
  change (block_end (columns w) blocksize i1 - i1) with count in Ht', Hzero.
  fold tmp in Ht', Hzero.
  assert (thresh' = thresh) by congruence. subst thresh'.
  assert (Hend : block_end (columns w) blocksize i1 <= columns w)
    by (unfold block_end; lia).
  rewrite Hkeep; [| exact Hr | subst count i1; lia | subst count i1; lia].
  now rewrite (Hzero r c Hr Hc Hle).
Qed.

(** Two rows of distinct weights at sparsity 0.5: the threshold is 25, the
    score of the weight 5, which is pruned. *)
Lemma fasterprune_zeroes_scores_up_to_threshold_witness :
  get (weight_matrix
         (layer (snd (fasterprune Runs.two_rows F32.py_half 0 0 128 F32.py_zero))))
      1 (0 * 128 + 3)
  = F32.zero.
Proof.
  apply (fasterprune_zeroes_scores_up_to_threshold F32.t F32.backend Runs.two_rows
           (snd (fasterprune Runs.two_rows F32.py_half 0 0 128 F32.py_zero))
           F32.py_half F32.py_zero 0 128 0
           (map (map F32.of_Z) (F32.identity 4))
           (map (map F32.of_Z) [[1; 2; 3; 4]; [8; 7; 6; 5]]%Z)
           (F32.of_Z 25)).
  - vm_compute. reflexivity.
  - reflexivity.
  - reflexivity.
  - vm_compute. lia.
  - vm_compute. reflexivity.
  - vm_compute. reflexivity.
  - vm_compute. reflexivity.
  - vm_compute. lia.
  - vm_compute. lia.
  - vm_compute. reflexivity.
Defined.

End PruneBehaviour.
